(** * Verification of the import/export and date-reconciliation core of
    the symphonic calendar generator (src/services/dataService.ts and
    getDayStyle in src/components/CalendarCanvas.tsx).

    Modelling conventions.
    - A JavaScript string is a sequence of UTF-16 code units; the model
      covers strings whose code units are all below 256 (Latin-1), written
      as Rocq [string]s, one [ascii] per code unit.
    - A JavaScript [Date] is its time value, an integer number of
      milliseconds since the epoch ([Z]); an invalid date is [None].
      The local time zone is a constant offset [tz] in milliseconds
      (local time = UTC time + tz).
    - Randomness ([Math.random]) and the clock ([new Date()]) are inputs
      of the embedding (record [Env]). *)

From Stdlib Require Import String Ascii ZArith List Bool Lia.
Import ListNotations.
Open Scope string_scope.
Open Scope Z_scope.

(* ------------------------------------------------------------------ *)
(** ** JavaScript string primitives (Latin-1 code units) *)

Module JS.

(** [WhiteSpace] and [LineTerminator] code units below 256:
    TAB, LF, VT, FF, CR, SPACE, NO-BREAK SPACE. *)
Definition is_ws (c : ascii) : bool :=
  match nat_of_ascii c with
  | 9 | 10 | 11 | 12 | 13 | 32 | 160 => true
  | _ => false
  end%nat.

Fixpoint trim_start (s : string) : string :=
  match s with
  | EmptyString => EmptyString
  | String c r => if is_ws c then trim_start r else s
  end.

(** [String.prototype.trimEnd], written on the reversed string. *)
Fixpoint rev_str (s : string) : string :=
  match s with
  | EmptyString => EmptyString
  | String c r => rev_str r ++ String c EmptyString
  end.

Definition trim (s : string) : string :=
  rev_str (trim_start (rev_str (trim_start s))).

(** [String.prototype.toLowerCase] on one Latin-1 code unit:
    A-Z and U+00C0..U+00DE except U+00D7 move up by 0x20. *)
Definition lower_char (c : ascii) : ascii :=
  let n := nat_of_ascii c in
  if ((65 <=? n) && (n <=? 90))%nat
     || ((192 <=? n) && (n <=? 222) && negb (n =? 215))%nat
  then ascii_of_nat (n + 32) else c.

Fixpoint toLowerCase (s : string) : string :=
  match s with
  | EmptyString => EmptyString
  | String c r => String (lower_char c) (toLowerCase r)
  end.

(** [String.prototype.includes]: some suffix starts with the key. *)
Fixpoint includes (s k : string) : bool :=
  prefix k s || match s with
                | EmptyString => false
                | String _ r => includes r k
                end.

(** JavaScript truthiness of an optional string ([undefined] = [None]). *)
Definition truthy_str (o : option string) : bool :=
  match o with
  | Some (String _ _) => true
  | _ => false
  end.

(** [o || d] on an optional string. *)
Definition or_str (o : option string) (d : string) : string :=
  match o with
  | Some (String _ _ as s) => s
  | _ => d
  end.

End JS.

(* ------------------------------------------------------------------ *)
(** ** Enumerations of src/types.ts *)

Inductive ProgramType := Orquesta | Coro | Coro_Infantil | Coro_Juvenil | General.
Inductive ActivityStatus := active | postponed | suspended.

(** [validateProgram] (dataService.ts, lines 35-42). *)
Definition validateProgram (val : option string) : ProgramType :=
  let v := JS.toLowerCase (JS.or_str val "") in
  if JS.includes v "orq" then Orquesta
  else if JS.includes v "coro inf" then Coro_Infantil
  else if JS.includes v "coro juv" then Coro_Juvenil
  else if JS.includes v "coro" then Coro
  else General.

(** [validateStatus] (dataService.ts, lines 44-49). *)
Definition validateStatus (val : option string) : ActivityStatus :=
  let v := JS.toLowerCase (JS.or_str val "") in
  if JS.includes v "post" then postponed
  else if JS.includes v "susp" then suspended
  else active.

(* ------------------------------------------------------------------ *)
(** ** [ImportService.parseCSVLine] (dataService.ts, lines 238-256) *)

Definition dquote : ascii := "034"%char.

(** The scanning loop: [inq] is [inQuotes], [cur] is [current] and [acc]
    holds the fields pushed so far, most recent first. *)
Fixpoint scan (d : ascii) (l : string) (inq : bool) (cur : string)
    (acc : list string) : list string :=
  match l with
  | EmptyString => rev (JS.trim cur :: acc)
  | String c rest =>
      if Ascii.eqb c dquote then
        match rest with
        | String c2 rest' =>
            if inq && Ascii.eqb c2 dquote
            then scan d rest' inq (cur ++ String dquote EmptyString) acc
            else scan d rest (negb inq) cur acc
        | EmptyString => scan d rest (negb inq) cur acc
        end
      else if Ascii.eqb c d && negb inq
      then scan d rest inq EmptyString (JS.trim cur :: acc)
      else scan d rest inq (cur ++ String c EmptyString) acc
  end.

Definition parseCSVLine (line : string) (d : ascii) : list string :=
  scan d line false EmptyString [].

(* ------------------------------------------------------------------ *)
(** ** CSV quoting of [ExportService.toCSV] (dataService.ts, lines 83-91) *)

(** [s.replace(/dquote/g, dquote dquote)]: every double quote doubled. *)
Fixpoint escape_quotes (s : string) : string :=
  match s with
  | EmptyString => EmptyString
  | String c r =>
      if Ascii.eqb c dquote then String dquote (String dquote (escape_quotes r))
      else String c (escape_quotes r)
  end.

(** The template literal of toCSV: the escaped text between double quotes. *)
Definition quote_field (s : string) : string :=
  String dquote (escape_quotes s ++ String dquote EmptyString).

(** [Array.prototype.join]. *)
Fixpoint join (sep : string) (l : list string) : string :=
  match l with
  | [] => EmptyString
  | [x] => x
  | x :: r => x ++ sep ++ join sep r
  end.

(** A cell of a row as [toCSV] writes it: quoted or emitted as it is. *)
Inductive cell := Quoted (s : string) | Raw (s : string).

Definition encode_cell (c : cell) : string :=
  match c with Quoted s => quote_field s | Raw s => s end.

Definition cell_text (c : cell) : string :=
  match c with Quoted s | Raw s => s end.

(** A raw cell survives the tokenizer when it holds neither a quote nor
    the delimiter. *)
Fixpoint raw_safe (d : ascii) (s : string) : bool :=
  match s with
  | EmptyString => true
  | String c r => negb (Ascii.eqb c dquote) && negb (Ascii.eqb c d) && raw_safe d r
  end.

Definition cell_safe (d : ascii) (c : cell) : bool :=
  match c with Quoted _ => true | Raw s => raw_safe d s end.

(* ------------------------------------------------------------------ *)
(** ** Decimal text *)

Definition digit_char (n : Z) : ascii := ascii_of_nat (48 + Z.to_nat n).

Fixpoint dec_aux (fuel : nat) (n : Z) (acc : string) : string :=
  match fuel with
  | O => acc
  | S f =>
      let acc' := String (digit_char (n mod 10)) acc in
      if n / 10 =? 0 then acc' else dec_aux f (n / 10) acc'
  end.

(** [Number.prototype.toString()] on an integer. *)
Definition z_to_dec (n : Z) : string :=
  let m := Z.abs n in
  let s := dec_aux (S (Z.to_nat (Z.log2 m))) m EmptyString in
  if n <? 0 then String "-" s else s.

(** [String.prototype.padStart(k, '0')]. *)
Definition pad_zeros (k : nat) (s : string) : string :=
  (fix zeros (n : nat) : string :=
     match n with O => EmptyString | S n' => String "0" (zeros n') end)
    (k - String.length s)%nat ++ s.

(* ------------------------------------------------------------------ *)
(** ** Time values and the proleptic Gregorian calendar (ECMA-262, 21.4.1) *)

Definition msPerDay : Z := 86400000.

(** Day number of a civil date (month 1..12, any day of month). *)
Definition days_from_civil (y m d : Z) : Z :=
  let y' := if m <=? 2 then y - 1 else y in
  let era := y' / 400 in
  let yoe := y' - era * 400 in
  let mp := if m >? 2 then m - 3 else m + 9 in
  let doy := (153 * mp + 2) / 5 + d - 1 in
  let doe := yoe * 365 + yoe / 4 - yoe / 100 + doy in
  era * 146097 + doe - 719468.

(** Civil date (year, month 1..12, day) of a day number. *)
Definition civil_from_days (z : Z) : Z * Z * Z :=
  let z' := z + 719468 in
  let era := z' / 146097 in
  let doe := z' - era * 146097 in
  let yoe := (doe - doe / 1460 + doe / 36524 - doe / 146096) / 365 in
  let doy := doe - (365 * yoe + yoe / 4 - yoe / 100) in
  let mp := (5 * doy + 2) / 153 in
  let d := doy - (153 * mp + 2) / 5 + 1 in
  let m := if mp <? 10 then mp + 3 else mp - 9 in
  let y := yoe + era * 400 + (if m <=? 2 then 1 else 0) in
  (y, m, d).

(** [MakeDay(year, month, date)] with a 0-based month. *)
Definition make_day (y m0 d : Z) : Z :=
  days_from_civil (y + m0 / 12) (m0 mod 12 + 1) 1 + d - 1.

(** [TimeClip]: time values beyond 8.64e15 ms are invalid. *)
Definition time_clip (t : Z) : option Z :=
  if Z.abs t <=? 8640000000000000 then Some t else None.

(** A JavaScript environment: the local offset, the engine's parser behind
    [new Date(string)], the current date as [format(new Date(), 'yyyy-MM-dd')]
    prints it, and the identifiers [Math.random().toString(36).substr(2, 9)]
    draws, indexed by the position of the record they are drawn for, and
    the current instant as [new Date().toISOString()] prints it. *)
Record Env := {
  tz : Z;
  date_parse : string -> option Z;
  today : string;
  gen_id : nat -> string;
  now_iso : string
}.

Section Dates.

Variable env : Env.

(** [new Date(year, month, day)] in local time (ECMA-262 21.4.2.1): years
    0..99 denote 1900..1999; a NaN argument gives an invalid date. *)
Definition new_date_local (year month day : option Z) : option Z :=
  match year, month, day with
  | Some y, Some m, Some d =>
      let y' := if (0 <=? y) && (y <=? 99) then 1900 + y else y in
      time_clip (make_day y' m d * msPerDay - tz env)
  | _, _, _ => None
  end.

(** Local calendar fields of a valid time value: [getFullYear()],
    [getMonth() + 1], [getDate()]. *)
Definition local_civil (t : Z) : Z * Z * Z :=
  civil_from_days ((t + tz env) / msPerDay).

Definition getFullYear (t : Z) : Z := fst (fst (local_civil t)).
Definition getMonth (t : Z) : Z := snd (fst (local_civil t)) - 1.
Definition getDate (t : Z) : Z := snd (local_civil t).

(** date-fns [format(t, 'yyyy-MM-dd')]: years below 1 print as 1 - y. *)
Definition format_ymd (t : Z) : string :=
  let '(y, m, d) := local_civil t in
  let y' := if y >? 0 then y else 1 - y in
  pad_zeros 4 (z_to_dec y') ++ "-" ++ pad_zeros 2 (z_to_dec m) ++ "-"
    ++ pad_zeros 2 (z_to_dec d).

End Dates.

(* ------------------------------------------------------------------ *)
(** ** Number conversions and splitting *)

Definition is_digit (c : ascii) : bool :=
  ((48 <=? nat_of_ascii c) && (nat_of_ascii c <=? 57))%nat.

Definition digit_val (c : ascii) : Z := Z.of_nat (nat_of_ascii c) - 48.

(** The longest prefix of decimal digits, as a number and its remainder. *)
Fixpoint digits_prefix (s : string) (acc : option Z) : option Z * string :=
  match s with
  | String c r =>
      if is_digit c
      then digits_prefix r (Some (match acc with Some n => n | None => 0 end * 10 + digit_val c))
      else (acc, s)
  | EmptyString => (acc, s)
  end.

(** [parseInt(s, 10)]: leading white space, an optional sign, then the
    longest run of decimal digits; [None] is NaN. *)
Definition parseInt10 (s : string) : option Z :=
  match JS.trim_start s with
  | String "-" r => option_map Z.opp (fst (digits_prefix r None))
  | String "+" r => fst (digits_prefix r None)
  | r => fst (digits_prefix r None)
  end.

(** [String.prototype.split] on a single-character pattern class. *)
Fixpoint split_on (sep : ascii -> bool) (s : string) : list string :=
  match s with
  | EmptyString => [EmptyString]
  | String c r =>
      if sep c then EmptyString :: split_on sep r
      else match split_on sep r with
           | x :: xs => String c x :: xs
           | [] => [String c EmptyString]
           end
  end.

(** The class [/[\/\-\.]/]. *)
Definition date_sep (c : ascii) : bool :=
  Ascii.eqb c "/" || Ascii.eqb c "-" || Ascii.eqb c ".".

(* ------------------------------------------------------------------ *)
(** ** [ImportService.parseFlexibleDate] (dataService.ts, lines 258-307) *)

(** Steps 2 and Case A/B: the (year, month, day) chosen from the three
    integer parts, or [None] when no part exceeds 1000. *)
Definition resolve_parts (p0 p1 p2 : Z) : option (Z * Z * Z) :=
  if p0 >? 1000 then Some (p0, p1, p2)
  else if p2 >? 1000 then
    if p0 >? 12 then Some (p2, p1, p0)
    else if p1 >? 12 then Some (p2, p0, p1)
    else Some (p2, p1, p0)
  else None.

Section ParseDate.

Variable env : Env.

(** The manual path: split, [parseInt], resolve, rebuild the local date
    and keep it only when its fields round-trip. *)
Definition parse_manual (clean : string) : option Z :=
  match map parseInt10 (split_on date_sep clean) with
  | [Some p0; Some p1; Some p2] =>
      match resolve_parts p0 p1 p2 with
      | Some (year, month, day) =>
          match new_date_local env (Some year) (Some (month - 1)) (Some day) with
          | Some t =>
              if (getFullYear env t =? year) && (getMonth env t =? month - 1)
                 && (getDate env t =? day)
              then Some t else None
          | None => None
          end
      | None => None
      end
  | _ => None
  end.

Definition parseFlexibleDate (input : option string) : option Z :=
  match input with
  | None | Some EmptyString => None
  | Some s =>
      let clean := JS.trim s in
      match clean with
      | EmptyString => None
      | _ =>
          match date_parse env clean with
          | Some t => if getFullYear env t >? 1000 then Some t else parse_manual clean
          | None => parse_manual clean
          end
      end
  end.

End ParseDate.

(** The V8 engine behind [new Date(string)], for two shapes of input only
    (every other string is taken as unparsed, which is not claimed to be
    V8's behaviour):
    - the ISO date [YYYY-MM-DD], read as UTC midnight;
    - the legacy numeric form [A/B/C] (V8 dateparser.cc, DayComposer):
      month/day/year unless [A] is not a day number (1..31), in which case
      year/month/day; years 0..49 and 50..99 become 20xx and 19xx; the
      month must lie in 1..12 and the day in 1..31, and a day beyond the
      end of the month rolls over (MakeDay); read as local midnight. *)
Definition all_digits (s : string) : bool :=
  match s with
  | EmptyString => false
  | _ => (fix go (s : string) : bool :=
            match s with EmptyString => true | String c r => is_digit c && go r end) s
  end.

Definition v8_date_parse_partial (tzo : Z) (s : string) : option Z :=
  let dig_val (x : string) := fst (digits_prefix x None) in
  match split_on (fun c => Ascii.eqb c "-") s, split_on (fun c => Ascii.eqb c "/") s with
  | [ys; ms; ds], _ =>
      if (String.length ys =? 4)%nat && (String.length ms =? 2)%nat
         && (String.length ds =? 2)%nat
         && all_digits ys && all_digits ms && all_digits ds then
        match dig_val ys, dig_val ms, dig_val ds with
        | Some y, Some m, Some d =>
            if (1 <=? m) && (m <=? 12) && (1 <=? d) && (d <=? 31)
            then time_clip (make_day y (m - 1) d * msPerDay) else None
        | _, _, _ => None
        end
      else None
  | _, [a; b; c] =>
      if all_digits a && all_digits b && all_digits c then
        match dig_val a, dig_val b, dig_val c with
        | Some x0, Some x1, Some x2 =>
            let is_day (v : Z) := (1 <=? v) && (v <=? 31) in
            let '(y, m, d) := if is_day x0 then (x2, x0, x1) else (x0, x1, x2) in
            let y := if (0 <=? y) && (y <=? 49) then 2000 + y
                     else if (50 <=? y) && (y <=? 99) then 1900 + y else y in
            if (1 <=? m) && (m <=? 12) && is_day d
            then time_clip (make_day y (m - 1) d * msPerDay - tzo) else None
        | _, _, _ => None
        end
      else None
  | _, _ => None
  end.

(** A browser running V8 at local offset [tzo], with fixed clock and
    identifiers. *)
Definition v8_env (tzo : Z) : Env :=
  {| tz := tzo; date_parse := v8_date_parse_partial tzo;
     today := "2026-01-01"; gen_id := fun n => "id" ++ z_to_dec (Z.of_nat n);
     now_iso := "2026-01-01T12:00:00.000Z" |}.

(* ------------------------------------------------------------------ *)
(** ** Records of src/types.ts and the import result *)

(** A one-unit string holding the Latin-1 code unit [n]. *)
Definition lat (n : nat) : string := String (ascii_of_nat n) EmptyString.

(** [ActivityRange]; optional fields are [option]s ([undefined] = [None]). *)
Record Activity := {
  act_id : string;
  act_title : string;
  act_startDate : string;
  act_endDate : string;
  act_color : string;
  act_program : ProgramType;
  act_categoryId : option string;
  act_description : option string;
  act_status : option ActivityStatus;
  act_rescheduledToId : option string;
  act_originalActivityId : option string;
  act_completed : option bool
}.

(** [ImportResult], over the type of its [data] payload. *)
Record ImportResult (D : Type) := {
  success : bool;
  message : string;
  data : option D;
  warnings : option (list string);
  errors : option (list string)
}.
Arguments success {D}.
Arguments message {D}.
Arguments data {D}.
Arguments warnings {D}.
Arguments errors {D}.

Definition failure {D : Type} (msg : string) : ImportResult D :=
  {| success := false; message := msg; data := None; warnings := None; errors := None |}.

(* ------------------------------------------------------------------ *)
(** ** [ImportService.fromCSV] (dataService.ts, lines 160-236) *)

(** [content.trim().split(/\r?\n/)]: split at LF, dropping one CR before
    each LF. *)
Definition drop_trailing_cr (s : string) : string :=
  match JS.rev_str s with
  | String "013" r => JS.rev_str r
  | _ => s
  end.

Fixpoint split_lines_aux (l : list string) : list string :=
  match l with
  | [] => []
  | [x] => [x]
  | x :: r => drop_trailing_cr x :: split_lines_aux r
  end.

Definition split_lines (s : string) : list string :=
  split_lines_aux (split_on (fun c => Ascii.eqb c "010") s).

Definition is_blank (s : string) : bool :=
  match JS.trim s with EmptyString => true | _ => false end.

Definition str_eqb (a b : string) : bool := String.eqb a b.

(** [Array.prototype.findIndex]: -1 when no element satisfies [p]. *)
Fixpoint findIndex {A} (p : A -> bool) (l : list A) : Z :=
  match l with
  | [] => -1
  | x :: r => if p x then 0 else
                let k := findIndex p r in if k =? -1 then -1 else k + 1
  end.

(** [row[i]] with [undefined] for a missing index. *)
Definition at_index (row : list string) (i : Z) : option string :=
  if i <? 0 then None else nth_error row (Z.to_nat i).

Record ColumnIdx := {
  ix_title : Z; ix_start : Z; ix_end : Z; ix_prog : Z; ix_cat : Z; ix_desc : Z
}.

Definition column_idx (headers : list string) : ColumnIdx :=
  {| ix_title := findIndex (fun h => JS.includes h "tit" || str_eqb h "evento"
                                      || JS.includes h "actividad") headers;
     ix_start := findIndex (fun h => JS.includes h "start" || JS.includes h "ini"
                                      || str_eqb h "desde" || JS.includes h "fecha") headers;
     ix_end := findIndex (fun h => JS.includes h "end" || JS.includes h "fin"
                                    || str_eqb h "hasta") headers;
     ix_prog := findIndex (fun h => JS.includes h "prog") headers;
     ix_cat := findIndex (fun h => JS.includes h "cat") headers;
     ix_desc := findIndex (fun h => JS.includes h "desc" || str_eqb h "notas"
                                     || JS.includes h "detall") headers |}.

(** The three arrays the loop pushes to. *)
Record CsvAcc := {
  acc_activities : list Activity;
  acc_errors : list string;
  acc_warnings : list string
}.

Definition push_warning (st : CsvAcc) (w : string) : CsvAcc :=
  {| acc_activities := acc_activities st; acc_errors := acc_errors st;
     acc_warnings := acc_warnings st ++ [w] |}.

Definition push_error (st : CsvAcc) (e : string) : CsvAcc :=
  {| acc_activities := acc_activities st; acc_errors := acc_errors st ++ [e];
     acc_warnings := acc_warnings st |}.

Definition push_activity (st : CsvAcc) (a : Activity) : CsvAcc :=
  {| acc_activities := acc_activities st ++ [a]; acc_errors := acc_errors st;
     acc_warnings := acc_warnings st |}.

Definition row_label (i : nat) : string := "Fila " ++ z_to_dec (Z.of_nat i + 1).

Definition msg_missing_title (i : nat) : string :=
  row_label i ++ " ignorada: Falta t" ++ lat 237 ++ "tulo.".

Definition msg_bad_start (i : nat) (title : string) (raw : option string) : string :=
  row_label i ++ " (" ++ String dquote (title ++ String dquote EmptyString)
  ++ ") ignorada: Formato de fecha de inicio inv" ++ lat 225 ++ "lido ("
  ++ match raw with Some r => r | None => "undefined" end ++ ").".

Definition msg_clamped (i : nat) : string :=
  row_label i ++ ": La fecha de fin era anterior al inicio. Se ajust" ++ lat 243
  ++ " a la misma fecha.".

Definition msg_csv_short : string := "El CSV no contiene suficientes datos.".
Definition msg_csv_columns : string :=
  "No se encontraron las columnas cr" ++ lat 237 ++ "ticas (T" ++ lat 237
  ++ "tulo y Fecha Inicio).".
Definition msg_csv_none : string :=
  "No se pudieron procesar actividades v" ++ lat 225 ++ "lidas del CSV.".

Section FromCSV.

Variable env : Env.

(** One iteration of the loop over the data rows (lines 185-222); [i] is
    the index of the line, the header being line 0. *)
Definition csv_row_step (d : ascii) (ix : ColumnIdx) (i : nat) (line : string)
    (st : CsvAcc) : CsvAcc :=
  let row := parseCSVLine line d in
  if (List.length row <? 2)%nat then st else
  let title := JS.or_str (at_index row (ix_title ix)) EmptyString in
  match title with
  | EmptyString => push_warning st (msg_missing_title i)
  | _ =>
      match parseFlexibleDate env (at_index row (ix_start ix)) with
      | None => push_error st (msg_bad_start i title (at_index row (ix_start ix)))
      | Some startDt =>
          let endDt0 := if ix_end ix =? -1 then Some startDt
                        else parseFlexibleDate env (at_index row (ix_end ix)) in
          let endDt := match endDt0 with Some e => e | None => startDt end in
          let '(endDt, st) :=
            if startDt >? endDt then (startDt, push_warning st (msg_clamped i))
            else (endDt, st) in
          push_activity st
            {| act_id := gen_id env i;
               act_title := JS.trim title;
               act_startDate := format_ymd env startDt;
               act_endDate := format_ymd env endDt;
               act_program := validateProgram
                                (if ix_prog ix =? -1 then Some EmptyString
                                 else at_index row (ix_prog ix));
               act_categoryId := None;
               act_color := "#3b82f6";
               act_status := Some active;
               act_completed := Some false;
               act_description := if ix_desc ix =? -1 then Some EmptyString
                                  else at_index row (ix_desc ix);
               act_rescheduledToId := None;
               act_originalActivityId := None |}
      end
  end.

Fixpoint csv_rows (d : ascii) (ix : ColumnIdx) (i : nat) (lines : list string)
    (st : CsvAcc) : CsvAcc :=
  match lines with
  | [] => st
  | l :: rest => csv_rows d ix (S i) rest (csv_row_step d ix i l st)
  end.

(** The data payload [{ activities }] of a CSV import. *)
Record CsvData := { csv_activities : list Activity }.

Definition fromCSV (content : string) : ImportResult CsvData :=
  let lines := filter (fun l => negb (is_blank l)) (split_lines (JS.trim content)) in
  match lines with
  | [] | [_] => failure msg_csv_short
  | header :: rows =>
      let d := if JS.includes header ";" then ";"%char else ","%char in
      let headers := map (fun h => JS.trim (JS.toLowerCase h)) (parseCSVLine header d) in
      let ix := column_idx headers in
      if (ix_title ix =? -1) || (ix_start ix =? -1) then
        failure msg_csv_columns
      else
        let st := csv_rows d ix 1 rows
                    {| acc_activities := []; acc_errors := []; acc_warnings := [] |} in
        let n := List.length (acc_activities st) in
        {| success := (0 <? n)%nat;
           message := if (0 <? n)%nat
                      then "CSV procesado: " ++ z_to_dec (Z.of_nat n) ++ " actividades encontradas."
                      else msg_csv_none;
           data := Some {| csv_activities := acc_activities st |};
           errors := Some (acc_errors st);
           warnings := Some (acc_warnings st) |}
  end.

End FromCSV.

(* ------------------------------------------------------------------ *)
(** ** JSON documents: [JSON.stringify(v, null, 2)] and [JSON.parse] *)

(** A parsed JSON value.  A number is kept exactly as [m * 10^e] (the
    rounding to a double is not modelled). *)
#[local] Set Warnings "-register-all".
Inductive json :=
| JNull
| JBool (b : bool)
| JNum (m e : Z)
| JStr (s : string)
| JArr (l : list json)
| JObj (l : list (string * json)).

Definition backslash : ascii := "092"%char.

Definition hex_char (n : nat) : ascii :=
  match String.get n "0123456789abcdef" with Some c => c | None => "0"%char end.

(** QuoteJSONString (ECMA-262 25.5.2.3) on one code unit. *)
Definition json_esc_char (c : ascii) : string :=
  match nat_of_ascii c with
  | 34%nat => String backslash (String dquote EmptyString)
  | 92%nat => String backslash (String backslash EmptyString)
  | 8%nat => String backslash "b"
  | 12%nat => String backslash "f"
  | 10%nat => String backslash "n"
  | 13%nat => String backslash "r"
  | 9%nat => String backslash "t"
  | n => if (n <? 32)%nat
         then String backslash (String "u" (String "0" (String "0"
                (String (hex_char (n / 16)) (String (hex_char (n mod 16)) EmptyString)))))
         else String c EmptyString
  end.

Fixpoint json_esc (s : string) : string :=
  match s with
  | EmptyString => EmptyString
  | String c r => json_esc_char c ++ json_esc r
  end.

Definition json_quote (s : string) : string :=
  String dquote (json_esc s ++ String dquote EmptyString).

Fixpoint spaces (n : nat) : string :=
  match n with O => EmptyString | S k => String " " (spaces k) end.

Definition nl : string := String "010" EmptyString.

(** The indentation of nesting level [k] with a gap of two spaces. *)
Definition indent (k : nat) : string := spaces (2 * k).

(** Number::toString on an integer [m] (exact below 10^21); a non-integer
    [m * 10^e] is printed as [m] [e] [e], which reads back as the same
    value. *)
Definition json_num (m e : Z) : string :=
  if e =? 0 then z_to_dec m else z_to_dec m ++ "e" ++ z_to_dec e.

(** SerializeJSONProperty with gap two spaces, at nesting level [k]. *)
Fixpoint stringify_at (k : nat) (v : json) : string :=
  match v with
  | JNull => "null"
  | JBool true => "true"
  | JBool false => "false"
  | JNum m e => json_num m e
  | JStr s => json_quote s
  | JArr [] => "[]"
  | JArr l =>
      "[" ++ nl ++ indent (S k)
      ++ join ("," ++ nl ++ indent (S k)) (map (stringify_at (S k)) l)
      ++ nl ++ indent k ++ "]"
  | JObj [] => "{}"
  | JObj l =>
      "{" ++ nl ++ indent (S k)
      ++ join ("," ++ nl ++ indent (S k))
           (map (fun kv => json_quote (fst kv) ++ ": " ++ stringify_at (S k) (snd kv)) l)
      ++ nl ++ indent k ++ "}"
  end.

Definition JSON_stringify (v : json) : string := stringify_at 0 v.

(** [JSON.parse]: white space is TAB, LF, CR and SPACE. *)
Definition json_ws (c : ascii) : bool :=
  match nat_of_ascii c with 9%nat | 10%nat | 13%nat | 32%nat => true | _ => false end.

Fixpoint skip_ws (s : string) : string :=
  match s with
  | String c r => if json_ws c then skip_ws r else s
  | EmptyString => EmptyString
  end.

Definition hex_val (c : ascii) : option nat :=
  let n := nat_of_ascii c in
  if ((48 <=? n) && (n <=? 57))%nat then Some (n - 48)%nat
  else if ((97 <=? n) && (n <=? 102))%nat then Some (n - 87)%nat
  else if ((65 <=? n) && (n <=? 70))%nat then Some (n - 55)%nat
  else None.

Definition cons_char (c : ascii) (o : option (string * string)) : option (string * string) :=
  match o with Some (x, r) => Some (String c x, r) | None => None end.

(** The body of a string literal after its opening quote.  A [\u] escape
    beyond U+00FF lies outside the Latin-1 model and is refused. *)
Fixpoint parse_str (s : string) : option (string * string) :=
  match s with
  | EmptyString => None
  | String c r =>
      if Ascii.eqb c dquote then Some (EmptyString, r)
      else if Ascii.eqb c backslash then
        match r with
        | String e r' =>
            match nat_of_ascii e with
            | 34%nat => cons_char dquote (parse_str r')
            | 92%nat => cons_char backslash (parse_str r')
            | 47%nat => cons_char "/" (parse_str r')
            | 98%nat => cons_char "008" (parse_str r')
            | 102%nat => cons_char "012" (parse_str r')
            | 110%nat => cons_char "010" (parse_str r')
            | 114%nat => cons_char "013" (parse_str r')
            | 116%nat => cons_char "009" (parse_str r')
            | 117%nat =>
                match r' with
                | String h1 (String h2 (String h3 (String h4 r''))) =>
                    match hex_val h1, hex_val h2, hex_val h3, hex_val h4 with
                    | Some a1, Some a2, Some a3, Some a4 =>
                        let n := (((a1 * 16 + a2) * 16 + a3) * 16 + a4)%nat in
                        if (n <? 256)%nat then cons_char (ascii_of_nat n) (parse_str r'')
                        else None
                    | _, _, _, _ => None
                    end
                | _ => None
                end
            | _ => None
            end
        | EmptyString => None
        end
      else if (nat_of_ascii c <? 32)%nat then None
      else cons_char c (parse_str r)
  end.

Fixpoint span_digits (s : string) : string * string :=
  match s with
  | String c r =>
      if is_digit c then let '(ds, rest) := span_digits r in (String c ds, rest)
      else (EmptyString, s)
  | EmptyString => (EmptyString, EmptyString)
  end.

Fixpoint fold_digits (ds : string) (k : Z) : Z :=
  match ds with
  | EmptyString => k
  | String c r => fold_digits r (k * 10 + digit_val c)
  end.

(** A number: [-]? int frac? exp?, as an exact [m * 10^e]. *)
Definition parse_num (s : string) : option (json * string) :=
  let '(neg, s1) := match s with String "-" r => (true, r) | _ => (false, s) end in
  let int_part :=
    match s1 with
    | String "0" r => Some (0, r)
    | String c _ =>
        if is_digit c then let '(ds, r) := span_digits s1 in Some (fold_digits ds 0, r)
        else None
    | EmptyString => None
    end in
  match int_part with
  | None => None
  | Some (k, r1) =>
      let frac :=
        match r1 with
        | String "." r =>
            let '(fs, r') := span_digits r in
            match fs with
            | EmptyString => None
            | _ => Some (fold_digits fs k, - Z.of_nat (String.length fs), r')
            end
        | _ => Some (k, 0, r1)
        end in
      match frac with
      | None => None
      | Some (m, e, r2) =>
          let ex :=
            match r2 with
            | String c r =>
                if Ascii.eqb c "e" || Ascii.eqb c "E" then
                  let '(sg, r') := match r with
                                   | String "-" r' => (-1, r')
                                   | String "+" r' => (1, r')
                                   | _ => (1, r)
                                   end in
                  let '(es, r'') := span_digits r' in
                  match es with
                  | EmptyString => None
                  | _ => Some (sg * fold_digits es 0, r'')
                  end
                else Some (0, r2)
            | EmptyString => Some (0, r2)
            end in
          match ex with
          | None => None
          | Some (x, r3) => Some (JNum (if neg then - m else m) (e + x), r3)
          end
      end
  end.

Fixpoint parse_value (fuel : nat) (s : string) {struct fuel} : option (json * string) :=
  match fuel with
  | O => None
  | S f =>
      match skip_ws s with
      | String "n" (String "u" (String "l" (String "l" r))) => Some (JNull, r)
      | String "t" (String "r" (String "u" (String "e" r))) => Some (JBool true, r)
      | String "f" (String "a" (String "l" (String "s" (String "e" r)))) =>
          Some (JBool false, r)
      | String "[" r =>
          match skip_ws r with
          | String "]" r' => Some (JArr [], r')
          | _ => parse_elems f r []
          end
      | String "{" r =>
          match skip_ws r with
          | String "}" r' => Some (JObj [], r')
          | _ => parse_members f r []
          end
      | String "034" r =>
          match parse_str r with Some (x, r') => Some (JStr x, r') | None => None end
      | s' => parse_num s'
      end
  end
with parse_elems (fuel : nat) (s : string) (acc : list json) {struct fuel}
    : option (json * string) :=
  match fuel with
  | O => None
  | S f =>
      match parse_value f s with
      | Some (v, r) =>
          match skip_ws r with
          | String "," r' => parse_elems f r' (v :: acc)
          | String "]" r' => Some (JArr (rev (v :: acc)), r')
          | _ => None
          end
      | None => None
      end
  end
with parse_members (fuel : nat) (s : string) (acc : list (string * json)) {struct fuel}
    : option (json * string) :=
  match fuel with
  | O => None
  | S f =>
      match skip_ws s with
      | String "034" r =>
          match parse_str r with
          | Some (k, r1) =>
              match skip_ws r1 with
              | String ":" r2 =>
                  match parse_value f r2 with
                  | Some (v, r3) =>
                      match skip_ws r3 with
                      | String "," r4 => parse_members f r4 ((k, v) :: acc)
                      | String "}" r4 => Some (JObj (rev ((k, v) :: acc)), r4)
                      | _ => None
                      end
                  | None => None
                  end
              | _ => None
              end
          | None => None
          end
      | _ => None
      end
  end.

(** [JSON.parse(text)]; [None] is the SyntaxError it throws. *)
Definition JSON_parse (s : string) : option json :=
  match parse_value (S (String.length s)) s with
  | Some (v, r) => match skip_ws r with EmptyString => Some v | _ => None end
  | None => None
  end.

(* ------------------------------------------------------------------ *)
(** ** The calendar state (src/types.ts) and [ExportService.toJSON] *)

Record Category := { cat_id : string; cat_name : string; cat_color : string }.

Inductive Shape := circle | square.

Record DayStyle := {
  ds_id : string;
  ds_startDate : string;
  ds_endDate : option string;
  ds_shape : option Shape;
  ds_bgColor : option string;
  ds_icon : option string;
  ds_label : option string;
  ds_isHoliday : option bool;
  ds_categoryId : option string
}.

Inductive NotificationType := n_info | n_warning | n_success | n_ai.

Record NotificationLog := {
  nl_id : string;
  nl_timestamp : Z;
  nl_message : string;
  nl_type : NotificationType;
  nl_relatedActivityIds : option (list string)
}.

(** [month] and [year] are JavaScript numbers; integral ones are modelled. *)
Record MonthOrnament := { mo_month : Z; mo_icon : string }.

Record CalendarConfig := {
  cfg_year : Z;
  cfg_institutionalLogo : option string;
  cfg_institutionName : string;
  cfg_subtitle : string;
  cfg_monthOrnaments : list MonthOrnament
}.

Record CalendarState := {
  st_config : CalendarConfig;
  st_activities : list Activity;
  st_dayStyles : list DayStyle;
  st_categories : list Category;
  st_notifications : list NotificationLog
}.

Definition program_str (p : ProgramType) : string :=
  match p with
  | Orquesta => "Orquesta" | Coro => "Coro" | Coro_Infantil => "Coro Infantil"
  | Coro_Juvenil => "Coro Juvenil" | General => "General"
  end.

Definition status_str (s : ActivityStatus) : string :=
  match s with active => "active" | postponed => "postponed" | suspended => "suspended" end.

Definition shape_str (s : Shape) : string :=
  match s with circle => "circle" | square => "square" end.

(** An optional property: [JSON.stringify] leaves out a property whose
    value is [undefined]. *)
Definition opt_prop {A : Type} (k : string) (f : A -> json) (o : option A)
    : list (string * json) :=
  match o with Some x => [(k, f x)] | None => [] end.

(** The objects of the state as [JSON.stringify] sees them, with their
    properties in the order of the interfaces of src/types.ts. *)
Definition activity_json (a : Activity) : json :=
  JObj ([("id", JStr (act_id a)); ("title", JStr (act_title a));
         ("startDate", JStr (act_startDate a)); ("endDate", JStr (act_endDate a));
         ("color", JStr (act_color a)); ("program", JStr (program_str (act_program a)))]
        ++ opt_prop "categoryId" JStr (act_categoryId a)
        ++ opt_prop "description" JStr (act_description a)
        ++ opt_prop "status" (fun s => JStr (status_str s)) (act_status a)
        ++ opt_prop "rescheduledToId" JStr (act_rescheduledToId a)
        ++ opt_prop "originalActivityId" JStr (act_originalActivityId a)
        ++ opt_prop "completed" JBool (act_completed a)).

Definition category_json (c : Category) : json :=
  JObj [("id", JStr (cat_id c)); ("name", JStr (cat_name c)); ("color", JStr (cat_color c))].

Definition dayStyle_json (d : DayStyle) : json :=
  JObj ([("id", JStr (ds_id d)); ("startDate", JStr (ds_startDate d))]
        ++ opt_prop "endDate" JStr (ds_endDate d)
        ++ opt_prop "shape" (fun s => JStr (shape_str s)) (ds_shape d)
        ++ opt_prop "bgColor" JStr (ds_bgColor d)
        ++ opt_prop "icon" JStr (ds_icon d)
        ++ opt_prop "label" JStr (ds_label d)
        ++ opt_prop "isHoliday" JBool (ds_isHoliday d)
        ++ opt_prop "categoryId" JStr (ds_categoryId d)).

Definition ornament_json (o : MonthOrnament) : json :=
  JObj [("month", JNum (mo_month o) 0); ("icon", JStr (mo_icon o))].

Definition config_json (c : CalendarConfig) : json :=
  JObj [("year", JNum (cfg_year c) 0);
        ("institutionalLogo", match cfg_institutionalLogo c with Some s => JStr s | None => JNull end);
        ("institutionName", JStr (cfg_institutionName c));
        ("subtitle", JStr (cfg_subtitle c));
        ("monthOrnaments", JArr (map ornament_json (cfg_monthOrnaments c)))].

(** The [backup] object of [toJSON] (dataService.ts, lines 57-67). *)
Definition backup_json (env : Env) (state : CalendarState) : json :=
  JObj [("version", JStr "1.5.1");
        ("application", JStr ("Sinfon" ++ lat 237 ++ "a Calendar Core"));
        ("exportDate", JStr (now_iso env));
        ("data", JObj [("config", config_json (st_config state));
                       ("categories", JArr (map category_json (st_categories state)));
                       ("activities", JArr (map activity_json (st_activities state)));
                       ("dayStyles", JArr (map dayStyle_json (st_dayStyles state)))])].

(** [ExportService.toJSON] (dataService.ts, lines 55-73); [JSON.stringify]
    of this value does not throw, so the catch branch is never taken. *)
Definition toJSON (env : Env) (state : CalendarState) : string :=
  JSON_stringify (backup_json env state).

(* ------------------------------------------------------------------ *)
(** ** Property access, truthiness and exceptions over JSON values *)

(** A computation that may throw: [inl] carries the exception message. *)
Definition Throws (A : Type) : Type := (string + A)%type.
Definition ret {A : Type} (x : A) : Throws A := inr x.
Definition throw {A : Type} (msg : string) : Throws A := inl msg.
Definition bind {A B : Type} (m : Throws A) (k : A -> Throws B) : Throws B :=
  match m with inl e => inl e | inr x => k x end.
Notation "'let*' x := m 'in' k" := (bind m (fun x => k))
  (at level 200, x name, m at level 100, k at level 200).

(** The last binding of a key: [JSON.parse] lets a later duplicate win. *)
Fixpoint assoc_last (k : string) (l : list (string * json)) : option json :=
  match l with
  | [] => None
  | (k', v) :: r =>
      match assoc_last k r with
      | Some x => Some x
      | None => if String.eqb k k' then Some v else None
      end
  end.

(** [v.k]: [None] is [undefined]; reading a property of [null] throws. *)
Definition get_prop (v : json) (k : string) : Throws (option json) :=
  match v with
  | JNull => throw ("Cannot read properties of null (reading '" ++ k ++ "')")
  | JObj l => ret (assoc_last k l)
  | _ => ret None
  end.

(** A number literal is falsy when it is zero or rounds to zero as a
    double (below half the least subnormal, 2^-1075). *)
Definition num_truthy (m e : Z) : bool :=
  negb (m =? 0) && (if 0 <=? e then true else 10 ^ (- e) <? Z.abs m * 2 ^ 1075).

Definition truthy (o : option json) : bool :=
  match o with
  | None | Some JNull => false
  | Some (JBool b) => b
  | Some (JNum m e) => num_truthy m e
  | Some (JStr s) => negb (String.eqb s "")
  | Some (JArr _) | Some (JObj _) => true
  end.

(** [o || d]. *)
Definition or_json (o : option json) (d : json) : json :=
  if truthy o then match o with Some v => v | None => d end else d.

(** [validateProgram] and [validateStatus] applied to a property value:
    [(val || '').toLowerCase()] throws on a truthy value that is not a string. *)
Definition validateProgram_js (o : option json) : Throws ProgramType :=
  if truthy o then
    match o with
    | Some (JStr s) => ret (validateProgram (Some s))
    | _ => throw "(val || '').toLowerCase is not a function"
    end
  else ret (validateProgram None).

Definition validateStatus_js (o : option json) : Throws ActivityStatus :=
  if truthy o then
    match o with
    | Some (JStr s) => ret (validateStatus (Some s))
    | _ => throw "(val || '').toLowerCase is not a function"
    end
  else ret (validateStatus None).

(* ------------------------------------------------------------------ *)
(** ** [sanitizeActivity] and [ImportService.fromJSON] *)

(** The object [sanitizeActivity] builds; the fields copied with [||]
    keep whatever JSON value the input held. *)
Record SanActivity := {
  sa_id : json;
  sa_title : json;
  sa_startDate : json;
  sa_endDate : json;
  sa_color : json;
  sa_program : ProgramType;
  sa_categoryId : option json;
  sa_status : ActivityStatus;
  sa_completed : bool;
  sa_description : json
}.

Section FromJSON.
Variable env : Env.

(** [sanitizeActivity] (dataService.ts, lines 19-33) on the [i]-th
    element; the properties are read in the order of the source. *)
Definition sanitizeActivity (i : nat) (a : json) : Throws SanActivity :=
  let* sd := get_prop a "startDate" in
  let startDate := or_json sd (JStr (today env)) in
  let* id := get_prop a "id" in
  let* title := get_prop a "title" in
  let* ed := get_prop a "endDate" in
  let* color := get_prop a "color" in
  let* prog := get_prop a "program" in
  let* program := validateProgram_js prog in
  let* categoryId := get_prop a "categoryId" in
  let* st := get_prop a "status" in
  let* status := validateStatus_js st in
  let* completed := get_prop a "completed" in
  let* description := get_prop a "description" in
  ret {| sa_id := or_json id (JStr (gen_id env i));
         sa_title := or_json title (JStr ("Sin t" ++ lat 237 ++ "tulo"));
         sa_startDate := startDate;
         sa_endDate := or_json ed startDate;
         sa_color := or_json color (JStr "#3b82f6");
         sa_program := program;
         sa_categoryId := categoryId;
         sa_status := status;
         sa_completed := truthy completed;
         sa_description := or_json description (JStr "") |}.

(** [Array.prototype.map] of [sanitizeActivity], from index [i]. *)
Fixpoint sanitize_all (i : nat) (l : list json) : Throws (list SanActivity) :=
  match l with
  | [] => ret []
  | a :: r =>
      let* x := sanitizeActivity i a in
      let* xs := sanitize_all (S i) r in
      ret (x :: xs)
  end.

Record JsonData := {
  jd_config : option json;
  jd_categories : json;
  jd_activities : list SanActivity;
  jd_dayStyles : json
}.

Definition msg_json_error : string := "Error al parsear el archivo JSON.".
Definition msg_json_empty : string :=
  "JSON sin datos de actividades o categor" ++ lat 237 ++ "as v" ++ lat 225 ++ "lidos.".

(** The body of the try block after [JSON.parse]. *)
Definition fromJSON_body (parsed : json) : Throws (ImportResult JsonData) :=
  let* pd := get_prop parsed "data" in
  let data := or_json pd parsed in
  let* acts := get_prop data "activities" in
  let* cats := get_prop data "categories" in
  if negb (truthy acts) && negb (truthy cats) then ret (failure msg_json_empty)
  else
    let* arr := (if truthy acts then
                   match acts with
                   | Some (JArr l) => ret l
                   | _ => throw "(data.activities || []).map is not a function"
                   end
                 else ret []) in
    let* activities := sanitize_all 0 arr in
    let* config := get_prop data "config" in
    let* ds := get_prop data "dayStyles" in
    ret {| success := true;
           message := "JSON procesado: " ++ z_to_dec (Z.of_nat (List.length activities))
                      ++ " actividades encontradas.";
           data := Some {| jd_config := config;
                           jd_categories := or_json cats (JArr []);
                           jd_activities := activities;
                           jd_dayStyles := or_json ds (JArr []) |};
           warnings := None;
           errors := None |}.

(** [ImportService.fromJSON] (dataService.ts, lines 134-158); the catch
    block reports the message of the exception, for a syntax error the
    engine's own text, here [SyntaxError]. *)
Definition fromJSON (content : string) : ImportResult JsonData :=
  let caught msg :=
    {| success := false; message := msg_json_error; data := None;
       warnings := None; errors := Some [msg] |} in
  match JSON_parse content with
  | None => caught "SyntaxError"
  | Some parsed =>
      match fromJSON_body parsed with
      | inl msg => caught msg
      | inr r => r
      end
  end.

End FromJSON.

(** [s || d] on a string. *)
Definition or_s (s d : string) : string := if String.eqb s "" then d else s.

(** What the import makes of the [i]-th exported activity: every field the
    export wrote, with the defaults of [sanitizeActivity] for the empty
    strings and the properties left out. *)
Definition imported_activity (env : Env) (i : nat) (a : Activity) : SanActivity :=
  let sd := or_s (act_startDate a) (today env) in
  {| sa_id := JStr (or_s (act_id a) (gen_id env i));
     sa_title := JStr (or_s (act_title a) ("Sin t" ++ lat 237 ++ "tulo"));
     sa_startDate := JStr sd;
     sa_endDate := JStr (or_s (act_endDate a) sd);
     sa_color := JStr (or_s (act_color a) "#3b82f6");
     sa_program := act_program a;
     sa_categoryId := option_map JStr (act_categoryId a);
     sa_status := match act_status a with Some s => s | None => active end;
     sa_completed := match act_completed a with Some b => b | None => false end;
     sa_description := JStr (match act_description a with Some d => d | None => EmptyString end) |}.

Fixpoint imported_all (env : Env) (i : nat) (l : list Activity) : list SanActivity :=
  match l with
  | [] => []
  | a :: r => imported_activity env i a :: imported_all env (S i) r
  end.

(* ------------------------------------------------------------------ *)
(** ** [ExportService.toCSV] (dataService.ts, lines 75-99) *)

Definition csv_headers : list string :=
  ["id"; "title"; "startDate"; "endDate"; "program"; "categoryId";
   "categoryName"; "status"; "completed"; "description"].

(** [state.categories.find(c => c.id === activity.categoryId)]: an
    [undefined] categoryId equals no string id. *)
Definition find_category (cats : list Category) (cid : option string) : option Category :=
  find (fun c => match cid with Some i => String.eqb (cat_id c) i | None => false end) cats.

(** [category?.name || ''] *)
Definition category_name (cats : list Category) (cid : option string) : string :=
  match find_category cats cid with Some c => cat_name c | None => EmptyString end.

(** One data row (lines 80-92); [activity.title || ''] is the title, a
    string. *)
Definition toCSV_row (cats : list Category) (a : Activity) : string :=
  join ","
    [act_id a;
     quote_field (act_title a);
     act_startDate a;
     act_endDate a;
     program_str (act_program a);
     JS.or_str (act_categoryId a) "";
     quote_field (category_name cats (act_categoryId a));
     match act_status a with Some s => status_str s | None => "active" end;
     if match act_completed a with Some true => true | _ => false end
     then "true" else "false";
     quote_field (JS.or_str (act_description a) "")].

Definition toCSV (state : CalendarState) : string :=
  join (String "010" EmptyString)
    (join "," csv_headers :: map (toCSV_row (st_categories state)) (st_activities state)).

(** The ten cells of a row, quoted or raw as [toCSV] writes them. *)
Definition csv_cells (cats : list Category) (a : Activity) : list cell :=
  [Raw (act_id a);
   Quoted (act_title a);
   Raw (act_startDate a);
   Raw (act_endDate a);
   Raw (program_str (act_program a));
   Raw (JS.or_str (act_categoryId a) "");
   Quoted (category_name cats (act_categoryId a));
   Raw (match act_status a with Some s => status_str s | None => "active" end);
   Raw (if match act_completed a with Some true => true | _ => false end
        then "true" else "false");
   Quoted (JS.or_str (act_description a) "")].

(** The ten field values of the row of an activity. *)
Definition csv_values (cats : list Category) (a : Activity) : list string :=
  map cell_text (csv_cells cats a).

(** An activity used in the examples below. *)
Definition sample_activity (id title cat desc : string) : Activity :=
  {| act_id := id; act_title := title; act_startDate := "2026-03-10";
     act_endDate := "2026-03-12"; act_color := "#3b82f6"; act_program := Coro;
     act_categoryId := Some cat; act_description := Some desc;
     act_status := None; act_rescheduledToId := None;
     act_originalActivityId := None; act_completed := Some true |}.

(** A calendar state of one year holding the given activities. *)
Definition sample_state (year : Z) (acts : list Activity) : CalendarState :=
  {| st_config := {| cfg_year := year; cfg_institutionalLogo := None;
                     cfg_institutionName := "Escuela"; cfg_subtitle := "Agenda";
                     cfg_monthOrnaments := [] |};
     st_activities := acts; st_dayStyles := []; st_categories := []; st_notifications := [] |}.

(** Context of a value inside a printed document: end of text, a comma
    or a line break. *)
Definition value_end (t : string) : Prop :=
  t = EmptyString \/ (exists r, t = String "," r) \/ (exists r, t = String "010" r).

Fixpoint all_digit_chars (s : string) : bool :=
  match s with EmptyString => true | String c r => is_digit c && all_digit_chars r end.

Fixpoint json_ind' (P : json -> Prop)
  (f0 : P JNull) (f1 : forall b, P (JBool b)) (f2 : forall m e, P (JNum m e))
  (f3 : forall s, P (JStr s)) (f4 : forall l, Forall P l -> P (JArr l))
  (f5 : forall l, Forall (fun kv => P (snd kv)) l -> P (JObj l)) (v : json) : P v :=
  match v with
  | JNull => f0
  | JBool b => f1 b
  | JNum m e => f2 m e
  | JStr s => f3 s
  | JArr l =>
      f4 l ((fix go (l : list json) : Forall P l :=
               match l with
               | [] => Forall_nil _
               | x :: r => Forall_cons x (json_ind' P f0 f1 f2 f3 f4 f5 x) (go r)
               end) l)
  | JObj l =>
      f5 l ((fix go (l : list (string * json)) : Forall (fun kv => P (snd kv)) l :=
               match l with
               | [] => Forall_nil _
               | kv :: r =>
                   @Forall_cons _ (fun kv => P (snd kv)) kv r
                     (json_ind' P f0 f1 f2 f3 f4 f5 (snd kv)) (go r)
               end) l)
  end.

Fixpoint json_int (v : json) : bool :=
  match v with
  | JNum _ e => e =? 0
  | JArr l => forallb json_int l
  | JObj l => forallb (fun kv => json_int (snd kv)) l
  | _ => true
  end.

Fixpoint json_size (v : json) : nat :=
  match v with
  | JArr l => S (fold_right (fun x n => S (json_size x + n)%nat) 0%nat l)
  | JObj l => S (fold_right (fun kv n => S (json_size (snd kv) + n)%nat) 0%nat l)
  | _ => 1
  end.

Definition json_rt (v : json) : Prop :=
  forall k fuel t, json_int v = true -> (json_size v <= fuel)%nat -> value_end t ->
  parse_value fuel (stringify_at k v ++ t) = Some (v, t).

(** An activity whose dates print two time values [s <= e]. *)
Definition dates_ordered (env : Env) (a : Activity) : Prop :=
  exists s e, s <= e /\ act_startDate a = format_ymd env s
              /\ act_endDate a = format_ymd env e.

(* ------------------------------------------------------------------ *)
(** ** [getDayStyle] (CalendarCanvas.tsx, lines 139-148) *)

(** [Number(s)] on a string (ECMA-262, StringToNumber) for the decimal
    integer literals: surrounding white space is trimmed, the empty string
    is 0, an optional sign and a run of decimal digits is that integer.
    Every other string is taken as NaN ([None]); JavaScript agrees on
    most of them, but not on fractions, exponents, hexadecimal literals
    and Infinity, which this model leaves out. *)
Definition Number_str (s : string) : option Z :=
  let digits (r : string) :=
    match r with
    | EmptyString => None
    | _ => if all_digit_chars r then Some (fold_digits r 0) else None
    end in
  match JS.trim s with
  | EmptyString => Some 0
  | String "-" r => option_map Z.opp (digits r)
  | String "+" r => digits r
  | r => digits r
  end.

(** [parseSafeDate] (CalendarCanvas.tsx, lines 22-25):
    [dateStr.split('-').map(Number)], destructured into its first three
    parts (a missing part is [undefined], and arithmetic on it is NaN),
    then [new Date(year, month - 1, day)] in local time. *)
Definition parseSafeDate (env : Env) (dateStr : string) : option Z :=
  match map Number_str (split_on (fun c => Ascii.eqb c "-") dateStr) with
  | year :: month :: day :: _ =>
      new_date_local env year (option_map (fun m => m - 1) month) day
  | _ => None
  end.

(** date-fns [isWithinInterval(date, { start, end })] as date-fns 3 and 4
    write it: the two bounds are sorted before the comparison. (date-fns 2
    threw a RangeError on an interval whose end precedes its start.) *)
Definition isWithinInterval (time start en : Z) : bool :=
  (Z.min start en <=? time) && (time <=? Z.max start en).

(** The predicate given to [state.dayStyles.find]: a style without a
    truthy [endDate] compares [startDate] with [format(date, 'yyyy-MM-dd')];
    otherwise both bounds go through [parseSafeDate], an invalid one
    ([isValid] false) fails, and the date is tested with
    [isWithinInterval]. *)
Definition style_matches (env : Env) (date : Z) (s : DayStyle) : bool :=
  match ds_endDate s with
  | Some (String _ _ as e) =>
      match parseSafeDate env (ds_startDate s), parseSafeDate env e with
      | Some start, Some en => isWithinInterval date start en
      | _, _ => false
      end
  | _ => String.eqb (ds_startDate s) (format_ymd env date)
  end.

(** [getDayStyle(date)]: the first style of [state.dayStyles] that
    matches the time value of [date]. *)
Definition getDayStyle (env : Env) (dayStyles : list DayStyle) (date : Z)
    : option DayStyle :=
  find (style_matches env date) dayStyles.

(** The text [yyyy-MM-dd] of a calendar date, as the state stores it. *)
Definition ymd_string (y m d : Z) : string :=
  pad_zeros 4 (z_to_dec y) ++ "-" ++ pad_zeros 2 (z_to_dec m) ++ "-"
    ++ pad_zeros 2 (z_to_dec d).

(** A day style over [startDate, endDate] with no other field set. *)
Definition range_style (id startDate endDate : string) : DayStyle :=
  {| ds_id := id; ds_startDate := startDate; ds_endDate := Some endDate;
     ds_shape := None; ds_bgColor := None; ds_icon := None; ds_label := None;
     ds_isHoliday := None; ds_categoryId := None |}.

(* ------------------------------------------------------------------ *)
(** ** [ImportService.detectFormat] (dataService.ts, lines 127-132) and
    the import of a selected file (CalendarCanvas.tsx, lines 665-681) *)

Inductive FileFormat := fmt_json | fmt_csv | fmt_unknown.

Definition detectFormat (content : string) : FileFormat :=
  let trimmed := JS.trim content in
  if prefix "{" trimmed || prefix "[" trimmed then fmt_json
  else if JS.includes trimmed "," || JS.includes trimmed ";" then fmt_csv
  else fmt_unknown.

(** The payload of the preview: the data of a JSON or of a CSV import. *)
Inductive ImportData := json_data (d : JsonData) | csv_data (d : CsvData).

Definition map_data {A B : Type} (f : A -> B) (r : ImportResult A) : ImportResult B :=
  {| success := success r; message := message r; data := option_map f (data r);
     warnings := warnings r; errors := errors r |}.

(** The [result] that [handleFileSelect] stores in the import preview once
    the file has been read as [content]. *)
Definition handleFileSelect_result (env : Env) (content : string) : ImportResult ImportData :=
  match detectFormat content with
  | fmt_json => map_data json_data (fromJSON env content)
  | fmt_csv => map_data csv_data (fromCSV env content)
  | fmt_unknown =>
      {| success := false; message := "Formato no soportado"; data := None;
         warnings := None; errors := Some ["El contenido debe ser JSON o CSV"] |}
  end.

(* ------------------------------------------------------------------ *)
(** ** Month ornaments of the sidebar (CalendarCanvas.tsx, lines 697-709) *)

(** The ornament list [handleUpdateOrnament] hands to [onUpdateConfig]
    (lines 697-701): the entries of other months, and a new entry for the
    selected month unless the icon chosen is ['None']. *)
Definition handleUpdateOrnament (selectedMonth : Z) (icon : string)
    (monthOrnaments : list MonthOrnament) : list MonthOrnament :=
  let existing := filter (fun o => negb (mo_month o =? selectedMonth)%Z) monthOrnaments in
  if String.eqb icon "None" then existing
  else existing ++ [{| mo_month := selectedMonth; mo_icon := icon |}].

(** [currentOrnament] (line 709): the icon of the first entry of the
    selected month, ['None'] when there is none or its icon is empty. *)
Definition currentOrnament (selectedMonth : Z) (monthOrnaments : list MonthOrnament) : string :=
  match find (fun o => mo_month o =? selectedMonth)%Z monthOrnaments with
  | Some o => if String.eqb (mo_icon o) "" then "None" else mo_icon o
  | None => "None"
  end.

(* ------------------------------------------------------------------ *)
(** ** Activities of the selected month in the sidebar
    (CalendarCanvas.tsx, lines 602-612 and 703-707) *)

(** [new Date(a.startDate + 'T00:00:00')]: [None] is an invalid date. *)
Definition start_time (env : Env) (a : Activity) : option Z :=
  date_parse env (act_startDate a ++ "T00:00:00").

(** The activities [clearMonthActivities] keeps once the deletion is
    confirmed: [d.getMonth() !== selectedMonth], which holds for an
    invalid date ([NaN]). *)
Definition clearMonthActivities (env : Env) (selectedMonth : Z)
    (activities : list Activity) : list Activity :=
  filter (fun a => match start_time env a with
                   | Some d => negb (getMonth env d =? selectedMonth)%Z
                   | None => true
                   end) activities.

(** The list [monthActivities] of the sidebar: a valid start date in the
    selected month, and a title holding the search term, ignoring case. *)
Definition monthActivities (env : Env) (selectedMonth : Z) (searchTerm : string)
    (activities : list Activity) : list Activity :=
  filter (fun a =>
            let matchesSearch :=
              JS.includes (JS.toLowerCase (act_title a)) (JS.toLowerCase searchTerm) in
            match start_time env a with
            | Some d => (getMonth env d =? selectedMonth)%Z && matchesSearch
            | None => false
            end) activities.

(* ------------------------------------------------------------------ *)
(** ** Lengths of the months of the proleptic Gregorian calendar *)

Definition leap_year (y : Z) : bool :=
  ((y mod 4 =? 0) && (negb (y mod 100 =? 0) || (y mod 400 =? 0)))%Z.

Definition month_length (y m : Z) : Z :=
  if (m =? 2)%Z then (if leap_year y then 29 else 28)%Z
  else if ((m =? 4) || (m =? 6) || (m =? 9) || (m =? 11))%Z then 30%Z else 31%Z.

(* ------------------------------------------------------------------ *)
(** ** Activities drawn on the canvas (CalendarCanvas.tsx, lines 41-135) *)

(** date-fns [endOfMonth]: [setFullYear(getFullYear(), getMonth() + 1, 0)]
    keeps the local time of day; [setHours(23, 59, 59, 999)] then sets the
    local time of day of the resulting day (ECMA-262 21.4.4.21, 21.4.4.22). *)
Definition endOfMonth (env : Env) (date : Z) : option Z :=
  let y := getFullYear env date in
  let month := getMonth env date in
  match time_clip (make_day y (month + 1) 0 * msPerDay
                   + (date + tz env) mod msPerDay - tz env) with
  | Some t1 => time_clip ((t1 + tz env) / msPerDay * msPerDay + 86399999 - tz env)
  | None => None
  end.

(** *** The local-time setters of [Date] and the date-fns week helpers the
    canvas grid uses (date-fns 3, whose interval helpers also accept a
    reversed interval). [None] is an invalid date, which every setter
    keeps invalid. *)

Section Weeks.

Variable env : Env.

(** [getDay()]: [WeekDay(LocalTime(t))], 0 for Sunday. *)
Definition getDay (t : Z) : Z := ((t + tz env) / msPerDay + 4) mod 7.

(** [setDate(dt)] on a valid date (ECMA-262 21.4.4.20). *)
Definition setDate (t dt : Z) : option Z :=
  let '(y, m, _) := local_civil env t in
  time_clip (make_day y (m - 1) dt * msPerDay + (t + tz env) mod msPerDay - tz env).

(** [setHours(h)] (ECMA-262 21.4.4.22): the minutes, seconds and
    milliseconds of the local time are kept. *)
Definition setHours (t : option Z) (h : Z) : option Z :=
  match t with
  | Some t =>
      time_clip ((t + tz env) / msPerDay * msPerDay + h * 3600000
                 + (t + tz env) mod 3600000 - tz env)
  | None => None
  end.

(** [setHours(h, min, s, ms)]. *)
Definition setHours4 (t : option Z) (h mi s ms : Z) : option Z :=
  match t with
  | Some t =>
      time_clip ((t + tz env) / msPerDay * msPerDay
                 + (h * 3600000 + mi * 60000 + s * 1000 + ms) - tz env)
  | None => None
  end.

(** date-fns [addDays(date, amount)] and [addWeeks(date, amount)]. *)
Definition addDays (t : option Z) (amount : Z) : option Z :=
  if amount =? 0 then t
  else match t with
       | Some t => setDate t (getDate env t + amount)
       | None => None
       end.

Definition addWeeks (t : option Z) (amount : Z) : option Z := addDays t (amount * 7).

(** date-fns [startOfWeek(date, { weekStartsOn })]. *)
Definition startOfWeek (weekStartsOn : Z) (t : option Z) : option Z :=
  match t with
  | Some t =>
      let day := getDay t in
      let diff := (if day <? weekStartsOn then 7 else 0) + day - weekStartsOn in
      setHours4 (setDate t (getDate env t - diff)) 0 0 0 0
  | None => None
  end.

(** date-fns [endOfWeek(date, { weekStartsOn })]. *)
Definition endOfWeek (weekStartsOn : Z) (t : option Z) : option Z :=
  match t with
  | Some t =>
      let day := getDay t in
      let diff := (if day <? weekStartsOn then -7 else 0) + 6 - (day - weekStartsOn) in
      setHours4 (setDate t (getDate env t + diff)) 23 59 59 999
  | None => None
  end.

(** The [while (+currentDate <= endTime)] loop of [eachDayOfInterval]. It
    runs on [fuel] rounds; the callers give it more rounds than the loop
    makes, since every round moves a whole day forward. *)
Fixpoint each_day_loop (fuel : nat) (currentDate : option Z) (endTime : Z) : list Z :=
  match fuel with
  | O => []
  | S fuel =>
      match currentDate with
      | Some c =>
          if c <=? endTime then
            c :: each_day_loop fuel
                   (setHours4 (setDate c (getDate env c + 1)) 0 0 0 0) endTime
          else []
      | None => []
      end
  end.

(** date-fns [eachDayOfInterval({ start, end })]; an invalid bound makes the
    loop stop at once. *)
Definition eachDayOfInterval (start en : option Z) : list Z :=
  match start, en with
  | Some s, Some e =>
      let reversed := e <? s in
      let endTime := if reversed then s else e in
      match setHours4 (Some (if reversed then e else s)) 0 0 0 0 with
      | Some c =>
          let dates := each_day_loop (Z.to_nat ((endTime - c) / msPerDay + 2)) (Some c) endTime in
          if reversed then rev dates else dates
      | None => []
      end
  | _, _ => []
  end.

(** The loop of [eachWeekOfInterval]: [setHours(0)], push, [addWeeks(1)],
    [setHours(15)]; every round moves a whole week forward. *)
Fixpoint each_week_loop (fuel : nat) (currentDate : option Z) (endTime : Z)
    : list (option Z) :=
  match fuel with
  | O => []
  | S fuel =>
      match currentDate with
      | Some c =>
          if c <=? endTime then
            let c0 := setHours (Some c) 0 in
            c0 :: each_week_loop fuel (setHours (addWeeks c0 1) 15) endTime
          else []
      | None => []
      end
  end.

(** date-fns [eachWeekOfInterval({ start, end }, { weekStartsOn })]. *)
Definition eachWeekOfInterval (weekStartsOn : Z) (start en : option Z) : list (option Z) :=
  let reversed := match start, en with Some s, Some e => e <? s | _, _ => false end in
  let startDateWeek := setHours (startOfWeek weekStartsOn (if reversed then en else start)) 15 in
  let endDateWeek := setHours (startOfWeek weekStartsOn (if reversed then start else en)) 15 in
  match startDateWeek, endDateWeek with
  | Some s, Some e =>
      let dates := each_week_loop (Z.to_nat ((e - s) / (7 * msPerDay) + 2)) (Some s) e in
      if reversed then rev dates else dates
  | _, _ => []
  end.

End Weeks.

(** The first day of the week of date-fns's [es] locale: Monday. *)
Definition es_weekStartsOn : Z := 1.

Module Canvas.

(** [monthStart] and [monthEnd] (lines 41-43); [None] is an invalid date. *)
Definition monthStart (env : Env) (state : CalendarState) (selectedMonth : Z) : option Z :=
  new_date_local env (Some (cfg_year (st_config state))) (Some selectedMonth) (Some 1).

Definition monthEnd (env : Env) (state : CalendarState) (selectedMonth : Z) : option Z :=
  match monthStart env state selectedMonth with
  | Some t => endOfMonth env t
  | None => None
  end.

(** The list the callback of the [useMemo] of [monthActivities] (lines
    129-135) computes from the state and month of the render it runs in: a
    comparison of Date objects compares their time values, and is false on
    an invalid one.  React runs that callback on the first render and again
    only when [state.activities] or [selectedMonth] changes (its
    dependencies); a change of [state.config.year] alone does not rerun it,
    and the canvas keeps drawing the list of the last run. *)
Definition monthActivities (env : Env) (state : CalendarState) (selectedMonth : Z)
    : list Activity :=
  filter (fun a =>
            match parseSafeDate env (act_startDate a), parseSafeDate env (act_endDate a),
                  monthEnd env state selectedMonth, monthStart env state selectedMonth with
            | Some start, Some en, Some me, Some ms => (start <=? me) && (en >=? ms)
            | _, _, _, _ => false
            end) (st_activities state).

(** The weekday header of the grid (line 302). *)
Definition weekday_header : list string :=
  ["DOM"; "LUN"; "MAR"; "MI" ++ lat 201; "JUE"; "VIE"; "S" ++ lat 193 ++ "B"].

(** [weeks] (lines 44-47) and the days of a row (lines 309-310). *)
Definition weeks (env : Env) (state : CalendarState) (selectedMonth : Z) : list (option Z) :=
  eachWeekOfInterval env es_weekStartsOn (monthStart env state selectedMonth)
    (monthEnd env state selectedMonth).

Definition weekDays (env : Env) (weekStart : option Z) : list Z :=
  let weekEnd := endOfWeek env es_weekStartsOn weekStart in
  eachDayOfInterval env weekStart weekEnd.

(** [isCurrentMonth] of a day of the grid (line 316); the other days are
    drawn transparent. *)
Definition isCurrentMonth (env : Env) (state : CalendarState) (selectedMonth : Z) (day : Z)
    : bool :=
  match monthStart env state selectedMonth, monthEnd env state selectedMonth with
  | Some ms, Some me => (day >=? ms) && (day <=? me)
  | _, _ => false
  end.

End Canvas.

(** The fields the CSV import sets on every activity it builds. *)
Definition csv_defaults (a : Activity) : Prop :=
  act_status a = Some active /\ act_categoryId a = None /\
  act_completed a = Some false /\ act_color a = "#3b82f6".

(** A computation of [fromJSON]'s body that ends in a thrown exception. *)
Definition throws {A : Type} (m : Throws A) : Prop :=
  match m with inl _ => True | inr _ => False end.

(** The civil date before [(y, m, d)]. *)
Definition prev_day (y m d : Z) : Z * Z * Z :=
  if 1 <? d then (y, m, d - 1)
  else if 1 <? m then (y, m - 1, month_length y (m - 1))
  else (y - 1, 12, 31).

(* ================================================================== *)
(** * Proofs *)

(** ** Strings *)

Lemma append_empty_r (s : string) : s ++ EmptyString = s.
Proof. induction s as [|c s IH]; simpl; [reflexivity | now rewrite IH]. Qed.

Lemma append_assoc_str (a b c : string) : (a ++ b) ++ c = a ++ (b ++ c).
Proof. induction a as [|x a IH]; simpl; [reflexivity | now rewrite IH]. Qed.

Lemma ascii_eqb_refl (c : ascii) : Ascii.eqb c c = true.
Proof. destruct (Ascii.eqb_spec c c); congruence. Qed.

Lemma ascii_eqb_false (a b : ascii) : a <> b -> Ascii.eqb a b = false.
Proof. intros H; destruct (Ascii.eqb_spec a b); congruence. Qed.

(** ** The tokenizer on quoted and raw cells *)

Section Tokenizer.

Variable d : ascii.
Hypothesis d_not_quote : d <> dquote.

Lemma scan_delim (rest cur : string) (acc : list string) :
  scan d (String d rest) false cur acc = scan d rest false EmptyString (JS.trim cur :: acc).
Proof.
  simpl. rewrite (ascii_eqb_false _ _ d_not_quote), ascii_eqb_refl. reflexivity.
Qed.

Lemma scan_open (rest cur : string) (acc : list string) :
  scan d (String dquote rest) false cur acc = scan d rest true cur acc.
Proof. simpl. rewrite ?ascii_eqb_refl. destruct rest; reflexivity. Qed.

(** Inside quotes, an escaped text followed by the closing quote yields the
    text itself, provided the closing quote is not followed by a quote. *)
Lemma scan_escaped (f tail cur : string) (acc : list string) :
  (forall c r, tail = String c r -> c <> dquote) ->
  scan d (escape_quotes f ++ String dquote tail) true cur acc
  = scan d tail false (cur ++ f) acc.
Proof.
  intros Htail. revert cur.
  induction f as [|a f IH]; intros cur; simpl.
  - rewrite ?ascii_eqb_refl, append_empty_r.
    destruct tail as [|c r]; [reflexivity|].
    rewrite (ascii_eqb_false c dquote (Htail c r eq_refl)). reflexivity.
  - destruct (Ascii.eqb_spec a dquote) as [->|Ha].
    + simpl. rewrite ?ascii_eqb_refl. simpl.
      rewrite IH, append_assoc_str. reflexivity.
    + simpl. rewrite (ascii_eqb_false _ _ Ha). simpl.
      rewrite andb_false_r, IH, append_assoc_str. reflexivity.
Qed.

Lemma scan_raw (r tail cur : string) (acc : list string) :
  raw_safe d r = true ->
  scan d (r ++ tail) false cur acc = scan d tail false (cur ++ r) acc.
Proof.
  revert cur. induction r as [|a r IH]; intros cur Hs; simpl in *.
  - now rewrite append_empty_r.
  - apply andb_prop in Hs as [Hs Hr]. apply andb_prop in Hs as [Hq Hd].
    apply negb_true_iff in Hq, Hd. rewrite Hq, Hd. simpl.
    rewrite IH by exact Hr. now rewrite append_assoc_str.
Qed.

Lemma scan_cell (c : cell) (tail : string) (acc : list string) :
  cell_safe d c = true ->
  (forall x r, tail = String x r -> x <> dquote) ->
  scan d (encode_cell c ++ tail) false EmptyString acc
  = scan d tail false (cell_text c) acc.
Proof.
  intros Hs Ht. destruct c as [s|s]; simpl in Hs; unfold encode_cell, cell_text.
  - unfold quote_field.
    change (String dquote (escape_quotes s ++ String dquote EmptyString) ++ tail)
      with (String dquote ((escape_quotes s ++ String dquote EmptyString) ++ tail)).
    rewrite scan_open, append_assoc_str.
    change (String dquote EmptyString ++ tail) with (String dquote tail).
    apply scan_escaped. exact Ht.
  - now apply scan_raw.
Qed.

Lemma scan_cells (cs : list cell) (c0 : cell) (acc : list string) :
  forallb (cell_safe d) (c0 :: cs) = true ->
  scan d (join (String d EmptyString) (map encode_cell (c0 :: cs))) false EmptyString acc
  = (rev acc ++ map (fun c => JS.trim (cell_text c)) (c0 :: cs))%list.
Proof.
  revert c0 acc. induction cs as [|c1 cs IH]; intros c0 acc Hs; simpl in Hs.
  - rewrite andb_true_r in Hs. simpl.
    rewrite <- (append_empty_r (encode_cell c0)).
    rewrite scan_cell by (auto; discriminate). reflexivity.
  - apply andb_prop in Hs as [H0 Hs].
    change (join (String d EmptyString) (map encode_cell (c0 :: c1 :: cs)))
      with (encode_cell c0 ++ String d EmptyString
            ++ join (String d EmptyString) (map encode_cell (c1 :: cs))).
    rewrite scan_cell by (auto; intros x r E; simpl in E; injection E; intros; subst; auto).
    cbn [String.append]. rewrite scan_delim, IH by exact Hs.
    simpl. rewrite <- app_assoc. reflexivity.
Qed.

Lemma parseCSVLine_cells (cs : list cell) :
  cs <> [] -> forallb (cell_safe d) cs = true ->
  parseCSVLine (join (String d EmptyString) (map encode_cell cs)) d
  = map (fun c => JS.trim (cell_text c)) cs.
Proof.
  intros Hne Hs. destruct cs as [|c0 cs]; [congruence|].
  unfold parseCSVLine. now rewrite scan_cells.
Qed.

End Tokenizer.

(** ** Substring search and lower-casing *)

Lemma prefix_spec (k s : string) : prefix k s = true <-> exists suf, s = k ++ suf.
Proof.
  revert s. induction k as [|a k IH]; intros s.
  - split; [intros _; now exists s | destruct s; reflexivity].
  - destruct s as [|b s]; simpl.
    + split; [discriminate | intros [suf E]; discriminate].
    + destruct (ascii_dec a b) as [<-|Hab].
      * rewrite IH. split; intros [suf E]; exists suf; congruence.
      * split; [discriminate | intros [suf E]; congruence].
Qed.

Lemma includes_spec (s k : string) :
  JS.includes s k = true <-> exists pre suf, s = pre ++ k ++ suf.
Proof.
  induction s as [|c s IH]; cbn [JS.includes]; rewrite orb_true_iff, prefix_spec.
  - split.
    + intros [[suf E]|H]; [now exists EmptyString, suf | discriminate].
    + intros [pre [suf E]]. left. exists suf.
      destruct pre; [exact E | discriminate].
  - rewrite IH. split.
    + intros [[suf E]|[pre [suf E]]].
      * now exists EmptyString, suf.
      * exists (String c pre), suf. simpl. congruence.
    + intros [pre [suf E]]. destruct pre as [|x pre].
      * left. now exists suf.
      * right. exists pre, suf. simpl in E. congruence.
Qed.

Lemma toLowerCase_app (a b : string) :
  JS.toLowerCase (a ++ b) = JS.toLowerCase a ++ JS.toLowerCase b.
Proof. induction a as [|c a IH]; simpl; congruence. Qed.

Lemma toLowerCase_split (s a b : string) :
  JS.toLowerCase s = a ++ b ->
  exists a' b', s = a' ++ b' /\ JS.toLowerCase a' = a /\ JS.toLowerCase b' = b.
Proof.
  revert a. induction s as [|c s IH]; intros a E.
  - destruct a; [|discriminate]. exists EmptyString, EmptyString. simpl in *. auto.
  - destruct a as [|x a].
    + exists EmptyString, (String c s). simpl in *. auto.
    + simpl in E. injection E as Ex E.
      destruct (IH a E) as [a' [b' [-> [Ha Hb]]]].
      exists (String c a'), b'. simpl. subst. auto.
Qed.

(** Case-insensitive containment: some piece of [s] lower-cases to [k]. *)
Definition ci_contains (s k : string) : Prop :=
  exists pre mid suf, s = pre ++ mid ++ suf /\ JS.toLowerCase mid = k.

Lemma includes_lower_ci (s k : string) :
  JS.includes (JS.toLowerCase s) k = true <-> ci_contains s k.
Proof.
  rewrite includes_spec. split.
  - intros [pre [suf E]].
    destruct (toLowerCase_split _ _ _ E) as [p' [r' [-> [Hp Hr]]]].
    destruct (toLowerCase_split _ _ _ Hr) as [m' [s' [-> [Hm Hs]]]].
    exists p', m', s'. auto.
  - intros [pre [mid [suf [-> Hm]]]].
    exists (JS.toLowerCase pre), (JS.toLowerCase suf).
    now rewrite !toLowerCase_app, Hm.
Qed.

Lemma includes_lower_ci_false (s k : string) :
  JS.includes (JS.toLowerCase s) k = false <-> ~ ci_contains s k.
Proof.
  rewrite <- includes_lower_ci. destruct (JS.includes _ _); intuition discriminate.
Qed.

Lemma or_str_some (s : string) : JS.or_str (Some s) EmptyString = s.
Proof. destruct s; reflexivity. Qed.

(** ** The order of dates in CSV-imported activities *)


Lemma push_warning_activities st w : acc_activities (push_warning st w) = acc_activities st.
Proof. reflexivity. Qed.

Lemma csv_row_step_ordered env d ix i line st :
  Forall (dates_ordered env) (acc_activities st) ->
  Forall (dates_ordered env) (acc_activities (csv_row_step env d ix i line st)).
Proof.
  intros H. unfold csv_row_step.
  destruct (List.length (parseCSVLine line d) <? 2)%nat; [exact H|].
  destruct (JS.or_str _ _) as [|c t]; [exact H|].
  destruct (parseFlexibleDate env _) as [s|]; [|exact H].
  set (e0 := if ix_end ix =? -1 then Some s else _).
  destruct (s >? match e0 with Some e => e | None => s end) eqn:Hlt;
    simpl; apply Forall_app; split; auto; constructor; auto.
  - exists s, s. repeat split. lia.
  - exists s, (match e0 with Some e => e | None => s end). repeat split. lia.
Qed.

Lemma csv_rows_ordered env d ix lines : forall i st,
  Forall (dates_ordered env) (acc_activities st) ->
  Forall (dates_ordered env) (acc_activities (csv_rows env d ix i lines st)).
Proof.
  induction lines as [|l rest IH]; intros i st H; simpl; auto.
  apply IH, csv_row_step_ordered, H.
Qed.

Lemma fromCSV_dates_ordered env content r :
  data (fromCSV env content) = Some r ->
  Forall (dates_ordered env) (csv_activities r).
Proof.
  unfold fromCSV.
  destruct (filter _ _) as [|header [|row rows]]; try discriminate.
  destruct (_ || _); [discriminate|].
  cbn [data]. intros E. injection E as <-. cbn [csv_activities].
  apply (csv_rows_ordered env _ _ (row :: rows)). constructor.
Qed.

(** A row whose end date parses before its start date: one warning, and
    the activity ends on its start date. *)
Lemma csv_row_step_clamps env d ix i line st s e :
  (2 <= List.length (parseCSVLine line d))%nat ->
  JS.or_str (at_index (parseCSVLine line d) (ix_title ix)) EmptyString <> EmptyString ->
  parseFlexibleDate env (at_index (parseCSVLine line d) (ix_start ix)) = Some s ->
  ix_end ix <> -1 ->
  parseFlexibleDate env (at_index (parseCSVLine line d) (ix_end ix)) = Some e ->
  e < s ->
  exists a, csv_row_step env d ix i line st
            = push_activity (push_warning st (msg_clamped i)) a
         /\ act_startDate a = format_ymd env s /\ act_endDate a = act_startDate a.
Proof.
  intros Hlen Ht Hs He He' Hlt. unfold csv_row_step.
  replace (List.length (parseCSVLine line d) <? 2)%nat with false
    by (symmetry; apply Nat.ltb_ge; exact Hlen).
  destruct (JS.or_str _ _) as [|c t]; [congruence|].
  rewrite Hs. replace (ix_end ix =? -1) with false by (symmetry; apply Z.eqb_neq; exact He).
  rewrite He'. replace (s >? e) with true by (symmetry; apply Z.gtb_lt; lia).
  eexists. split; [reflexivity|]. simpl. auto.
Qed.

(** ** JSON: [JSON.parse] reads back what [JSON.stringify] printed *)

Lemma digit_cases (c : ascii) : is_digit c = true ->
  c = "0"%char \/ c = "1"%char \/ c = "2"%char \/ c = "3"%char \/ c = "4"%char \/
  c = "5"%char \/ c = "6"%char \/ c = "7"%char \/ c = "8"%char \/ c = "9"%char.
Proof.
  destruct c as [b0 b1 b2 b3 b4 b5 b6 b7].
  destruct b0, b1, b2, b3, b4, b5, b6, b7; vm_compute; intros H;
    first [discriminate H | tauto].
Qed.

Lemma fold_digits_app (a b : string) (k : Z) :
  fold_digits (a ++ b) k = fold_digits b (fold_digits a k).
Proof. revert k; induction a as [|c a IH]; intros k; simpl; auto. Qed.

Lemma digit_char_ok (n : Z) : 0 <= n < 10 ->
  is_digit (digit_char n) = true /\ digit_val (digit_char n) = n.
Proof.
  intros Hn. unfold is_digit, digit_val, digit_char.
  rewrite nat_ascii_embedding by lia.
  split; [apply andb_true_iff; split; apply Nat.leb_le; lia | lia].
Qed.

Lemma dec_aux_S (f : nat) (n : Z) (acc : string) :
  dec_aux (S f) n acc =
  if n / 10 =? 0 then String (digit_char (n mod 10)) acc
  else dec_aux f (n / 10) (String (digit_char (n mod 10)) acc).
Proof. reflexivity. Qed.

Lemma dec_aux_spec (f : nat) : forall n acc, 0 <= n < 10 ^ Z.of_nat (S f) ->
  exists c ds, dec_aux (S f) n acc = String c (ds ++ acc)
    /\ all_digit_chars (String c ds) = true
    /\ fold_digits (String c ds) 0 = n
    /\ (0 < n -> c <> "0"%char).
Proof.
  induction f as [|f IH]; intros n acc Hn.
  - assert (Hn' : 0 <= n < 10) by (cbn in Hn; lia).
    assert (Hq : n / 10 = 0) by (apply Z.div_small; lia).
    assert (Hm : n mod 10 = n) by (apply Z.mod_small; lia).
    destruct (digit_char_ok n Hn') as [D V].
    exists (digit_char n), EmptyString. cbn [dec_aux]. rewrite Hq, Hm.
    cbn [Z.eqb String.append all_digit_chars fold_digits]. rewrite D, V.
    repeat split; try lia.
    intros Hp Heq. rewrite Heq in V. vm_compute in V. lia.
  - assert (Hmod : 0 <= n mod 10 < 10) by (apply Z.mod_pos_bound; lia).
    destruct (digit_char_ok (n mod 10) Hmod) as [D V].
    rewrite dec_aux_S. destruct (Z.eqb_spec (n / 10) 0) as [Hq|Hq].
    + assert (Hm : n mod 10 = n) by (rewrite Z.mod_eq by lia; lia).
      exists (digit_char (n mod 10)), EmptyString.
      cbn [String.append all_digit_chars fold_digits]. rewrite D, V, Hm.
      repeat split; try lia. intros Hp Heq. rewrite Hm in V. rewrite Heq in V.
      vm_compute in V. lia.
    + destruct (IH (n / 10) (String (digit_char (n mod 10)) acc)) as (c & ds & E & A & F & P).
      { split; [apply Z.div_pos; lia|].
        apply Z.div_lt_upper_bound; [lia|].
        rewrite Nat2Z.inj_succ, Z.pow_succ_r in Hn by lia. lia. }
      exists c, (ds ++ String (digit_char (n mod 10)) EmptyString)%string.
      rewrite E, append_assoc_str. split; [reflexivity|].
      split.
      * change (all_digit_chars (String c ds ++ String (digit_char (n mod 10)) EmptyString) = true).
        revert A. generalize (String c ds) as s. clear -D.
        induction s as [|x s IHs]; cbn [String.append all_digit_chars]; intros A.
        -- now rewrite D.
        -- apply andb_true_iff in A as [A1 A2]. now rewrite A1, IHs.
      * split.
        -- change (fold_digits (String c ds ++ String (digit_char (n mod 10)) EmptyString) 0 = n).
           rewrite fold_digits_app, F. cbn [fold_digits]. rewrite V.
           rewrite (Z.div_mod n 10) at 3 by lia. lia.
        -- intros _. apply P. assert (0 <= n / 10) by (apply Z.div_pos; lia). lia.
Qed.

Lemma z_to_dec_spec (m : Z) :
  exists c ds, z_to_dec m = (if m <? 0 then String "-" EmptyString else EmptyString) ++ String c ds
    /\ all_digit_chars (String c ds) = true
    /\ fold_digits (String c ds) 0 = Z.abs m
    /\ (m <> 0 -> c <> "0"%char).
Proof.
  unfold z_to_dec.
  destruct (dec_aux_spec (Z.to_nat (Z.log2 (Z.abs m))) (Z.abs m) EmptyString)
    as (c & ds & E & A & F & P).
  - split; [lia|].
    destruct (Z.eq_dec m 0) as [->|Hm]; [simpl; lia|].
    destruct (Z.log2_spec (Z.abs m)) as [_ H2]; [lia|].
    rewrite Nat2Z.inj_succ, Z2Nat.id by apply Z.log2_nonneg.
    eapply Z.lt_le_trans; [exact H2|].
    apply Z.pow_le_mono_l. split; [lia|lia].
  - exists c, ds. rewrite E, append_empty_r.
    repeat split; auto.
    + destruct (m <? 0); reflexivity.
    + intros Hm. apply P. lia.
Qed.

Lemma span_digits_app (ds t : string) :
  all_digit_chars ds = true ->
  match t with String c _ => is_digit c = false | EmptyString => True end ->
  span_digits (ds ++ t) = (ds, t).
Proof.
  intros A Ht. induction ds as [|c ds IH].
  - destruct t as [|c t]; cbn; [reflexivity|]. now rewrite Ht.
  - cbn [all_digit_chars] in A. apply andb_true_iff in A as [A1 A2].
    cbn [String.append span_digits]. rewrite A1, IH by exact A2. reflexivity.
Qed.

Lemma value_end_not_digit (t : string) : value_end t ->
  match t with String c _ => is_digit c = false | EmptyString => True end.
Proof. intros [->|[[r ->]|[r ->]]]; reflexivity. Qed.

Lemma parse_num_dec (m : Z) (t : string) : value_end t ->
  parse_num (z_to_dec m ++ t) = Some (JNum m 0, t).
Proof.
  intros Ht.
  destruct (z_to_dec_spec m) as (c & ds & E & A & F & P).
  pose proof (span_digits_app _ _ A (value_end_not_digit t Ht)) as Sp.
  rewrite E. assert (Hd : is_digit c = true) by (cbn in A; now destruct (is_digit c)).
  destruct (Z.ltb_spec m 0) as [Hneg|Hpos].
  - assert (Hc : c <> "0"%char) by (apply P; lia).
    unfold parse_num. cbn [String.append].
    destruct (digit_cases c Hd) as [->| [->| [->| [->| [->| [->| [->| [->| [->| ->]]]]]]]]];
      try (exfalso; apply Hc; reflexivity);
      cbn -[span_digits fold_digits]; cbn [String.append] in Sp; rewrite Sp, F;
      rewrite Hd; destruct Ht as [->|[[r ->]|[r ->]]]; cbn; repeat f_equal; lia.
  - unfold parse_num. cbn [String.append].
    destruct (digit_cases c Hd) as [->| [->| [->| [->| [->| [->| [->| [->| [->| ->]]]]]]]]].
    1: { assert (m = 0) by (destruct (Z.eq_dec m 0); [assumption|exfalso; now apply P]).
         subst m. assert (Hds : ds = EmptyString) by (vm_compute in E; now injection E).
         subst ds. destruct Ht as [->|[[r ->]|[r ->]]]; reflexivity. }
    all: cbn -[span_digits fold_digits]; cbn [String.append] in Sp; rewrite Sp, F;
      rewrite Hd; destruct Ht as [->|[[r ->]|[r ->]]]; cbn; repeat f_equal; lia.
Qed.

Lemma parse_str_esc_char (c : ascii) (t : string) :
  parse_str (json_esc_char c ++ t) = cons_char c (parse_str t).
Proof.
  destruct c as [b0 b1 b2 b3 b4 b5 b6 b7].
  destruct b0, b1, b2, b3, b4, b5, b6, b7; reflexivity.
Qed.

Lemma parse_str_esc (s t : string) :
  parse_str (json_esc s ++ String dquote t) = Some (s, t).
Proof.
  induction s as [|c s IH].
  - reflexivity.
  - cbn [json_esc]. rewrite append_assoc_str, parse_str_esc_char, IH. reflexivity.
Qed.

Lemma skip_ws_idem (s : string) : skip_ws (skip_ws s) = skip_ws s.
Proof.
  induction s as [|c s IH]; [reflexivity|].
  cbn [skip_ws]. destruct (json_ws c) eqn:W; [exact IH|].
  cbn [skip_ws]. now rewrite W.
Qed.

Lemma skip_ws_spaces (n : nat) (s : string) : skip_ws (spaces n ++ s) = skip_ws s.
Proof. induction n as [|n IH]; [reflexivity|]. exact IH. Qed.

Lemma skip_ws_nl_indent (n : nat) (s : string) : skip_ws (nl ++ indent n ++ s) = skip_ws s.
Proof. exact (skip_ws_spaces (2 * n) s). Qed.

Lemma skip_ws_head (c : ascii) (s : string) :
  json_ws c = false -> skip_ws (String c s) = String c s.
Proof. intros W. cbn [skip_ws]. now rewrite W. Qed.

Lemma parse_value_skip (fuel : nat) (s : string) :
  parse_value fuel s = parse_value fuel (skip_ws s).
Proof. destruct fuel; [reflexivity|]. cbn [parse_value]. now rewrite skip_ws_idem. Qed.

Lemma digit_head (c : ascii) : is_digit c = true ->
  json_ws c = false /\ c <> "]"%char /\ c <> "}"%char.
Proof.
  intros D.
  destruct (digit_cases c D) as [->|[->|[->|[->|[->|[->|[->|[->|[->| ->]]]]]]]]];
    (split; [reflexivity | split; discriminate]).
Qed.

Ltac fin_head :=
  do 2 eexists; split; [reflexivity|]; split; [reflexivity|]; split; discriminate.

Lemma stringify_head (k : nat) (v : json) : json_int v = true ->
  exists c rest, stringify_at k v = String c rest
    /\ json_ws c = false /\ c <> "]"%char /\ c <> "}"%char.
Proof.
  intros I. destruct v as [|b|m e|s|l|l].
  - fin_head.
  - destruct b; fin_head.
  - cbn [json_int] in I. apply Z.eqb_eq in I; subst e.
    cbn [stringify_at]. unfold json_num. rewrite Z.eqb_refl.
    destruct (z_to_dec_spec m) as (c & ds & E & A & _ & _). rewrite E.
    assert (D : is_digit c = true) by (cbn in A; now destruct (is_digit c)).
    destruct (m <? 0).
    + fin_head.
    + exists c, ds. split; [reflexivity|]. exact (digit_head c D).
  - fin_head.
  - destruct l; fin_head.
  - destruct l; fin_head.
Qed.

Lemma arr_open (f : nat) (r : string) :
  (forall r', skip_ws r <> String "]" r') ->
  match skip_ws r with
  | String "]" r' => Some (JArr [], r')
  | _ => parse_elems f r []
  end = parse_elems f r [].
Proof.
  destruct (skip_ws r) as [|c r'']; intros H; [reflexivity|].
  destruct c as [b0 b1 b2 b3 b4 b5 b6 b7].
  destruct b0, b1, b2, b3, b4, b5, b6, b7; try reflexivity.
  exfalso. exact (H r'' eq_refl).
Qed.

Lemma pv_S_str (f : nat) (r : string) :
  parse_value (S f) (String dquote r) =
  match parse_str r with Some (x, r') => Some (JStr x, r') | None => None end.
Proof. reflexivity. Qed.

Lemma pv_S_arr (f : nat) (r : string) :
  parse_value (S f) (String "[" r) =
  match skip_ws r with
  | String "]" r' => Some (JArr [], r')
  | _ => parse_elems f r []
  end.
Proof. reflexivity. Qed.

Lemma pv_S_obj (f : nat) (r r' : string) :
  skip_ws r = String dquote r' ->
  parse_value (S f) (String "{" r) = parse_members f r [].
Proof. intros H. cbn [parse_value]. rewrite skip_ws_head by reflexivity. now rewrite H. Qed.

Lemma pe_S (f : nat) (s : string) (acc : list json) :
  parse_elems (S f) s acc =
  match parse_value f s with
  | Some (v, r) =>
      match skip_ws r with
      | String "," r' => parse_elems f r' (v :: acc)
      | String "]" r' => Some (JArr (rev (v :: acc)), r')
      | _ => None
      end
  | None => None
  end.
Proof. reflexivity. Qed.

Lemma pm_S_str (f : nat) (s r : string) (acc : list (string * json)) :
  skip_ws s = String dquote r ->
  parse_members (S f) s acc =
  match parse_str r with
  | Some (k, r1) =>
      match skip_ws r1 with
      | String ":" r2 =>
          match parse_value f r2 with
          | Some (v, r3) =>
              match skip_ws r3 with
              | String "," r4 => parse_members f r4 ((k, v) :: acc)
              | String "}" r4 => Some (JObj (rev ((k, v) :: acc)), r4)
              | _ => None
              end
          | None => None
          end
      | _ => None
      end
  | None => None
  end.
Proof. intros H. cbn [parse_members]. now rewrite H. Qed.

Lemma json_quote_app (s x : string) :
  json_quote s ++ x = String dquote (json_esc s ++ String dquote x).
Proof. unfold json_quote. cbn [String.append]. now rewrite append_assoc_str. Qed.

Lemma parse_value_nl_indent (fuel n : nat) (s : string) :
  parse_value fuel (nl ++ indent n ++ s) = parse_value fuel s.
Proof.
  rewrite parse_value_skip, skip_ws_nl_indent. symmetry. apply parse_value_skip.
Qed.

Lemma parse_value_dec (f : nat) (m : Z) (t : string) : value_end t ->
  parse_value (S f) (z_to_dec m ++ t) = Some (JNum m 0, t).
Proof.
  intros Ht. pose proof (parse_num_dec m t Ht) as Hn.
  destruct (z_to_dec_spec m) as (c & ds & E & A & _ & _).
  rewrite E in *. destruct (m <? 0).
  - exact Hn.
  - assert (D : is_digit c = true) by (cbn in A; now destruct (is_digit c)).
    destruct (digit_cases c D) as [->|[->|[->|[->|[->|[->|[->|[->|[->| ->]]]]]]]]];
      exact Hn.
Qed.

Lemma join_cons2 (sep a b : string) (l : list string) :
  join sep (a :: b :: l) = a ++ sep ++ join sep (b :: l).
Proof. reflexivity. Qed.

Lemma parse_elems_ok (k : nat) (l : list json) : Forall json_rt l ->
  forall f acc t, l <> [] -> forallb json_int l = true ->
  (fold_right (fun x n => S (json_size x + n)%nat) 0%nat l <= f)%nat ->
  parse_elems f (nl ++ indent (S k)
                   ++ join ("," ++ nl ++ indent (S k)) (map (stringify_at (S k)) l)
                   ++ nl ++ indent k ++ "]" ++ t) acc
  = Some (JArr (rev acc ++ l), t).
Proof.
  intros HF. induction HF as [|x xs Px Pxs IH]; intros f acc t Hne I Hf; [congruence|].
  destruct f as [|f]; [cbn in Hf; lia|].
  cbn [forallb] in I. apply andb_true_iff in I as [Ix Ixs].
  cbn [fold_right] in Hf.
  rewrite pe_S, parse_value_nl_indent.
  destruct xs as [|y ys].
  - cbn [map join].
    rewrite (Px (S k) f (nl ++ indent k ++ "]" ++ t)); [| exact Ix | lia | right; right; eexists; reflexivity].
    rewrite skip_ws_nl_indent. reflexivity.
  - set (R := nl ++ indent (S k)
                 ++ join ("," ++ nl ++ indent (S k)) (map (stringify_at (S k)) (y :: ys))
                 ++ nl ++ indent k ++ "]" ++ t).
    replace (join ("," ++ nl ++ indent (S k)) (map (stringify_at (S k)) (x :: y :: ys))
               ++ nl ++ indent k ++ "]" ++ t)
      with (stringify_at (S k) x ++ String "," R)
      by (subst R; cbn [map]; rewrite join_cons2, !append_assoc_str; reflexivity).
    rewrite (Px (S k) f _); [| exact Ix | lia | right; left; eexists; reflexivity].
    rewrite skip_ws_head by reflexivity. lazy beta iota.
    subst R. rewrite (IH f (x :: acc) t); [| discriminate | exact Ixs | lia].
    cbn [rev]. now rewrite <- app_assoc.
Qed.

Lemma skip_ws_space (s : string) : skip_ws (String " " s) = skip_ws s.
Proof. reflexivity. Qed.

Lemma parse_members_ok (k : nat) (l : list (string * json)) :
  Forall (fun kv => json_rt (snd kv)) l ->
  forall f acc t, l <> [] -> forallb (fun kv => json_int (snd kv)) l = true ->
  (fold_right (fun kv n => S (json_size (snd kv) + n)%nat) 0%nat l <= f)%nat ->
  parse_members f (nl ++ indent (S k)
                   ++ join ("," ++ nl ++ indent (S k))
                        (map (fun kv => json_quote (fst kv) ++ ": " ++ stringify_at (S k) (snd kv)) l)
                   ++ nl ++ indent k ++ "}" ++ t) acc
  = Some (JObj (rev acc ++ l), t).
Proof.
  intros HF. induction HF as [|[key v] xs Px Pxs IH]; intros f acc t Hne I Hf; [congruence|].
  destruct f as [|f]; [cbn in Hf; lia|].
  cbn [forallb snd] in I. apply andb_true_iff in I as [Iv Ixs].
  cbn [fold_right snd] in Hf. cbn [snd] in Px.
  destruct xs as [|y ys].
  - set (T := nl ++ indent k ++ "}" ++ t).
    rewrite (pm_S_str f _ (json_esc key ++ String dquote (String ":" (String " " (stringify_at (S k) v ++ T))))).
    2: { rewrite skip_ws_nl_indent. cbn [map join fst snd].
         rewrite !append_assoc_str, json_quote_app.
         rewrite skip_ws_head by reflexivity. reflexivity. }
    rewrite parse_str_esc, skip_ws_head by reflexivity. lazy beta iota.
    rewrite parse_value_skip, skip_ws_space, <- parse_value_skip.
    rewrite (Px (S k) f T); [| exact Iv | lia | right; right; eexists; reflexivity].
    subst T. rewrite skip_ws_nl_indent.
    change ("}" ++ t) with (String "}" t).
    rewrite skip_ws_head by reflexivity. lazy beta iota. reflexivity.
  - set (R := nl ++ indent (S k)
                ++ join ("," ++ nl ++ indent (S k))
                     (map (fun kv => json_quote (fst kv) ++ ": " ++ stringify_at (S k) (snd kv)) (y :: ys))
                ++ nl ++ indent k ++ "}" ++ t).
    rewrite (pm_S_str f _ (json_esc key ++ String dquote (String ":" (String " " (stringify_at (S k) v ++ String "," R))))).
    2: { rewrite skip_ws_nl_indent. subst R. cbn [map fst snd].
         rewrite join_cons2, !append_assoc_str, json_quote_app.
         rewrite skip_ws_head by reflexivity. reflexivity. }
    rewrite parse_str_esc, skip_ws_head by reflexivity. lazy beta iota.
    rewrite parse_value_skip, skip_ws_space, <- parse_value_skip.
    rewrite (Px (S k) f _); [| exact Iv | lia | right; left; eexists; reflexivity].
    rewrite skip_ws_head by reflexivity. lazy beta iota.
    subst R. rewrite (IH f ((key, v) :: acc) t); [| discriminate | exact Ixs | lia].
    cbn [rev]. now rewrite <- app_assoc.
Qed.

Lemma join_head (sep a : string) (l : list string) :
  join sep (a :: l) = a ++ match l with [] => EmptyString | _ => sep ++ join sep l end.
Proof. destruct l; [now rewrite append_empty_r | reflexivity]. Qed.

Lemma parse_stringify (v : json) : json_rt v.
Proof.
  induction v as [|b|m e|s|l HL|l HL] using json_ind'; unfold json_rt;
    intros k fuel t I Hf Ht; (destruct fuel as [|f]; [cbn in Hf; lia|]).
  - reflexivity.
  - destruct b; reflexivity.
  - cbn [json_int] in I. apply Z.eqb_eq in I; subst e.
    cbn [stringify_at]. unfold json_num. rewrite Z.eqb_refl.
    now apply parse_value_dec.
  - cbn [stringify_at]. rewrite json_quote_app, pv_S_str, parse_str_esc. reflexivity.
  - destruct l as [|x xs]; [reflexivity|].
    cbn [json_int] in I. cbn [json_size] in Hf.
    cbn [stringify_at]. rewrite !append_assoc_str.
    change ("[" ++ ?X) with (String "[" X).
    rewrite pv_S_arr, arr_open.
    + rewrite (parse_elems_ok k (x :: xs) HL f [] t); [reflexivity | discriminate | exact I | lia].
    + rewrite skip_ws_nl_indent. cbn [map]. rewrite join_head.
      cbn [forallb] in I. apply andb_true_iff in I as [Ix _].
      destruct (stringify_head (S k) x Ix) as (c & rest & E & W & C1 & _).
      rewrite E. cbn [String.append]. rewrite skip_ws_head by exact W.
      intros r' Heq. injection Heq as Hc _. exact (C1 Hc).
  - destruct l as [|[key x] xs]; [reflexivity|].
    cbn [json_int] in I. cbn [json_size] in Hf.
    cbn [stringify_at]. rewrite !append_assoc_str.
    change ("{" ++ ?X) with (String "{" X).
    erewrite pv_S_obj.
    + rewrite (parse_members_ok k ((key, x) :: xs) HL f [] t); [reflexivity | discriminate | exact I | lia].
    + rewrite skip_ws_nl_indent. cbn [map fst snd]. rewrite join_head.
      rewrite !append_assoc_str, json_quote_app.
      rewrite skip_ws_head by reflexivity. reflexivity.
Qed.

Lemma str_length_app (a b : string) : String.length (a ++ b) = (String.length a + String.length b)%nat.
Proof. induction a as [|c a IH]; cbn; [reflexivity | now rewrite IH]. Qed.

Lemma join_size {A : Type} (sep : string) (g : A -> string) (sz : A -> nat) (l : list A) :
  (1 <= String.length sep)%nat -> Forall (fun x => sz x <= String.length (g x))%nat l ->
  (fold_right (fun x n => S (sz x + n)) 0 l <= S (String.length (join sep (map g l))))%nat.
Proof.
  intros Hs HF. induction HF as [|x xs Hx Hxs IH]; cbn [fold_right]; [lia|].
  destruct xs as [|y ys].
  - cbn. lia.
  - cbn [map]. rewrite join_cons2, !str_length_app. cbn [map] in IH. lia.
Qed.

Lemma z_to_dec_length (m : Z) : (1 <= String.length (z_to_dec m))%nat.
Proof.
  destruct (z_to_dec_spec m) as (c & ds & E & _). rewrite E, str_length_app. cbn. lia.
Qed.

Lemma indent_length (n : nat) : String.length (indent n) = (2 * n)%nat.
Proof. unfold indent. induction (2 * n)%nat as [|j IH]; cbn; [reflexivity | now rewrite IH]. Qed.

Lemma json_size_le (v : json) : forall k, (json_size v <= String.length (stringify_at k v))%nat.
Proof.
  induction v as [|b|m e|s|l HL|l HL] using json_ind'; intros k.
  - cbn. lia.
  - destruct b; cbn; lia.
  - cbn [stringify_at json_size]. unfold json_num. pose proof (z_to_dec_length m).
    destruct (e =? 0); [lia|]. rewrite str_length_app. lia.
  - cbn. lia.
  - destruct l as [|x xs]; [cbn; lia|].
    cbn [stringify_at json_size].
    assert (H := join_size ("," ++ nl ++ indent (S k)) (stringify_at (S k)) json_size (x :: xs)).
    rewrite !str_length_app in *. cbn [String.length] in *.
    assert (HF : Forall (fun y => json_size y <= String.length (stringify_at (S k) y))%nat (x :: xs)).
    { eapply Forall_impl; [|exact HL]. intros y Hy. apply Hy. }
    specialize (H ltac:(cbn; lia) HF). lia.
  - destruct l as [|[key x] xs]; [cbn; lia|].
    cbn [stringify_at json_size].
    assert (H := join_size ("," ++ nl ++ indent (S k))
                   (fun kv => json_quote (fst kv) ++ ": " ++ stringify_at (S k) (snd kv))
                   (fun kv => json_size (snd kv)) ((key, x) :: xs)).
    rewrite !str_length_app in *. cbn [String.length] in *.
    assert (HF : Forall (fun kv => json_size (snd kv) <=
                   String.length (json_quote (fst kv) ++ ": " ++ stringify_at (S k) (snd kv)))%nat
                   ((key, x) :: xs)).
    { eapply Forall_impl; [|exact HL]. intros [a y] Hy. cbn [fst snd] in *.
      rewrite !str_length_app. specialize (Hy (S k)). cbn. lia. }
    specialize (H ltac:(cbn; lia) HF). lia.
Qed.

Lemma JSON_parse_stringify (v : json) : json_int v = true ->
  JSON_parse (JSON_stringify v) = Some v.
Proof.
  intros I. unfold JSON_parse, JSON_stringify.
  pose proof (parse_stringify v 0%nat (S (String.length (stringify_at 0 v))) EmptyString I) as P.
  rewrite append_empty_r in P. rewrite P; [reflexivity | | left; reflexivity].
  pose proof (json_size_le v 0%nat). lia.
Qed.

(** ** C1 helpers: the import of an exported state *)

Lemma or_json_str (s d : string) :
  or_json (Some (JStr s)) (JStr d) = JStr (or_s s d).
Proof. unfold or_json, or_s. cbn [truthy]. now destruct (String.eqb s ""). Qed.

Lemma or_s_empty (s : string) : or_s s "" = s.
Proof. unfold or_s. destruct (String.eqb_spec s ""); congruence. Qed.

Lemma validateProgram_js_str (p : ProgramType) :
  validateProgram_js (Some (JStr (program_str p))) = ret p.
Proof. destruct p; reflexivity. Qed.

Lemma validateStatus_js_str (s : ActivityStatus) :
  validateStatus_js (Some (JStr (status_str s))) = ret s.
Proof. destruct s; reflexivity. Qed.

Lemma sanitize_exported (env : Env) (i : nat) (a : Activity) :
  sanitizeActivity env i (activity_json a) = ret (imported_activity env i a).
Proof.
  destruct a as [id title sd ed color prog cat desc st resch orig comp].
  unfold sanitizeActivity, activity_json, imported_activity; cbn [act_id act_title
    act_startDate act_endDate act_color act_program act_categoryId act_description
    act_status act_rescheduledToId act_originalActivityId act_completed].
  destruct cat, desc, st, resch, orig, comp;
    cbn [opt_prop app get_prop assoc_last String.eqb Ascii.eqb Bool.eqb andb bind ret];
    rewrite ?or_json_str, ?validateProgram_js_str, ?validateStatus_js_str;
    cbn [bind ret]; rewrite ?or_json_str, ?or_s_empty; reflexivity.
Qed.

Lemma sanitize_all_exported (env : Env) (l : list Activity) : forall i,
  sanitize_all env i (map activity_json l) = ret (imported_all env i l).
Proof.
  induction l as [|a l IH]; intros i; [reflexivity|].
  cbn [map sanitize_all imported_all]. rewrite sanitize_exported, IH. reflexivity.
Qed.

Lemma forallb_json_int_map {A : Type} (f : A -> json) (l : list A) :
  (forall x, json_int (f x) = true) -> forallb json_int (map f l) = true.
Proof.
  intros H. induction l as [|x l IH]; [reflexivity|]. cbn. now rewrite H, IH.
Qed.

Lemma backup_json_int (env : Env) (state : CalendarState) :
  json_int (backup_json env state) = true.
Proof.
  unfold backup_json, config_json. cbn [json_int forallb snd].
  rewrite !forallb_json_int_map.
  - cbn. now destruct (cfg_institutionalLogo (st_config state)).
  - intros d. destruct d as [? ? [] [] [] [] [] [] []]; reflexivity.
  - intros a. destruct a as [? ? ? ? ? ? [] [] [] [] [] []]; reflexivity.
  - intros c. reflexivity.
  - intros o. reflexivity.
Qed.

Lemma imported_all_length (env : Env) (l : list Activity) : forall i,
  List.length (imported_all env i l) = List.length l.
Proof. induction l as [|a l IH]; intros i; cbn; [reflexivity | now rewrite IH]. Qed.


(** ** Failures of the two importers *)

Lemma fromJSON_body_result (env : Env) (parsed : json) (r : ImportResult JsonData) :
  fromJSON_body env parsed = inr r ->
  r = failure msg_json_empty \/ success r = true.
Proof.
  unfold fromJSON_body, bind, ret, throw.
  destruct (get_prop parsed "data") as [e|pd]; [discriminate|].
  destruct (get_prop (or_json pd parsed) "activities") as [e|acts]; [discriminate|].
  destruct (get_prop (or_json pd parsed) "categories") as [e|cats]; [discriminate|].
  destruct (negb (truthy acts) && negb (truthy cats)).
  { intros H. injection H as <-. now left. }
  destruct (if truthy acts then _ else _) as [e|arr]; [discriminate|].
  destruct (sanitize_all env 0 arr) as [e|acs]; [discriminate|].
  destruct (get_prop (or_json pd parsed) "config") as [e|cfg]; [discriminate|].
  destruct (get_prop (or_json pd parsed) "dayStyles") as [e|ds]; [discriminate|].
  intros H. injection H as <-. now right.
Qed.

Lemma fromJSON_failure (env : Env) (content : string) :
  let r := fromJSON env content in
  success r = false ->
  data r = None /\ warnings r = None
  /\ ((message r = msg_json_error /\ exists e, errors r = Some [e])
      \/ (message r = msg_json_empty /\ errors r = None)).
Proof.
  cbv zeta. unfold fromJSON.
  destruct (JSON_parse content) as [parsed|].
  2: { intros _. cbn. split; [reflexivity|split; [reflexivity|]]. left. eauto. }
  destruct (fromJSON_body env parsed) as [msg|r] eqn:E.
  { intros _. cbn. split; [reflexivity|split; [reflexivity|]]. left. eauto. }
  destruct (fromJSON_body_result env parsed r E) as [->|S]; [|congruence].
  intros _. cbn. split; [reflexivity|split; [reflexivity|]]. right. auto.
Qed.

Lemma fromCSV_failure (env : Env) (content : string) :
  let r := fromCSV env content in
  success r = false ->
  (data r = None /\ warnings r = None /\ errors r = None
   /\ (message r = msg_csv_short \/ message r = msg_csv_columns))
  \/ (data r = Some {| csv_activities := [] |} /\ message r = msg_csv_none
      /\ (exists w e, warnings r = Some w /\ errors r = Some e)).
Proof.
  cbv zeta. unfold fromCSV.
  destruct (filter _ _) as [|header [|row rows]].
  - intros _. left. cbn. auto.
  - intros _. left. cbn. auto.
  - destruct (_ || _).
    + intros _. left. cbn. auto.
    + set (st := csv_rows env _ _ _ _ _). cbn [success data message warnings errors].
      destruct (acc_activities st) as [|a l] eqn:E.
      * intros _. right. split; [reflexivity|]. split; [reflexivity|]. eauto.
      * cbn. discriminate.
Qed.

(** ** Dates of day styles *)

Lemma rev_str_app (a b : string) : JS.rev_str (a ++ b) = JS.rev_str b ++ JS.rev_str a.
Proof.
  induction a as [|c a IH]; cbn [String.append JS.rev_str].
  - now rewrite append_empty_r.
  - now rewrite IH, append_assoc_str.
Qed.

Lemma rev_str_involutive (s : string) : JS.rev_str (JS.rev_str s) = s.
Proof.
  induction s as [|c s IH]; cbn [JS.rev_str]; [reflexivity|].
  rewrite rev_str_app, IH. reflexivity.
Qed.

Lemma all_digit_chars_app (a b : string) :
  all_digit_chars (a ++ b) = all_digit_chars a && all_digit_chars b.
Proof.
  induction a as [|c a IH]; cbn [String.append all_digit_chars]; [reflexivity|].
  now rewrite IH, andb_assoc.
Qed.

Lemma all_digit_chars_rev (s : string) :
  all_digit_chars (JS.rev_str s) = all_digit_chars s.
Proof.
  induction s as [|c s IH]; cbn [JS.rev_str]; [reflexivity|].
  rewrite all_digit_chars_app, IH. cbn [all_digit_chars].
  now rewrite andb_true_r, andb_comm.
Qed.

Lemma digit_not_ws (c : ascii) : is_digit c = true -> JS.is_ws c = false.
Proof.
  intros H. destruct (digit_cases c H) as [->|[->|[->|[->|[->|[->|[->|[->|[->| ->]]]]]]]]];
    reflexivity.
Qed.

Lemma trim_start_digits (s : string) : all_digit_chars s = true -> JS.trim_start s = s.
Proof.
  destruct s as [|c r]; cbn [all_digit_chars JS.trim_start]; [reflexivity|].
  intros H. apply andb_prop in H as [H _]. now rewrite digit_not_ws.
Qed.

Lemma trim_digits (s : string) : all_digit_chars s = true -> JS.trim s = s.
Proof.
  intros H. unfold JS.trim. rewrite (trim_start_digits s H).
  rewrite (trim_start_digits (JS.rev_str s)) by (now rewrite all_digit_chars_rev).
  apply rev_str_involutive.
Qed.

Lemma Number_str_digits (s : string) :
  s <> EmptyString -> all_digit_chars s = true -> Number_str s = Some (fold_digits s 0).
Proof.
  intros Hne H. unfold Number_str. rewrite trim_digits by exact H.
  destruct s as [|c r]; [congruence|].
  assert (Hc : is_digit c = true) by (cbn in H; now destruct (is_digit c)).
  destruct (digit_cases c Hc) as [->|[->|[->|[->|[->|[->|[->|[->|[->| ->]]]]]]]]];
    lazy beta iota zeta; rewrite H; reflexivity.
Qed.

Lemma split_dash_digits (s : string) : all_digit_chars s = true ->
  split_on (fun c => Ascii.eqb c "-") s = [s].
Proof.
  induction s as [|c s IH]; intros H; [reflexivity|].
  cbn [all_digit_chars] in H. apply andb_prop in H as [Hc H].
  cbn [split_on]. rewrite IH by exact H.
  destruct (Ascii.eqb_spec c "-") as [->|_]; [discriminate Hc|reflexivity].
Qed.

Lemma split_dash_app (s r : string) : all_digit_chars s = true ->
  split_on (fun c => Ascii.eqb c "-") (s ++ "-" ++ r)
  = s :: split_on (fun c => Ascii.eqb c "-") r.
Proof.
  induction s as [|c s IH]; intros H; [reflexivity|].
  cbn [all_digit_chars] in H. apply andb_prop in H as [Hc H].
  change (String c s ++ "-" ++ r) with (String c (s ++ "-" ++ r)).
  cbn [split_on]. rewrite IH by exact H.
  destruct (Ascii.eqb_spec c "-") as [->|_]; [discriminate Hc|reflexivity].
Qed.

Lemma zeros_digits (j : nat) :
  let z := (fix zeros (n : nat) : string :=
              match n with O => EmptyString | S n' => String "0" (zeros n') end) j in
  all_digit_chars z = true /\ fold_digits z 0 = 0.
Proof. induction j as [|j IH]; cbn in *; auto. Qed.

Lemma pad_dec_digits (k : nat) (n : Z) : 0 <= n ->
  pad_zeros k (z_to_dec n) <> EmptyString
  /\ all_digit_chars (pad_zeros k (z_to_dec n)) = true
  /\ fold_digits (pad_zeros k (z_to_dec n)) 0 = n.
Proof.
  intros Hn. destruct (z_to_dec_spec n) as (c & ds & E & A & F & _).
  replace (n <? 0) with false in E by (symmetry; apply Z.ltb_ge; lia).
  cbn [String.append] in E. unfold pad_zeros. rewrite E.
  destruct (zeros_digits (k - String.length (String c ds))) as [Z1 Z2].
  repeat split.
  - destruct (_ (k - _)%nat); discriminate.
  - now rewrite all_digit_chars_app, Z1, A.
  - rewrite fold_digits_app, Z2. lia.
Qed.

Lemma parseSafeDate_ymd (env : Env) (y m d : Z) : 0 <= y -> 0 <= m -> 0 <= d ->
  parseSafeDate env (ymd_string y m d)
  = new_date_local env (Some y) (Some (m - 1)) (Some d).
Proof.
  intros Hy Hm Hd. unfold parseSafeDate, ymd_string.
  destruct (pad_dec_digits 4 y Hy) as (Ny & Ay & Fy).
  destruct (pad_dec_digits 2 m Hm) as (Nm & Am & Fm).
  destruct (pad_dec_digits 2 d Hd) as (Nd & Ad & Fd).
  rewrite split_dash_app, split_dash_app, split_dash_digits by assumption.
  cbn [map]. rewrite !Number_str_digits by assumption.
  rewrite Fy, Fm, Fd. reflexivity.
Qed.

Lemma make_day_civil (y m d : Z) : 1 <= m <= 12 ->
  make_day y (m - 1) d = days_from_civil y m d.
Proof.
  intros Hm. unfold make_day.
  rewrite (Z.div_small (m - 1) 12), (Z.mod_small (m - 1) 12) by lia.
  rewrite Z.add_0_r. replace (m - 1 + 1) with m by lia.
  unfold days_from_civil. lia.
Qed.

Lemma days_from_civil_bound (y m d : Z) :
  100 <= y <= 9999 -> 1 <= m <= 12 -> 1 <= d <= 31 ->
  -700000 <= days_from_civil y m d <= 3000000.
Proof.
  intros Hy Hm Hd. unfold days_from_civil.
  destruct (Z.leb_spec m 2), (Z.gtb_spec m 2); try lia.
  - Z.div_mod_to_equations. lia.
  - Z.div_mod_to_equations. lia.
Qed.

Lemma new_date_local_civil (env : Env) (y m d : Z) :
  Z.abs (tz env) <= msPerDay ->
  100 <= y <= 9999 -> 1 <= m <= 12 -> 1 <= d <= 31 ->
  new_date_local env (Some y) (Some (m - 1)) (Some d)
  = Some (days_from_civil y m d * msPerDay - tz env).
Proof.
  intros Htz Hy Hm Hd. unfold new_date_local.
  replace ((0 <=? y) && (y <=? 99)) with false
    by (symmetry; apply andb_false_iff; right; apply Z.leb_gt; lia).
  rewrite make_day_civil by exact Hm. unfold time_clip.
  pose proof (days_from_civil_bound y m d Hy Hm Hd).
  replace (Z.abs _ <=? 8640000000000000) with true
    by (symmetry; apply Z.leb_le; unfold msPerDay in *; lia).
  reflexivity.
Qed.

Lemma within_days (D D1 D2 c : Z) :
  isWithinInterval (D * msPerDay - c) (D1 * msPerDay - c) (D2 * msPerDay - c) = true
  <-> Z.min D1 D2 <= D <= Z.max D1 D2.
Proof.
  unfold isWithinInterval, msPerDay. rewrite andb_true_iff, !Z.leb_le.
  destruct (Z.le_ge_cases D1 D2);
    [rewrite !Z.min_l, !Z.max_r by lia | rewrite !Z.min_r, !Z.max_l by lia];
    lia.
Qed.

(* ================================================================== *)
(** * Claims *)

(** ** C9 *)

(** C9: program coercion [validateProgram] maps every input string to one
    of the five programs by case-insensitive containment, tested in the
    order orq, coro inf, coro juv, coro; absent or empty input and every
    other string give General. *)
Theorem validateProgram_priority (s : string) :
  (ci_contains s "orq" -> validateProgram (Some s) = Orquesta) /\
  (~ ci_contains s "orq" -> ci_contains s "coro inf" ->
     validateProgram (Some s) = Coro_Infantil) /\
  (~ ci_contains s "orq" -> ~ ci_contains s "coro inf" ->
     ci_contains s "coro juv" -> validateProgram (Some s) = Coro_Juvenil) /\
  (~ ci_contains s "orq" -> ~ ci_contains s "coro inf" ->
     ~ ci_contains s "coro juv" -> ci_contains s "coro" ->
     validateProgram (Some s) = Coro) /\
  (~ ci_contains s "orq" -> ~ ci_contains s "coro inf" ->
     ~ ci_contains s "coro juv" -> ~ ci_contains s "coro" ->
     validateProgram (Some s) = General) /\
  validateProgram None = General /\
  validateProgram (Some EmptyString) = General.
Proof.
  unfold validateProgram. rewrite or_str_some.
  repeat split; intros;
    repeat match goal with
    | H : ci_contains _ _ |- _ => apply includes_lower_ci in H; rewrite H
    | H : ~ ci_contains _ _ |- _ => apply includes_lower_ci_false in H; rewrite H
    end; reflexivity.
Qed.

(** ** C5 *)

(** C5 (as stated): quoting every field, joining with the delimiter and
    tokenizing gives back exactly the fields.  Refuted: the tokenizer trims
    each field and an empty sequence comes back as one empty field. *)
Lemma tokenizer_roundtrip_exact_fails :
  ~ (forall (d : ascii) (fs : list string),
       (d = ","%char \/ d = ";"%char) ->
       parseCSVLine (join (String d EmptyString) (map quote_field fs)) d = fs).
Proof.
  intros H.
  pose proof (H ","%char [" a"] (or_introl eq_refl)) as E1.
  pose proof (H ","%char [] (or_introl eq_refl)) as E2.
  vm_compute in E1, E2. discriminate E1.
Qed.

Lemma tokenizer_roundtrip_nonempty (d : ascii) (fs : list string) :
  (d = ","%char \/ d = ";"%char) -> fs <> [] ->
  parseCSVLine (join (String d EmptyString) (map quote_field fs)) d = map JS.trim fs.
Proof.
  intros Hd Hne.
  assert (Hq : d <> dquote) by (destruct Hd as [->| ->]; discriminate).
  replace (map quote_field fs) with (map encode_cell (map Quoted fs))
    by (rewrite map_map; reflexivity).
  rewrite parseCSVLine_cells.
  - rewrite map_map. reflexivity.
  - exact Hq.
  - destruct fs; simpl; congruence.
  - clear Hne. induction fs; simpl; auto.
Qed.

(** C5 (amended): for a non-empty sequence of fields and either delimiter,
    tokenizing the joined quoted fields gives back the fields with their
    surrounding whitespace trimmed, embedded delimiters and quotes included
    (so exactly the fields when none has surrounding whitespace); an empty
    sequence comes back as one empty field. *)
Theorem tokenizer_roundtrip_trimmed (d : ascii) (fs : list string) :
  (d = ","%char \/ d = ";"%char) ->
  parseCSVLine (join (String d EmptyString) (map quote_field fs)) d
  = match fs with [] => [EmptyString] | _ :: _ => map JS.trim fs end.
Proof.
  intros Hd. destruct fs as [|f fs'].
  - destruct Hd as [->| ->]; vm_compute; reflexivity.
  - apply tokenizer_roundtrip_nonempty; [exact Hd | discriminate].
Qed.

Lemma tokenizer_roundtrip_trimmed_witness :
  parseCSVLine (join ";" (map quote_field ["a;b"; String dquote "q;"; "x,y"])) ";"%char
  = ["a;b"; String dquote "q;"; "x,y"]
  /\ parseCSVLine (join "," (map quote_field [])) ","%char = [EmptyString].
Proof.
  split.
  - exact (tokenizer_roundtrip_trimmed ";"%char ["a;b"; String dquote "q;"; "x,y"]
             (or_intror eq_refl)).
  - exact (tokenizer_roundtrip_trimmed ","%char [] (or_introl eq_refl)).
Defined.

(** ** C2 *)

(** C2: for the ambiguous date 05/06/2024 (both leading parts at most 12,
    year last), the day-first resolution of the manual path would give day
    5 of June, but [parseFlexibleDate] first hands the string to the
    engine's [new Date(clean)], which V8 reads month-first; the year check
    (> 1000) passes and May 6 is returned, at UTC and at UTC-4 alike. *)
Theorem parseFlexibleDate_ambiguous_is_month_first :
  resolve_parts 5 6 2024 = Some (2024, 6, 5) /\
  option_map (local_civil (v8_env 0)) (parseFlexibleDate (v8_env 0) (Some "05/06/2024"))
    = Some (2024, 5, 6) /\
  option_map (local_civil (v8_env (-14400000)))
    (parseFlexibleDate (v8_env (-14400000)) (Some "05/06/2024"))
    = Some (2024, 5, 6).
Proof. vm_compute. repeat split. Qed.

(** ** C6 *)

(** C6: the final round-trip validation of the manual path rejects the
    spec's examples 31/02/2024 and 13/13/2024, but 02/31/2024 (resolved by
    the manual path as month 2, day 31) is accepted first by the engine's
    [new Date(clean)], which V8 rolls over to 2 March 2024, and that date
    is returned. *)
Theorem parseFlexibleDate_rollover_accepted :
  parseFlexibleDate (v8_env 0) (Some "31/02/2024") = None /\
  parseFlexibleDate (v8_env 0) (Some "13/13/2024") = None /\
  resolve_parts 2 31 2024 = Some (2024, 2, 31) /\
  option_map (local_civil (v8_env 0)) (parseFlexibleDate (v8_env 0) (Some "02/31/2024"))
    = Some (2024, 3, 2).
Proof. vm_compute. repeat split. Qed.

(** ** C10 *)

(** C10: a data row that tokenizes to fewer than two fields leaves the
    three accumulated arrays (activities, errors, warnings) unchanged, so
    the loop of [fromCSV] skips it without any notice, whatever its title
    or date cells would have caused. *)
Theorem csv_short_row_skipped (env : Env) (d : ascii) (ix : ColumnIdx) (i : nat)
    (line : string) (st : CsvAcc) :
  (List.length (parseCSVLine line d) < 2)%nat ->
  csv_row_step env d ix i line st = st.
Proof.
  intros H. unfold csv_row_step.
  apply Nat.ltb_lt in H. rewrite H. reflexivity.
Qed.

(** On a document: the one-field row [bad] between the header and a good
    row produces no warning, no error and no activity. *)
Lemma csv_short_row_skipped_witness :
  (List.length (parseCSVLine "bad" ","%char) < 2)%nat /\
  csv_row_step (v8_env 0) ","%char
    (column_idx ["titulo"; "fecha"]) 1 "bad"
    {| acc_activities := []; acc_errors := []; acc_warnings := [] |}
  = {| acc_activities := []; acc_errors := []; acc_warnings := [] |} /\
  warnings (fromCSV (v8_env 0)
              ("Titulo,Fecha" ++ String "010" "bad" ++ String "010" "x,2026-01-02"))
  = Some [] /\
  errors (fromCSV (v8_env 0)
            ("Titulo,Fecha" ++ String "010" "bad" ++ String "010" "x,2026-01-02"))
  = Some [].
Proof.
  split; [vm_compute; lia|].
  split; [apply csv_short_row_skipped; vm_compute; lia|].
  split; vm_compute; reflexivity.
Defined.

(** C1 (as stated): the round trip does not give back the same titles.  A
    state holding one activity whose title is the empty string is exported
    with [toJSON] and imported with [fromJSON]: the import succeeds and the
    activity comes back titled [Sin título] (i with acute accent). *)
Lemma toJSON_fromJSON_title_changes :
  let a := {| act_id := "a1"; act_title := ""; act_startDate := "2026-05-10";
              act_endDate := "2026-05-12"; act_color := "#3b82f6"; act_program := Coro;
              act_categoryId := None; act_description := None; act_status := Some active;
              act_rescheduledToId := None; act_originalActivityId := None;
              act_completed := None |} in
  let st := {| st_config := {| cfg_year := 2026; cfg_institutionalLogo := None;
                               cfg_institutionName := "Sinfonia"; cfg_subtitle := "";
                               cfg_monthOrnaments := [] |};
               st_activities := [a]; st_dayStyles := []; st_categories := [];
               st_notifications := [] |} in
  let r := fromJSON (v8_env 0) (toJSON (v8_env 0) st) in
  success r = true
  /\ option_map (fun d => map sa_title (jd_activities d)) (data r)
     = Some [JStr ("Sin t" ++ lat 237 ++ "tulo")]
  /\ map act_title (st_activities st) = [""].
Proof. vm_compute. repeat split; reflexivity. Qed.

(** C1 (corrected): for every calendar state, [fromJSON] applied to the
    output of [toJSON] succeeds and returns the exported configuration,
    categories and day styles, and for the i-th activity its id, title,
    startDate, endDate, color, program, categoryId and description as
    written, except that an empty string falls back to the default of
    [sanitizeActivity] (a fresh id, [Sin título], today, the startDate, the
    default color); a missing status comes back as [active], a missing
    [completed] as [false], a missing description as the empty string. *)
Theorem fromJSON_toJSON (env : Env) (state : CalendarState) :
  fromJSON env (toJSON env state) =
  {| success := true;
     message := "JSON procesado: " ++ z_to_dec (Z.of_nat (List.length (st_activities state)))
                ++ " actividades encontradas.";
     data := Some {| jd_config := Some (config_json (st_config state));
                     jd_categories := JArr (map category_json (st_categories state));
                     jd_activities := imported_all env 0 (st_activities state);
                     jd_dayStyles := JArr (map dayStyle_json (st_dayStyles state)) |};
     warnings := None;
     errors := None |}.
Proof.
  unfold fromJSON, toJSON. rewrite JSON_parse_stringify by apply backup_json_int.
  unfold fromJSON_body, backup_json.
  cbn [get_prop assoc_last String.eqb Ascii.eqb Bool.eqb andb negb bind ret or_json truthy].
  rewrite sanitize_all_exported. cbn [bind ret].
  rewrite imported_all_length. reflexivity.
Qed.

(** ** C4 *)

Lemma sanitizeActivity_dates (env : Env) (i : nat) (kvs : list (string * json))
    (x : SanActivity) (s e : string) :
  sanitizeActivity env i (JObj kvs) = inr x ->
  assoc_last "startDate" kvs = Some (JStr s) -> s <> "" ->
  assoc_last "endDate" kvs = Some (JStr e) -> e <> "" ->
  sa_startDate x = JStr s /\ sa_endDate x = JStr e.
Proof.
  intros H Hs Hs0 He He0. unfold sanitizeActivity in H. cbn [get_prop ret bind] in H.
  rewrite Hs, He in H.
  destruct (validateProgram_js (assoc_last "program" kvs)); cbn in H; [discriminate|].
  destruct (validateStatus_js (assoc_last "status" kvs)); cbn in H; [discriminate|].
  injection H as <-. cbn.
  unfold or_json, truthy.
  apply String.eqb_neq in Hs0, He0. rewrite Hs0, He0. split; reflexivity.
Qed.

Lemma sanitize_all_nth (env : Env) (l : list json) : forall (i k : nat) (xs : list SanActivity)
    (a : json),
  sanitize_all env i l = inr xs -> nth_error l k = Some a ->
  exists x, nth_error xs k = Some x /\ sanitizeActivity env (i + k) a = inr x.
Proof.
  induction l as [|b l IH]; intros i k xs a H Hk; [destruct k; discriminate|].
  cbn in H. destruct (sanitizeActivity env i b) as [|y] eqn:Eb; cbn in H; [discriminate|].
  destruct (sanitize_all env (S i) l) as [|ys] eqn:El; cbn in H; [discriminate|].
  injection H as <-. destruct k as [|k].
  - injection Hk as ->. exists y. rewrite Nat.add_0_r. split; [reflexivity|exact Eb].
  - destruct (IH (S i) k ys a El Hk) as (x & Hx & Ex). exists x. split; [exact Hx|].
    rewrite <- Ex. f_equal. lia.
Qed.

Lemma fromJSON_body_warnings (env : Env) (parsed : json) (r : ImportResult JsonData) :
  fromJSON_body env parsed = inr r -> warnings r = None.
Proof.
  unfold fromJSON_body. intros H.
  destruct (get_prop parsed "data") as [|pd]; cbn in H; [discriminate|].
  destruct (get_prop (or_json pd parsed) "activities") as [|acts]; cbn in H; [discriminate|].
  destruct (get_prop (or_json pd parsed) "categories") as [|cats]; cbn in H; [discriminate|].
  destruct (negb (truthy acts) && negb (truthy cats)).
  - injection H as <-. reflexivity.
  - destruct (if truthy acts then _ else _) as [|arr]; cbn in H; [discriminate|].
    destruct (sanitize_all env 0 arr); cbn in H; [discriminate|].
    destruct (get_prop (or_json pd parsed) "config"); cbn in H; [discriminate|].
    destruct (get_prop (or_json pd parsed) "dayStyles"); cbn in H; [discriminate|].
    injection H as <-. reflexivity.
Qed.

Lemma fromJSON_warnings (env : Env) (content : string) :
  warnings (fromJSON env content) = None.
Proof.
  unfold fromJSON. destruct (JSON_parse content) as [parsed|]; [|reflexivity].
  destruct (fromJSON_body env parsed) as [msg|r] eqn:E; [reflexivity|].
  exact (fromJSON_body_warnings env parsed r E).
Qed.

Lemma fromJSON_activities (env : Env) (content : string) (kvs0 kvsd : list (string * json))
    (l : list json) (d : JsonData) :
  JSON_parse content = Some (JObj kvs0) ->
  or_json (assoc_last "data" kvs0) (JObj kvs0) = JObj kvsd ->
  assoc_last "activities" kvsd = Some (JArr l) ->
  data (fromJSON env content) = Some d ->
  sanitize_all env 0 l = inr (jd_activities d).
Proof.
  intros Hp Hd Ha H. unfold fromJSON in H. rewrite Hp in H. unfold fromJSON_body in H.
  cbn [get_prop ret bind] in H. rewrite Hd in H. cbn [get_prop ret bind] in H. rewrite Ha in H.
  cbn [get_prop ret bind truthy negb andb] in H.
  destruct (sanitize_all env 0 l) as [msg|xs]; cbn in H; [discriminate|].
  injection H as <-. reflexivity.
Qed.

(** C4: the import does not keep the invariant [endDate >= startDate] on
    both paths.  The CSV import ([fromCSV]) keeps it: every activity it
    builds carries a startDate and an endDate printed from two time values
    [s <= e], and a row whose parsed end [e] precedes its parsed start [s]
    yields an activity whose endDate equals its startDate, after one warning
    naming the row.  The JSON import ([fromJSON], through
    [sanitizeActivity]) never clamps and never warns: its result has no
    warnings for any input, and an activity given non-empty string dates
    [s] and [e] is imported with exactly those dates, whatever their order,
    so an end date before the start date is kept. *)
Theorem import_end_before_start (env : Env) :
  (forall content r, data (fromCSV env content) = Some r ->
     Forall (dates_ordered env) (csv_activities r))
  /\ (forall d ix i line st s e,
        (2 <= List.length (parseCSVLine line d))%nat ->
        JS.or_str (at_index (parseCSVLine line d) (ix_title ix)) EmptyString <> EmptyString ->
        parseFlexibleDate env (at_index (parseCSVLine line d) (ix_start ix)) = Some s ->
        ix_end ix <> -1 ->
        parseFlexibleDate env (at_index (parseCSVLine line d) (ix_end ix)) = Some e ->
        e < s ->
        exists a, csv_row_step env d ix i line st
                  = push_activity (push_warning st (msg_clamped i)) a
               /\ act_startDate a = format_ymd env s /\ act_endDate a = act_startDate a)
  /\ (forall content, warnings (fromJSON env content) = None)
  /\ (forall content kvs0 kvsd l d k kvs s e,
        JSON_parse content = Some (JObj kvs0) ->
        or_json (assoc_last "data" kvs0) (JObj kvs0) = JObj kvsd ->
        assoc_last "activities" kvsd = Some (JArr l) ->
        data (fromJSON env content) = Some d ->
        nth_error l k = Some (JObj kvs) ->
        assoc_last "startDate" kvs = Some (JStr s) -> s <> "" ->
        assoc_last "endDate" kvs = Some (JStr e) -> e <> "" ->
        exists x, nth_error (jd_activities d) k = Some x
                  /\ sa_startDate x = JStr s /\ sa_endDate x = JStr e).
Proof.
  split; [exact (fromCSV_dates_ordered env)|].
  split; [exact (csv_row_step_clamps env)|].
  split; [exact (fromJSON_warnings env)|].
  intros content kvs0 kvsd l d k kvs s e Hp Hd Ha Hr Hk Hs Hs0 He He0.
  pose proof (fromJSON_activities env content kvs0 kvsd l d Hp Hd Ha Hr) as Hl.
  destruct (sanitize_all_nth env l 0 k _ _ Hl Hk) as (x & Hx & Ex).
  exists x. split; [exact Hx|]. exact (sanitizeActivity_dates env _ kvs x s e Ex Hs Hs0 He He0).
Qed.

(** The example of the spec on both paths, at offset 0: the CSV row
    Concierto,2026-05-10,2026-05-05 under the header Titulo,Inicio,Fin is
    clamped with one warning; the same activity as a JSON document keeps
    the end date 2026-05-05, without warnings. *)
Lemma import_end_before_start_witness :
  let doc := "Titulo,Inicio,Fin" ++ String "010" "Concierto,2026-05-10,2026-05-05" in
  let r := fromCSV (v8_env 0) doc in
  let kvs := [("title", JStr "Concierto"); ("startDate", JStr "2026-05-10");
              ("endDate", JStr "2026-05-05")] in
  let jdoc := JSON_stringify (JObj [("activities", JArr [JObj kvs])]) in
  warnings r = Some [msg_clamped 1]
  /\ option_map (fun d => map (fun a => (act_startDate a, act_endDate a)) (csv_activities d)) (data r)
     = Some [("2026-05-10", "2026-05-10")]
  /\ match data r with
     | Some d => Forall (dates_ordered (v8_env 0)) (csv_activities d)
     | None => False
     end
  /\ (exists a,
       csv_row_step (v8_env 0) ","%char (column_idx ["titulo"; "inicio"; "fin"]) 1
         "Concierto,2026-05-10,2026-05-05"
         {| acc_activities := []; acc_errors := []; acc_warnings := [] |}
       = push_activity (push_warning {| acc_activities := []; acc_errors := [];
                                        acc_warnings := [] |} (msg_clamped 1)) a
       /\ act_startDate a = format_ymd (v8_env 0) 1778371200000
       /\ act_endDate a = act_startDate a)
  /\ warnings (fromJSON (v8_env 0) jdoc) = None
  /\ match data (fromJSON (v8_env 0) jdoc) with
     | Some d => exists x, nth_error (jd_activities d) 0%nat = Some x
                           /\ sa_startDate x = JStr "2026-05-10" /\ sa_endDate x = JStr "2026-05-05"
     | None => False
     end.
Proof.
  intros doc r kvs jdoc.
  split; [vm_compute; reflexivity|].
  split; [vm_compute; reflexivity|].
  split.
  - destruct (data r) as [d|] eqn:E.
    + exact (proj1 (import_end_before_start (v8_env 0)) doc d E).
    + vm_compute in E. discriminate E.
  - split.
    + apply (proj1 (proj2 (import_end_before_start (v8_env 0)))) with (e := 1777939200000).
      * vm_compute. lia.
      * vm_compute. discriminate.
      * vm_compute. reflexivity.
      * vm_compute. discriminate.
      * vm_compute. reflexivity.
      * lia.
    + split; [exact (proj1 (proj2 (proj2 (import_end_before_start (v8_env 0)))) jdoc)|].
      destruct (data (fromJSON (v8_env 0) jdoc)) as [d|] eqn:E.
      * exact (proj2 (proj2 (proj2 (import_end_before_start (v8_env 0))))
                 jdoc [("activities", JArr [JObj kvs])] [("activities", JArr [JObj kvs])]
                 [JObj kvs] d 0%nat kvs "2026-05-10" "2026-05-05"
                 ltac:(vm_compute; reflexivity) eq_refl eq_refl E eq_refl eq_refl
                 ltac:(discriminate) eq_refl ltac:(discriminate)).
      * vm_compute in E. discriminate E.
Defined.

(** C8 (as stated): a CSV import in which no row yields an activity fails
    but still carries data.  The document Titulo,Fecha followed by the row
    ,2026-01-01 (no title) gives success false together with an empty list
    of activities and the warning about the missing title. *)
Lemma fromCSV_failure_with_data :
  let r := fromCSV (v8_env 0) ("Titulo,Fecha" ++ String "010" ",2026-01-01") in
  success r = false
  /\ data r = Some {| csv_activities := [] |}
  /\ warnings r = Some [msg_missing_title 1].
Proof. vm_compute. repeat split; reflexivity. Qed.

(** C8 (corrected): when [fromJSON] fails it returns no data and no
    warnings, and either the message of the catch block with the one
    exception message in errors, or the message about a document without
    activities and categories.  When [fromCSV] fails, either the document
    is structurally unusable (fewer than two non-blank lines, or no title
    or start column): no data, no warnings, no errors and one message; or
    no row produced an activity: data holds an empty activity list, the
    message says so, and the per-row warnings and errors are returned. *)
Theorem import_failures (env : Env) :
  (forall content, let r := fromJSON env content in
     success r = false ->
     data r = None /\ warnings r = None
     /\ ((message r = msg_json_error /\ exists e, errors r = Some [e])
         \/ (message r = msg_json_empty /\ errors r = None)))
  /\ (forall content, let r := fromCSV env content in
     success r = false ->
     (data r = None /\ warnings r = None /\ errors r = None
      /\ (message r = msg_csv_short \/ message r = msg_csv_columns))
     \/ (data r = Some {| csv_activities := [] |} /\ message r = msg_csv_none
         /\ (exists w e, warnings r = Some w /\ errors r = Some e))).
Proof. split; [exact (fromJSON_failure env) | exact (fromCSV_failure env)]. Qed.

(** Both importers failing: a JSON document that is the literal null, and
    the CSV document of the counterexample above. *)
Lemma import_failures_witness :
  (data (fromJSON (v8_env 0) "null") = None
   /\ message (fromJSON (v8_env 0) "null") = msg_json_error)
  /\ (data (fromCSV (v8_env 0) ("Titulo,Fecha" ++ String "010" ",2026-01-01"))
      = Some {| csv_activities := [] |}).
Proof.
  split.
  - destruct (proj1 (import_failures (v8_env 0)) "null") as (D & _ & [[M _]|[M _]]).
    + vm_compute. reflexivity.
    + split; [exact D | exact M].
    + vm_compute in M. discriminate M.
  - destruct (proj2 (import_failures (v8_env 0)) ("Titulo,Fecha" ++ String "010" ",2026-01-01"))
      as [(D & _)|(D & _)].
    + vm_compute. reflexivity.
    + vm_compute in D. discriminate D.
    + exact D.
Defined.

(** ** C7 *)

(** C7: the rows of toCSV do not quote every field: the id, dates,
    program, categoryId, status and completed flag are written as they
    are, so an id holding the delimiter splits into two fields and the
    tokenizer does not give back the ten values. *)
Theorem toCSV_row_not_all_quoted :
  ~ (forall (cats : list Category) (a : Activity),
       toCSV_row cats a = join "," (map quote_field (csv_values cats a))
       /\ parseCSVLine (toCSV_row cats a) ","%char = csv_values cats a).
Proof.
  intros H. destruct (H [] (sample_activity "a,b" "t" "c" "d")) as [_ E].
  vm_compute in E. discriminate E.
Qed.

(** C7 (amended): a row of toCSV is the comma join of ten cells of which
    only the title, the category name and the description are quoted
    (quotes doubled); when the raw id, startDate, endDate and categoryId
    contain no comma and no double quote, tokenizing the row with the
    comma gives back the ten values, each trimmed of surrounding white
    space. *)
Theorem toCSV_row_roundtrip (cats : list Category) (a : Activity) :
  raw_safe ","%char (act_id a) && raw_safe ","%char (act_startDate a)
  && raw_safe ","%char (act_endDate a)
  && raw_safe ","%char (JS.or_str (act_categoryId a) "") = true ->
  toCSV_row cats a = join "," (map encode_cell (csv_cells cats a))
  /\ parseCSVLine (toCSV_row cats a) ","%char = map JS.trim (csv_values cats a).
Proof.
  intros Hs.
  assert (Hrow : toCSV_row cats a = join "," (map encode_cell (csv_cells cats a)))
    by reflexivity.
  split; [exact Hrow|].
  rewrite Hrow. unfold csv_values. rewrite map_map.
  apply parseCSVLine_cells; [discriminate | discriminate |].
  apply andb_prop in Hs as [Hs Hc]. apply andb_prop in Hs as [Hs He].
  apply andb_prop in Hs as [Hi Hst].
  unfold csv_cells. cbn [forallb cell_safe].
  rewrite Hi, Hst, He, Hc.
  destruct (act_program a), (act_status a) as [[| |]|], (act_completed a) as [[|]|];
    reflexivity.
Qed.

Lemma toCSV_row_roundtrip_witness :
  parseCSVLine
    (toCSV_row [{| cat_id := "c1"; cat_name := "Ensayo, general"; cat_color := "#000" |}]
       (sample_activity "x1" (" Concierto " ++ String dquote "Gala" ++ String dquote ", 2") "c1" "a,b"))
    ","%char
  = ["x1"; "Concierto " ++ String dquote "Gala" ++ String dquote ", 2"; "2026-03-10";
     "2026-03-12"; "Coro"; "c1"; "Ensayo, general"; "active"; "true"; "a,b"].
Proof.
  match goal with |- parseCSVLine (toCSV_row ?c ?x) _ = _ =>
    rewrite (proj2 (toCSV_row_roundtrip c x eq_refl)) end.
  vm_compute. reflexivity.
Defined.

(** ** C3 *)

(** C3: getDayStyle does not match exactly the dates of the interval
    [startDate, endDate]: isWithinInterval sorts its bounds, so a style
    whose endDate precedes its startDate (2026-03-12 to 2026-03-10)
    matches 2026-03-11, which that interval does not contain. *)
Lemma getDayStyle_reversed_interval_matches :
  ~ (forall (env : Env) (s : DayStyle) (e : string) (ts te t : Z),
       ds_endDate s = Some e -> e <> EmptyString ->
       parseSafeDate env (ds_startDate s) = Some ts -> parseSafeDate env e = Some te ->
       (getDayStyle env [s] t = Some s <-> ts <= t <= te)).
Proof.
  intros H.
  pose (s := range_style "r" "2026-03-12" "2026-03-10").
  pose (ts := days_from_civil 2026 3 12 * msPerDay).
  pose (te := days_from_civil 2026 3 10 * msPerDay).
  pose (t := days_from_civil 2026 3 11 * msPerDay).
  destruct (H (v8_env 0) s "2026-03-10" ts te t eq_refl ltac:(discriminate)
              ltac:(vm_compute; reflexivity) ltac:(vm_compute; reflexivity)) as [H1 _].
  assert (Hin : ts <= t <= te) by (apply H1; vm_compute; reflexivity).
  revert Hin. vm_compute. intros [A B]. apply A. reflexivity.
Qed.

(** C3 (amended): for a style without endDate, getDayStyle matches a
    date exactly when its startDate equals the date printed as yyyy-MM-dd.
    For a style whose startDate and endDate are yyyy-MM-dd texts (years
    100..9999, months 1..12, days 1..31, a day past the end of the month
    rolling over) and a local midnight, it matches exactly the days between
    the two dates taken in either order, both included (for a local
    offset of at most one day). *)
Theorem getDayStyle_interval (env : Env) (id : string) (y1 m1 d1 y2 m2 d2 : Z) :
  Z.abs (tz env) <= msPerDay ->
  100 <= y1 <= 9999 -> 1 <= m1 <= 12 -> 1 <= d1 <= 31 ->
  100 <= y2 <= 9999 -> 1 <= m2 <= 12 -> 1 <= d2 <= 31 ->
  (forall (s : DayStyle) (t : Z), ds_endDate s = None ->
     getDayStyle env [s] t = Some s <-> ds_startDate s = format_ymd env t)
  /\ (forall D : Z,
       getDayStyle env [range_style id (ymd_string y1 m1 d1) (ymd_string y2 m2 d2)]
         (D * msPerDay - tz env)
       = Some (range_style id (ymd_string y1 m1 d1) (ymd_string y2 m2 d2))
       <-> Z.min (days_from_civil y1 m1 d1) (days_from_civil y2 m2 d2) <= D
           <= Z.max (days_from_civil y1 m1 d1) (days_from_civil y2 m2 d2)).
Proof.
  intros Htz Hy1 Hm1 Hd1 Hy2 Hm2 Hd2. split.
  - intros s t He. unfold getDayStyle, style_matches. cbn [find]. rewrite He.
    destruct (String.eqb_spec (ds_startDate s) (format_ymd env t));
      split; congruence.
  - intros D. unfold getDayStyle. cbn [find].
    destruct (pad_dec_digits 4 y2 ltac:(lia)) as (Ne & _).
    assert (Hm : style_matches env (D * msPerDay - tz env)
                   (range_style id (ymd_string y1 m1 d1) (ymd_string y2 m2 d2))
                 = isWithinInterval (D * msPerDay - tz env)
                     (days_from_civil y1 m1 d1 * msPerDay - tz env)
                     (days_from_civil y2 m2 d2 * msPerDay - tz env)).
    { unfold style_matches, range_style. cbn [ds_endDate ds_startDate].
      destruct (ymd_string y2 m2 d2) as [|c r] eqn:E.
      - exfalso. unfold ymd_string in E.
        destruct (pad_zeros 4 (z_to_dec y2)); discriminate.
      - rewrite <- E, !parseSafeDate_ymd by lia.
        rewrite !new_date_local_civil by lia. reflexivity. }
    rewrite Hm, <- within_days with (c := tz env).
    destruct (isWithinInterval _ _ _); split; congruence.
Qed.

Lemma getDayStyle_interval_witness :
  let st := range_style "r" (ymd_string 2026 3 10) (ymd_string 2026 3 12) in
  let at_day (d : Z) := getDayStyle (v8_env 0) [st] (days_from_civil 2026 3 d * msPerDay - tz (v8_env 0)) in
  at_day 9 <> Some st /\ at_day 10 = Some st /\ at_day 11 = Some st
  /\ at_day 12 = Some st /\ at_day 13 <> Some st.
Proof.
  intros st at_day.
  assert (Hb : Z.abs (tz (v8_env 0)) <= msPerDay) by (vm_compute; discriminate).
  destruct (getDayStyle_interval (v8_env 0) "r" 2026 3 10 2026 3 12 Hb
              ltac:(lia) ltac:(lia) ltac:(lia) ltac:(lia) ltac:(lia) ltac:(lia))
    as [_ Hiff].
  unfold at_day, st. rewrite !Hiff.
  vm_compute. repeat split; try discriminate; intros [A B]; first [apply A; reflexivity | apply B; reflexivity].
Defined.

(* ================================================================== *)
(** * Further properties of the code *)

(** ** Helpers: trimming keeps a leading non-blank prefix *)

Lemma trim_start_app_nonws (x y : string) (e : ascii) : JS.is_ws e = false ->
  exists x', JS.trim_start (x ++ String e y) = x' ++ String e y.
Proof.
  intros He. induction x as [|c x IH]; cbn [String.append JS.trim_start].
  - exists EmptyString. now rewrite He.
  - destruct (JS.is_ws c); [exact IH|]. now exists (String c x).
Qed.

Lemma trim_keeps_prefix (c e : ascii) (p1 p0 r : string) :
  JS.is_ws c = false -> JS.is_ws e = false -> String c p1 = p0 ++ String e EmptyString ->
  exists r', JS.trim (String c p1 ++ r) = String c p1 ++ r'.
Proof.
  intros Hc He Hp. unfold JS.trim.
  replace (JS.trim_start (String c p1 ++ r)) with (String c p1 ++ r)
    by (cbn [String.append JS.trim_start]; now rewrite Hc).
  rewrite Hp, rev_str_app, rev_str_app. cbn [JS.rev_str String.append].
  destruct (trim_start_app_nonws (JS.rev_str r) (JS.rev_str p0) e He) as [x' E].
  rewrite E, rev_str_app. cbn [JS.rev_str]. rewrite rev_str_involutive.
  exists (JS.rev_str x'). rewrite append_assoc_str. reflexivity.
Qed.

Lemma toJSON_head (env : Env) (st : CalendarState) :
  exists r, toJSON env st = String "{" r.
Proof. eexists. reflexivity. Qed.

Lemma toCSV_head (st : CalendarState) :
  exists r, toCSV st = join "," csv_headers ++ r.
Proof. unfold toCSV. rewrite join_head. eexists. reflexivity. Qed.

(** ** Helpers: day numbers and civil dates are inverse *)

Lemma yoe_decode (yoe doy : Z) : 0 <= yoe < 400 -> 0 <= doy <= 365 ->
  (doy = 365 -> (yoe + 1) mod 4 = 0 /\ ((yoe + 1) mod 100 <> 0 \/ yoe = 399)) ->
  let doe := yoe * 365 + yoe / 4 - yoe / 100 + doy in
  (doe - doe / 1460 + doe / 36524 - doe / 146096) / 365 = yoe.
Proof. intros Hy Hd Hl doe. subst doe. Z.div_mod_to_equations. lia. Qed.

Lemma doe_bound (yoe doy : Z) : 0 <= yoe < 400 -> 0 <= doy <= 365 ->
  (doy = 365 -> (yoe + 1) mod 4 = 0 /\ ((yoe + 1) mod 100 <> 0 \/ yoe = 399)) ->
  0 <= yoe * 365 + yoe / 4 - yoe / 100 + doy < 146097.
Proof. intros Hy Hd Hl. Z.div_mod_to_equations. lia. Qed.

Lemma mp_decode (mp d : Z) : 0 <= mp <= 11 -> 1 <= d ->
  (153 * mp + 2) / 5 + d - 1 < (153 * (mp + 1) + 2) / 5 ->
  let doy := (153 * mp + 2) / 5 + d - 1 in
  (5 * doy + 2) / 153 = mp /\ doy - (153 * ((5 * doy + 2) / 153) + 2) / 5 + 1 = d.
Proof.
  intros Hm Hd Hb doy.
  assert (Hq : (5 * doy + 2) / 153 = mp).
  { subst doy. Z.div_mod_to_equations. lia. }
  split; [exact Hq|]. rewrite Hq. subst doy. lia.
Qed.

Lemma civil_from_days_parts (era yoe doy : Z) : 0 <= yoe < 400 -> 0 <= doy <= 365 ->
  (doy = 365 -> (yoe + 1) mod 4 = 0 /\ ((yoe + 1) mod 100 <> 0 \/ yoe = 399)) ->
  civil_from_days (era * 146097 + (yoe * 365 + yoe / 4 - yoe / 100 + doy) - 719468)
  = (let mp := (5 * doy + 2) / 153 in
     let d := doy - (153 * mp + 2) / 5 + 1 in
     let m := if mp <? 10 then mp + 3 else mp - 9 in
     (yoe + era * 400 + (if m <=? 2 then 1 else 0), m, d)).
Proof.
  intros Hy Hd Hl. unfold civil_from_days. cbv zeta.
  set (doe := yoe * 365 + yoe / 4 - yoe / 100 + doy).
  pose proof (doe_bound yoe doy Hy Hd Hl) as Hb. fold doe in Hb.
  replace (era * 146097 + doe - 719468 + 719468) with (doe + era * 146097) by lia.
  rewrite Z.div_add by lia. rewrite (Z.div_small doe) by lia.
  replace (doe + era * 146097 - (0 + era) * 146097) with doe by lia.
  replace (0 + era) with era by lia.
  assert (E : (doe - doe / 1460 + doe / 36524 - doe / 146096) / 365 = yoe)
    by exact (yoe_decode yoe doy Hy Hd Hl).
  rewrite E.
  replace (doe - (365 * yoe + yoe / 4 - yoe / 100)) with doy by (subst doe; lia).
  reflexivity.
Qed.

Lemma civil_from_days_inverse (y m d : Z) :
  1 <= m <= 12 -> 1 <= d <= month_length y m ->
  civil_from_days (days_from_civil y m d) = (y, m, d).
Proof.
  intros Hm Hd. unfold days_from_civil.
  set (y' := if m <=? 2 then y - 1 else y).
  set (mp := if m >? 2 then m - 3 else m + 9).
  assert (Hmp : 0 <= mp <= 11 /\ (m <=? 2) = (mp >=? 10)).
  { subst mp. destruct (Z.gtb_spec m 2), (Z.leb_spec m 2), (Z.geb_spec (m - 3) 10),
      (Z.geb_spec (m + 9) 10); lia. }
  assert (Hlen : (153 * mp + 2) / 5 + d - 1 < (153 * (mp + 1) + 2) / 5
                 /\ (153 * mp + 2) / 5 + d - 1 <= 365
                 /\ ((153 * mp + 2) / 5 + d - 1 = 365 -> m = 2 /\ leap_year y = true)).
  { remember ((153 * mp + 2) / 5) as A. remember ((153 * (mp + 1) + 2) / 5) as B.
    unfold month_length in Hd. subst mp.
    assert (m = 1 \/ m = 2 \/ m = 3 \/ m = 4 \/ m = 5 \/ m = 6 \/ m = 7 \/ m = 8
            \/ m = 9 \/ m = 10 \/ m = 11 \/ m = 12) as Hc by lia.
    destruct Hc as [->|[->|[->|[->|[->|[->|[->|[->|[->|[->|[->| -> ]]]]]]]]]]];
      vm_compute in HeqA, HeqB; subst A B; simpl in Hd;
      try (split; [lia | split; [lia | intros; lia]]).
    destruct (leap_year y); split; try lia; split; try lia; intros; split; auto; lia. }
  destruct Hlen as [Hlt [Hle Hleap]].
  destruct (mp_decode mp d ltac:(lia) ltac:(lia) Hlt) as [Q D].
  set (doy := (153 * mp + 2) / 5 + d - 1) in *.
  set (era := y' / 400). set (yoe := y' - era * 400).
  assert (Hyoe : 0 <= yoe < 400) by (subst yoe era; Z.div_mod_to_equations; lia).
  assert (Hdoy : 0 <= doy <= 365).
  { subst doy. split; [|lia].
    assert (0 <= (153 * mp + 2) / 5) by (apply Z.div_pos; lia). lia. }
  assert (Hl : doy = 365 -> (yoe + 1) mod 4 = 0 /\ ((yoe + 1) mod 100 <> 0 \/ yoe = 399)).
  { intros H365. destruct (Hleap H365) as [-> Ly].
    unfold leap_year in Ly. apply andb_true_iff in Ly as [L4 L].
    apply orb_true_iff in L. rewrite Z.eqb_eq in L4.
    assert (Ey : y' = y - 1) by reflexivity.
    subst yoe era. rewrite Ey. clear -L4 L.
    destruct L as [L|L]; [apply negb_true_iff, Z.eqb_neq in L | apply Z.eqb_eq in L];
      Z.div_mod_to_equations; lia. }
  rewrite (civil_from_days_parts era yoe doy Hyoe Hdoy Hl). cbv zeta.
  rewrite D, Q.
  assert (Em : (if mp <? 10 then mp + 3 else mp - 9) = m).
  { subst mp. destruct (Z.gtb_spec m 2).
    - destruct (Z.ltb_spec (m - 3) 10); lia.
    - destruct (Z.ltb_spec (m + 9) 10); lia. }
  rewrite Em. subst yoe era y'.
  destruct (Z.leb_spec m 2); f_equal; f_equal; lia.
Qed.

(** ** Helpers: lists *)

Lemma find_app_none {A : Type} (p : A -> bool) (l1 l2 : list A) :
  find p l1 = None -> find p (l1 ++ l2) = find p l2.
Proof.
  induction l1 as [|x l1 IH]; cbn; [easy|].
  destruct (p x); [discriminate | exact IH].
Qed.

Lemma find_filter_none {A : Type} (p q : A -> bool) (l : list A) :
  (forall x, q x = true -> p x = false) -> find p (filter q l) = None.
Proof.
  intros H. induction l as [|x l IH]; cbn; [easy|].
  destruct (q x) eqn:Q; cbn; [rewrite (H x Q)|]; exact IH.
Qed.

Lemma find_filter_same {A : Type} (p q : A -> bool) (l : list A) :
  (forall x, p x = true -> q x = true) -> find p (filter q l) = find p l.
Proof.
  intros H. induction l as [|x l IH]; cbn; [easy|].
  destruct (q x) eqn:Q; cbn.
  - destruct (p x); [reflexivity | exact IH].
  - destruct (p x) eqn:P; [rewrite (H x P) in Q; discriminate | exact IH].
Qed.

Lemma filter_filter_same {A : Type} (q : A -> bool) (l : list A) :
  filter q (filter q l) = filter q l.
Proof.
  induction l as [|x l IH]; cbn; [easy|].
  destruct (q x) eqn:Q; cbn; [rewrite Q, IH|]; easy.
Qed.

Lemma filter_app_single {A : Type} (q : A -> bool) (l : list A) (x : A) :
  q x = false -> filter q (l ++ [x]) = filter q l.
Proof. intros Hx. rewrite filter_app. cbn. rewrite Hx. apply app_nil_r. Qed.

Lemma find_app_single_false {A : Type} (p : A -> bool) (l : list A) (x : A) :
  p x = false -> find p (l ++ [x]) = find p l.
Proof.
  intros Hx. induction l as [|y l IH]; cbn; [now rewrite Hx|].
  destruct (p y); [reflexivity | exact IH].
Qed.

Lemma filter_filter_and {A : Type} (p q : A -> bool) (l : list A) :
  filter p (filter q l) = filter (fun x => q x && p x) l.
Proof.
  induction l as [|x l IH]; cbn; [easy|].
  destruct (q x); cbn; [destruct (p x)|]; rewrite ?IH; reflexivity.
Qed.

Lemma includes_empty (s : string) : JS.includes s "" = true.
Proof. destruct s; reflexivity. Qed.

(** ** File import *)

(** X1: a file holding a JSON export is recognised as JSON, so the import
    preview is the result of [ImportService.fromJSON] on its text. *)
Theorem handleFileSelect_toJSON (env : Env) (st : CalendarState) :
  handleFileSelect_result env (toJSON env st)
  = map_data json_data (fromJSON env (toJSON env st)).
Proof.
  unfold handleFileSelect_result, detectFormat.
  destruct (toJSON_head env st) as [r E]. rewrite E.
  destruct (trim_keeps_prefix "{" "{" EmptyString EmptyString r eq_refl eq_refl eq_refl)
    as [r' T].
  cbn [String.append] in T. rewrite T. destruct r'; reflexivity.
Qed.

(** X2: a file holding a CSV export is recognised as CSV (its header line
    holds commas and does not start with a brace or a bracket), so the
    import preview is the result of [ImportService.fromCSV] on its text. *)
Theorem handleFileSelect_toCSV (env : Env) (st : CalendarState) :
  handleFileSelect_result env (toCSV st) = map_data csv_data (fromCSV env (toCSV st)).
Proof.
  unfold handleFileSelect_result, detectFormat.
  destruct (toCSV_head st) as [r E]. rewrite E.
  destruct (trim_keeps_prefix "i" "n"
              "d,title,startDate,endDate,program,categoryId,categoryName,status,completed,description"
              "id,title,startDate,endDate,program,categoryId,categoryName,status,completed,descriptio"
              r eq_refl eq_refl eq_refl) as [r' T].
  change (join "," csv_headers) with
    (String "i" "d,title,startDate,endDate,program,categoryId,categoryName,status,completed,description").
  rewrite T. cbn. reflexivity.
Qed.

(** ** Month ornaments *)

(** X3: after choosing an icon for the selected month, the sidebar shows
    that icon as the month's ornament (['None'] for the empty icon). *)
Theorem currentOrnament_update (m : Z) (icon : string) (orns : list MonthOrnament) :
  currentOrnament m (handleUpdateOrnament m icon orns)
  = if String.eqb icon "" then "None" else icon.
Proof.
  unfold currentOrnament, handleUpdateOrnament.
  assert (Hnone : find (fun o => mo_month o =? m)
                    (filter (fun o => negb (mo_month o =? m)) orns) = None).
  { apply find_filter_none. intros o Ho. apply negb_true_iff in Ho. exact Ho. }
  destruct (String.eqb_spec icon "None") as [->|Hn].
  - rewrite Hnone. reflexivity.
  - rewrite find_app_none by exact Hnone. cbn. rewrite Z.eqb_refl. reflexivity.
Qed.

(** X4: choosing an icon for one month leaves the ornament shown for every
    other month unchanged. *)
Theorem currentOrnament_update_other (m m' : Z) (icon : string) (orns : list MonthOrnament) :
  m' <> m -> currentOrnament m' (handleUpdateOrnament m icon orns) = currentOrnament m' orns.
Proof.
  intros Hne. unfold currentOrnament, handleUpdateOrnament.
  assert (Hsame : find (fun o => mo_month o =? m')
                    (filter (fun o => negb (mo_month o =? m)) orns)
                  = find (fun o => mo_month o =? m') orns).
  { apply find_filter_same. intros o Ho. apply Z.eqb_eq in Ho.
    apply negb_true_iff, Z.eqb_neq. congruence. }
  destruct (String.eqb icon "None").
  - rewrite Hsame. reflexivity.
  - rewrite find_app_single_false by (cbn; apply Z.eqb_neq; congruence).
    rewrite Hsame. reflexivity.
Qed.

(** X5: choosing an icon twice for the same month is the same as choosing
    the second icon once: the earlier entry of the month is dropped. *)
Theorem handleUpdateOrnament_twice (m : Z) (icon1 icon2 : string) (orns : list MonthOrnament) :
  handleUpdateOrnament m icon2 (handleUpdateOrnament m icon1 orns)
  = handleUpdateOrnament m icon2 orns.
Proof.
  unfold handleUpdateOrnament. cbv zeta.
  destruct (String.eqb icon1 "None").
  - rewrite filter_filter_same. reflexivity.
  - rewrite filter_app_single by (cbn; rewrite Z.eqb_refl; reflexivity).
    rewrite filter_filter_same. reflexivity.
Qed.

(** ** Clearing the activities of a month *)

(** X6: once the activities of the selected month are cleared, the
    sidebar lists no activity for that month, whatever the search term. *)
Theorem monthActivities_after_clear (env : Env) (m : Z) (searchTerm : string)
    (activities : list Activity) :
  monthActivities env m searchTerm (clearMonthActivities env m activities) = [].
Proof.
  unfold monthActivities, clearMonthActivities. rewrite filter_filter_and.
  induction activities as [|a l IH]; cbn; [reflexivity|].
  destruct (start_time env a) as [d|]; [|exact IH].
  destruct (getMonth env d =? m); cbn; exact IH.
Qed.

(** X7: clearing the selected month leaves the sidebar list of every other
    month unchanged, for every search term. *)
Theorem monthActivities_clear_other (env : Env) (m m' : Z) (searchTerm : string)
    (activities : list Activity) :
  m' <> m ->
  monthActivities env m' searchTerm (clearMonthActivities env m activities)
  = monthActivities env m' searchTerm activities.
Proof.
  intros Hne. unfold monthActivities, clearMonthActivities. rewrite filter_filter_and.
  apply filter_ext. intros a.
  destruct (start_time env a) as [d|]; [|reflexivity].
  destruct (Z.eqb_spec (getMonth env d) m'); cbn; [|apply andb_false_r].
  destruct (Z.eqb_spec (getMonth env d) m); [congruence|]. reflexivity.
Qed.

(** X8: clearing deletes exactly the activities the sidebar lists for the
    month with an empty search, also those a search in progress hides. *)
Theorem clearMonthActivities_removes_listed (env : Env) (m : Z)
    (activities : list Activity) (a : Activity) :
  In a activities ->
  (In a (clearMonthActivities env m activities)
   <-> ~ In a (monthActivities env m "" activities)).
Proof.
  intros Hin. unfold clearMonthActivities, monthActivities. rewrite !filter_In.
  cbn [JS.toLowerCase]. rewrite includes_empty.
  destruct (start_time env a) as [d|]; [|intuition discriminate].
  destruct (getMonth env d =? m); cbn; intuition discriminate.
Qed.

Lemma currentOrnament_update_other_witness :
  (2 <> 3) /\
  currentOrnament 2 (handleUpdateOrnament 3 "Star" [{| mo_month := 2; mo_icon := "Music" |}])
  = currentOrnament 2 [{| mo_month := 2; mo_icon := "Music" |}].
Proof. split; [lia | apply (currentOrnament_update_other 3 2); lia]. Defined.

Lemma monthActivities_clear_other_witness :
  (1 <> 2) /\
  monthActivities (v8_env 0) 1 "gala"
    (clearMonthActivities (v8_env 0) 2 [sample_activity "x1" "Gala" "c1" "d"])
  = monthActivities (v8_env 0) 1 "gala" [sample_activity "x1" "Gala" "c1" "d"].
Proof. split; [lia | apply (monthActivities_clear_other (v8_env 0) 2 1); lia]. Defined.

Lemma clearMonthActivities_removes_listed_witness :
  In (sample_activity "x1" "Gala" "c1" "d") [sample_activity "x1" "Gala" "c1" "d"] /\
  (In (sample_activity "x1" "Gala" "c1" "d")
      (clearMonthActivities (v8_env 0) 2 [sample_activity "x1" "Gala" "c1" "d"])
   <-> ~ In (sample_activity "x1" "Gala" "c1" "d")
         (monthActivities (v8_env 0) 2 "" [sample_activity "x1" "Gala" "c1" "d"])).
Proof.
  split; [left; reflexivity|].
  apply clearMonthActivities_removes_listed. left; reflexivity.
Defined.

(** ** Coercion of statuses *)

(** X9: [validateStatus] maps a string containing post (ignoring case) to
    postponed, else one containing susp to suspended, and every other
    string, the empty one and an absent value to active. *)
Theorem validateStatus_priority (s : string) :
  (ci_contains s "post" -> validateStatus (Some s) = postponed) /\
  (~ ci_contains s "post" -> ci_contains s "susp" -> validateStatus (Some s) = suspended) /\
  (~ ci_contains s "post" -> ~ ci_contains s "susp" -> validateStatus (Some s) = active) /\
  validateStatus None = active /\
  validateStatus (Some EmptyString) = active.
Proof.
  unfold validateStatus. rewrite or_str_some.
  repeat split; intros;
    repeat match goal with
    | H : ci_contains _ _ |- _ => apply includes_lower_ci in H; rewrite H
    | H : ~ ci_contains _ _ |- _ => apply includes_lower_ci_false in H; rewrite H
    end; reflexivity.
Qed.

(** ** What the CSV import sets on its own *)

Lemma csv_row_step_defaults env d ix i line st :
  Forall csv_defaults (acc_activities st) ->
  Forall csv_defaults (acc_activities (csv_row_step env d ix i line st)).
Proof.
  intros H. unfold csv_row_step.
  destruct (List.length (parseCSVLine line d) <? 2)%nat; [exact H|].
  destruct (JS.or_str _ _) as [|c t]; [exact H|].
  destruct (parseFlexibleDate env _) as [s|]; [|exact H].
  destruct (s >? _); simpl; apply Forall_app; split; auto;
    repeat constructor.
Qed.

Lemma csv_rows_defaults env d ix lines : forall i st,
  Forall csv_defaults (acc_activities st) ->
  Forall csv_defaults (acc_activities (csv_rows env d ix i lines st)).
Proof.
  induction lines as [|l rest IH]; intros i st H; simpl; auto.
  apply IH, csv_row_step_defaults, H.
Qed.

(** X10: every activity the CSV import produces is active, not completed,
    in no category and of the default colour, whatever the status and
    category columns of the file hold. *)
Theorem fromCSV_activity_defaults (env : Env) (content : string) (r : CsvData) (a : Activity) :
  data (fromCSV env content) = Some r -> In a (csv_activities r) ->
  act_status a = Some active /\ act_categoryId a = None /\
  act_completed a = Some false /\ act_color a = "#3b82f6".
Proof.
  intros E Hin. revert E. unfold fromCSV.
  destruct (filter _ _) as [|header [|row rows]]; try discriminate.
  destruct (_ || _); [discriminate|].
  cbn [data]. intros E. injection E as <-. cbn [csv_activities] in Hin.
  assert (F : Forall csv_defaults
                (acc_activities (csv_rows env (if JS.includes header ";" then ";"%char else ","%char)
                   (column_idx (map (fun h => JS.trim (JS.toLowerCase h))
                      (parseCSVLine header (if JS.includes header ";" then ";"%char else ","%char))))
                   1 (row :: rows)
                   {| acc_activities := []; acc_errors := []; acc_warnings := [] |}))).
  { apply csv_rows_defaults. constructor. }
  rewrite Forall_forall in F. exact (F a Hin).
Qed.

(** ** The JSON envelope *)

(** X11: a backup whose [data] member is an object imports exactly like
    that object given on its own (when it has no truthy [data] member of
    its own): the envelope's other members are ignored. *)
Theorem fromJSON_body_envelope (env : Env) (top kvs : list (string * json)) :
  assoc_last "data" top = Some (JObj kvs) -> truthy (assoc_last "data" kvs) = false ->
  fromJSON_body env (JObj top) = fromJSON_body env (JObj kvs).
Proof.
  intros Htop Hkvs. unfold fromJSON_body. cbn [get_prop ret bind].
  rewrite Htop.
  replace (or_json (Some (JObj kvs)) (JObj top)) with (JObj kvs) by reflexivity.
  replace (or_json (assoc_last "data" kvs) (JObj kvs)) with (JObj kvs)
    by (unfold or_json; rewrite Hkvs; reflexivity).
  reflexivity.
Qed.

Lemma fromCSV_activity_defaults_witness :
  let doc := "Titulo,Inicio,Estado,Categoria" ++ String "010" "Gala,2026-05-10,postponed,c1" in
  match data (fromCSV (v8_env 0) doc) with
  | Some r =>
      match csv_activities r with
      | a :: _ =>
          act_status a = Some active /\ act_categoryId a = None /\
          act_completed a = Some false /\ act_color a = "#3b82f6"
      | [] => False
      end
  | None => False
  end.
Proof.
  intros doc.
  destruct (data (fromCSV (v8_env 0) doc)) as [r|] eqn:E; [|vm_compute in E; discriminate E].
  destruct (csv_activities r) as [|a l] eqn:L.
  - vm_compute in E. injection E as <-. vm_compute in L. discriminate L.
  - apply (fromCSV_activity_defaults (v8_env 0) doc r a E). rewrite L. left. reflexivity.
Defined.

Lemma fromJSON_body_envelope_witness :
  let kvs := [("activities", JArr [JObj [("title", JStr "Gala")]])] in
  let top := [("version", JStr "1.5.1"); ("data", JObj kvs)] in
  assoc_last "data" top = Some (JObj kvs) /\ truthy (assoc_last "data" kvs) = false /\
  fromJSON_body (v8_env 0) (JObj top) = fromJSON_body (v8_env 0) (JObj kvs).
Proof.
  intros kvs top. split; [reflexivity|]. split; [reflexivity|].
  apply fromJSON_body_envelope; reflexivity.
Defined.

(** ** One malformed activity rejects a JSON file *)

Lemma bind_throws_l {A B : Type} (m : Throws A) (k : A -> Throws B) :
  throws m -> throws (bind m k).
Proof. destruct m; cbn; tauto. Qed.

Lemma validate_js_throws (v : json) :
  truthy (Some v) = true -> (forall s, v <> JStr s) ->
  throws (validateProgram_js (Some v)) /\ throws (validateStatus_js (Some v)).
Proof.
  intros Ht Hs. unfold validateProgram_js, validateStatus_js. rewrite Ht.
  destruct v; cbn; try tauto. exfalso. exact (Hs s eq_refl).
Qed.

Lemma sanitizeActivity_throws (env : Env) (i : nat) (kvs : list (string * json)) (v : json) :
  (assoc_last "program" kvs = Some v \/ assoc_last "status" kvs = Some v) ->
  truthy (Some v) = true -> (forall s, v <> JStr s) ->
  throws (sanitizeActivity env i (JObj kvs)).
Proof.
  intros Hk Ht Hs. destruct (validate_js_throws v Ht Hs) as [Tp Ts].
  unfold sanitizeActivity. cbn [get_prop ret bind].
  destruct Hk as [Hp|Hst].
  - rewrite Hp. apply bind_throws_l, Tp.
  - destruct (validateProgram_js (assoc_last "program" kvs)); cbn; [exact I|].
    rewrite Hst. apply bind_throws_l, Ts.
Qed.

Lemma sanitize_all_throws (env : Env) (x : json) (l : list json) :
  In x l -> (forall i, throws (sanitizeActivity env i x)) ->
  forall i, throws (sanitize_all env i l).
Proof.
  intros Hin Hx. induction l as [|y l IH]; [destruct Hin|]. intros i. cbn.
  destruct Hin as [->|Hin].
  - apply bind_throws_l, Hx.
  - destruct (sanitizeActivity env i y); cbn; [exact I|]. apply bind_throws_l, IH, Hin.
Qed.

(** X12: when one element of the activities array of a JSON file has a
    program or status that is truthy but not a string (a number, say),
    the whole import fails with the parse-error message and no data: no
    activity of the file is imported. *)
Theorem fromJSON_bad_activity_rejects_file (env : Env) (content : string)
    (kvs0 kvsd kvs : list (string * json)) (l : list json) (v : json) :
  JSON_parse content = Some (JObj kvs0) ->
  or_json (assoc_last "data" kvs0) (JObj kvs0) = JObj kvsd ->
  assoc_last "activities" kvsd = Some (JArr l) ->
  In (JObj kvs) l ->
  (assoc_last "program" kvs = Some v \/ assoc_last "status" kvs = Some v) ->
  truthy (Some v) = true -> (forall s, v <> JStr s) ->
  exists msg, fromJSON env content
              = {| success := false; message := msg_json_error; data := None;
                   warnings := None; errors := Some [msg] |}.
Proof.
  intros Hp Hd Ha Hin Hk Ht Hs.
  assert (T : throws (sanitize_all env 0 l)).
  { apply (sanitize_all_throws env (JObj kvs)); [exact Hin|].
    intros i. exact (sanitizeActivity_throws env i kvs v Hk Ht Hs). }
  unfold fromJSON. rewrite Hp. unfold fromJSON_body. cbn [get_prop ret bind].
  rewrite Hd. cbn [get_prop ret bind]. rewrite Ha.
  cbn [get_prop ret bind truthy negb andb].
  destruct (sanitize_all env 0 l) as [msg|]; [|destruct T].
  cbn. exists msg. reflexivity.
Qed.

Lemma fromJSON_bad_activity_rejects_file_witness :
  let content := "{" ++ String dquote "activities" ++ String dquote ": [{"
                 ++ String dquote "title" ++ String dquote ": " ++ String dquote "Gala"
                 ++ String dquote "}, {" ++ String dquote "status" ++ String dquote ": 1}]}" in
  exists msg, fromJSON (v8_env 0) content
              = {| success := false; message := msg_json_error; data := None;
                   warnings := None; errors := Some [msg] |}.
Proof.
  intros content.
  apply (fromJSON_bad_activity_rejects_file (v8_env 0) content
           [("activities", JArr [JObj [("title", JStr "Gala")]; JObj [("status", JNum 1 0)]])]
           [("activities", JArr [JObj [("title", JStr "Gala")]; JObj [("status", JNum 1 0)]])]
           [("status", JNum 1 0)]
           [JObj [("title", JStr "Gala")]; JObj [("status", JNum 1 0)]] (JNum 1 0)).
  - vm_compute. reflexivity.
  - reflexivity.
  - reflexivity.
  - right. left. reflexivity.
  - right. reflexivity.
  - vm_compute. reflexivity.
  - discriminate.
Defined.

(** ** Helpers: the day before a civil date *)

Ltac split_cmp :=
  repeat match goal with
  | |- context [?a <=? ?b] => destruct (Z.leb_spec a b)
  | |- context [?a >? ?b] => destruct (Z.gtb_spec a b)
  | |- context [?a =? ?b] => destruct (Z.eqb_spec a b)
  end.

Ltac eval_mp :=
  repeat match goal with
  | |- context [(153 * ?x + 2) / 5] =>
      let v := eval vm_compute in ((153 * x + 2) / 5) in
      change ((153 * x + 2) / 5) with v
  end.

Lemma days_from_civil_first (y m : Z) : 2 <= m <= 12 ->
  days_from_civil y m 1 - 1 = days_from_civil y (m - 1) (month_length y (m - 1)).
Proof.
  intros Hm.
  assert (m = 2 \/ m = 3 \/ m = 4 \/ m = 5 \/ m = 6 \/ m = 7 \/ m = 8
          \/ m = 9 \/ m = 10 \/ m = 11 \/ m = 12) as Hc by lia.
  unfold month_length, days_from_civil.
  destruct Hc as [->|[->|[->|[->|[->|[->|[->|[->|[->|[->| -> ]]]]]]]]]]; cbv zeta;
    split_cmp; eval_mp; try lia.
  all: unfold leap_year;
    destruct (Z.eqb_spec (y mod 4) 0), (Z.eqb_spec (y mod 100) 0), (Z.eqb_spec (y mod 400) 0);
      cbn [andb orb negb]; Z.div_mod_to_equations; lia.
Qed.

Lemma month_length_range (y m : Z) : 28 <= month_length y m <= 31.
Proof.
  unfold month_length. destruct (m =? 2), (leap_year y), ((m =? 4) || (m =? 6) || (m =? 9) || (m =? 11)); lia.
Qed.

Lemma prev_day_spec (y m d : Z) : 1 <= m <= 12 -> 1 <= d <= month_length y m ->
  let '(y', m', d') := prev_day y m d in
  days_from_civil y' m' d' = days_from_civil y m d - 1
  /\ 1 <= m' <= 12 /\ 1 <= d' <= month_length y' m' /\ y - 1 <= y' <= y.
Proof.
  intros Hm Hd. unfold prev_day.
  destruct (Z.ltb_spec 1 d).
  - repeat split; try lia. unfold days_from_civil. lia.
  - assert (d = 1) by lia. subst d.
    destruct (Z.ltb_spec 1 m).
    + pose proof (month_length_range y (m - 1)).
      repeat split; try lia. rewrite days_from_civil_first by lia. reflexivity.
    + assert (m = 1) by lia. subst m.
      repeat split; try lia; [|vm_compute; discriminate].
      unfold days_from_civil. cbv zeta. split_cmp; eval_mp; try lia.
Qed.

(** Decimal text: lengths and digit runs *)

Lemma fold_digits_shift (s : string) : forall k,
  fold_digits s k = k * 10 ^ Z.of_nat (String.length s) + fold_digits s 0.
Proof.
  induction s as [|c s IH]; intros k; cbn [fold_digits String.length].
  - lia.
  - rewrite (IH (k * 10 + digit_val c)), (IH (0 * 10 + digit_val c)).
    rewrite Nat2Z.inj_succ, Z.pow_succ_r by lia. lia.
Qed.

Lemma digit_val_range (c : ascii) : is_digit c = true -> 0 <= digit_val c <= 9.
Proof.
  intros H. destruct (digit_cases c H) as [->|[->|[->|[->|[->|[->|[->|[->|[->| ->]]]]]]]]];
    vm_compute; split; discriminate.
Qed.

Lemma fold_digits_nonneg (s : string) : all_digit_chars s = true -> 0 <= fold_digits s 0.
Proof.
  induction s as [|c s IH]; intros H; cbn [fold_digits]; [lia|].
  cbn [all_digit_chars] in H. apply andb_prop in H as [Hc H].
  rewrite fold_digits_shift. pose proof (digit_val_range c Hc). specialize (IH H).
  pose proof (Z.pow_nonneg 10 (Z.of_nat (String.length s))). nia.
Qed.

Lemma z_to_dec_length_le (n : Z) (k : nat) : 0 <= n < 10 ^ Z.of_nat k -> (1 <= k)%nat ->
  (String.length (z_to_dec n) <= k)%nat.
Proof.
  intros Hn Hk. destruct (z_to_dec_spec n) as (c & ds & E & A & F & P).
  replace (n <? 0) with false in E by (symmetry; apply Z.ltb_ge; lia).
  cbn [String.append] in E. rewrite E. cbn [String.length].
  destruct (Z.eqb_spec n 0) as [->|Hn0].
  - vm_compute in E. injection E as <- <-. cbn. lia.
  - cbn [all_digit_chars] in A. apply andb_prop in A as [Ac A].
    cbn [fold_digits] in F. rewrite fold_digits_shift in F.
    pose proof (fold_digits_nonneg ds A).
    assert (Hc1 : 1 <= digit_val c).
    { destruct (digit_cases c Ac) as [->|[->|[->|[->|[->|[->|[->|[->|[->| ->]]]]]]]]];
        try (vm_compute; discriminate); exfalso; exact (P Hn0 eq_refl). }
    assert (Hlt : 10 ^ Z.of_nat (String.length ds) < 10 ^ Z.of_nat k).
    { pose proof (Z.pow_nonneg 10 (Z.of_nat (String.length ds))). nia. }
    apply Z.pow_lt_mono_r_iff in Hlt; lia.
Qed.

Lemma zeros_length (j : nat) :
  String.length ((fix zeros (n : nat) : string :=
                    match n with O => EmptyString | S n' => String "0" (zeros n') end) j) = j.
Proof. induction j as [|j IH]; cbn; auto. Qed.

Lemma pad_zeros_length (k : nat) (s : string) : (String.length s <= k)%nat ->
  String.length (pad_zeros k s) = k.
Proof. intros H. unfold pad_zeros. rewrite str_length_app, zeros_length. lia. Qed.

Lemma digits_prefix_all (s : string) : forall k, all_digit_chars s = true ->
  digits_prefix s (Some k) = (Some (fold_digits s k), EmptyString).
Proof.
  induction s as [|c s IH]; intros k H; [reflexivity|].
  cbn [all_digit_chars] in H. apply andb_prop in H as [Hc H].
  cbn [digits_prefix fold_digits]. rewrite Hc. apply IH, H.
Qed.

Lemma digits_prefix_none (s : string) : s <> EmptyString -> all_digit_chars s = true ->
  fst (digits_prefix s None) = Some (fold_digits s 0).
Proof.
  destruct s as [|c s]; intros Hne H; [congruence|].
  cbn [all_digit_chars] in H. apply andb_prop in H as [Hc H].
  cbn [digits_prefix fold_digits]. rewrite Hc. rewrite digits_prefix_all by exact H.
  reflexivity.
Qed.

Lemma all_digits_chars (s : string) : s <> EmptyString -> all_digit_chars s = true ->
  all_digits s = true.
Proof.
  assert (G : forall t, all_digit_chars t = true ->
            (fix go (s : string) : bool :=
               match s with EmptyString => true | String c r => is_digit c && go r end) t = true).
  { induction t as [|x t IH]; [reflexivity|].
    cbn [all_digit_chars]. intros H. apply andb_prop in H as [Hx H]. rewrite Hx. cbn. apply IH, H. }
  destruct s as [|c s]; intros Hne H; [congruence|]. unfold all_digits. exact (G (String c s) H).
Qed.

(** ** Helpers: reading and printing ISO dates *)

Lemma v8_parse_ymd (tzo y m d : Z) : 100 <= y <= 9999 -> 1 <= m <= 12 -> 1 <= d <= 31 ->
  v8_date_parse_partial tzo (ymd_string y m d) = Some (days_from_civil y m d * msPerDay).
Proof.
  intros Hy Hm Hd.
  destruct (pad_dec_digits 4 y ltac:(lia)) as (Ny & Ay & Fy).
  destruct (pad_dec_digits 2 m ltac:(lia)) as (Nm & Am & Fm).
  destruct (pad_dec_digits 2 d ltac:(lia)) as (Nd & Ad & Fd).
  unfold v8_date_parse_partial, ymd_string.
  rewrite (split_dash_app _ _ Ay), (split_dash_app _ _ Am), (split_dash_digits _ Ad).
  cbv zeta.
  rewrite (pad_zeros_length 4) by (apply z_to_dec_length_le; cbn; lia).
  rewrite (pad_zeros_length 2 (z_to_dec m)) by (apply z_to_dec_length_le; cbn; lia).
  rewrite (pad_zeros_length 2 (z_to_dec d)) by (apply z_to_dec_length_le; cbn; lia).
  rewrite (all_digits_chars _ Ny Ay), (all_digits_chars _ Nm Am), (all_digits_chars _ Nd Ad).
  cbn [Nat.eqb andb].
  rewrite (digits_prefix_none _ Ny Ay), (digits_prefix_none _ Nm Am), (digits_prefix_none _ Nd Ad).
  rewrite Fy, Fm, Fd.
  replace ((1 <=? m) && (m <=? 12) && (1 <=? d) && (d <=? 31)) with true
    by (symmetry; repeat rewrite andb_true_iff; rewrite !Z.leb_le; lia).
  rewrite make_day_civil by lia.
  pose proof (days_from_civil_bound y m d ltac:(lia) Hm Hd).
  unfold time_clip. replace (Z.abs (days_from_civil y m d * msPerDay) <=? 8640000000000000) with true
    by (symmetry; apply Z.leb_le; unfold msPerDay; lia).
  reflexivity.
Qed.

Lemma trim_nonws_ends (s : string) (c e : ascii) (r r' : string) :
  s = String c r -> JS.rev_str s = String e r' -> JS.is_ws c = false -> JS.is_ws e = false ->
  JS.trim s = s.
Proof.
  intros Es Er Hc He. unfold JS.trim.
  replace (JS.trim_start s) with s by (rewrite Es; cbn; rewrite Hc; reflexivity).
  replace (JS.trim_start (JS.rev_str s)) with (JS.rev_str s)
    by (rewrite Er; cbn; rewrite He; reflexivity).
  apply rev_str_involutive.
Qed.

Lemma rev_digits_head (x : string) : x <> EmptyString -> all_digit_chars x = true ->
  exists e r', JS.rev_str x = String e r' /\ is_digit e = true.
Proof.
  induction x as [|c x IH]; intros Hne H; [congruence|].
  cbn [all_digit_chars] in H. apply andb_prop in H as [Hc H].
  cbn [JS.rev_str]. destruct x as [|c' x'].
  - exists c, EmptyString. auto.
  - destruct (IH ltac:(discriminate) H) as (e & r' & E & De). rewrite E.
    exists e, (r' ++ String c EmptyString). auto.
Qed.

Lemma trim_ymd (y m d : Z) : 0 <= y -> 0 <= m -> 0 <= d ->
  JS.trim (ymd_string y m d) = ymd_string y m d.
Proof.
  intros Hy Hm Hd.
  destruct (pad_dec_digits 4 y Hy) as (Ny & Ay & _).
  destruct (pad_dec_digits 2 d Hd) as (Nd & Ad & _).
  destruct (pad_zeros 4 (z_to_dec y)) as [|c r] eqn:Py; [congruence|].
  destruct (rev_digits_head _ Nd Ad) as (e & r' & Er & De).
  apply (trim_nonws_ends _ c e (r ++ "-" ++ pad_zeros 2 (z_to_dec m) ++ "-"
                                    ++ pad_zeros 2 (z_to_dec d))
                               (r' ++ JS.rev_str ("-" ++ pad_zeros 2 (z_to_dec m) ++ "-")
                                   ++ JS.rev_str (String c r))).
  - unfold ymd_string. rewrite Py. reflexivity.
  - unfold ymd_string. rewrite Py.
    replace (String c r ++ "-" ++ pad_zeros 2 (z_to_dec m) ++ "-" ++ pad_zeros 2 (z_to_dec d))
      with ((String c r ++ ("-" ++ pad_zeros 2 (z_to_dec m) ++ "-")) ++ pad_zeros 2 (z_to_dec d))
      by (rewrite !append_assoc_str; reflexivity).
    rewrite !rev_str_app, Er. reflexivity.
  - cbn [all_digit_chars] in Ay. apply andb_prop in Ay as [Ac _]. apply digit_not_ws, Ac.
  - apply digit_not_ws, De.
Qed.

Lemma parse_iso_ymd (tzo y m d : Z) : 100 <= y <= 9999 -> 1 <= m <= 12 -> 1 <= d <= 31 ->
  getFullYear (v8_env tzo) (days_from_civil y m d * msPerDay) > 1000 ->
  parseFlexibleDate (v8_env tzo) (Some (ymd_string y m d)) = Some (days_from_civil y m d * msPerDay).
Proof.
  intros Hy Hm Hd Hyear.
  pose proof (trim_ymd y m d ltac:(lia) ltac:(lia) ltac:(lia)) as Ht.
  pose proof (v8_parse_ymd tzo y m d Hy Hm Hd) as Hp.
  unfold parseFlexibleDate.
  remember (ymd_string y m d) as s eqn:Es.
  destruct s as [|c r]; [discriminate Hp|].
  rewrite Ht. change (date_parse (v8_env tzo)) with (v8_date_parse_partial tzo). rewrite Hp.
  replace (getFullYear (v8_env tzo) (days_from_civil y m d * msPerDay) >? 1000) with true
    by (symmetry; apply Z.gtb_lt; lia).
  reflexivity.
Qed.

Lemma local_day_west (tzo D : Z) : -msPerDay <= tzo < 0 ->
  (D * msPerDay + tzo) / msPerDay = D - 1.
Proof. intros H. unfold msPerDay in *. Z.div_mod_to_equations. lia. Qed.

Lemma local_day_east (tzo D : Z) : 0 <= tzo < msPerDay ->
  (D * msPerDay + tzo) / msPerDay = D.
Proof. intros H. unfold msPerDay in *. Z.div_mod_to_equations. lia. Qed.

(** ** Dates of the CSV import *)

(** X13: west of UTC (a negative local offset of less than a day), the
    start date the CSV import stores for an ISO cell [YYYY-MM-DD], that is
    [format(parseFlexibleDate(cell), 'yyyy-MM-dd')], is the day before the
    date written in the file: V8 reads the ISO date as UTC midnight and
    [format] prints the local date. *)
Theorem csv_date_west (tzo y m d : Z) :
  -msPerDay <= tzo < 0 -> 1002 <= y <= 9999 -> 1 <= m <= 12 -> 1 <= d <= month_length y m ->
  option_map (format_ymd (v8_env tzo)) (parseFlexibleDate (v8_env tzo) (Some (ymd_string y m d)))
  = Some (let '(y', m', d') := prev_day y m d in ymd_string y' m' d').
Proof.
  intros Htz Hy Hm Hd.
  pose proof (month_length_range y m) as Hml.
  pose proof (prev_day_spec y m d Hm Hd) as Hprev.
  destruct (prev_day y m d) as [[y' m'] d'].
  destruct Hprev as (Hdays & Hm' & Hd' & Hy').
  assert (Hloc : local_civil (v8_env tzo) (days_from_civil y m d * msPerDay) = (y', m', d')).
  { unfold local_civil. change (tz (v8_env tzo)) with tzo.
    rewrite local_day_west by exact Htz. rewrite <- Hdays.
    apply civil_from_days_inverse; assumption. }
  rewrite parse_iso_ymd by (try lia; unfold getFullYear; rewrite Hloc; cbn; lia).
  cbn [option_map]. unfold format_ymd. rewrite Hloc.
  replace (y' >? 0) with true by (symmetry; apply Z.gtb_lt; lia).
  reflexivity.
Qed.

(** X14: at UTC and east of it (an offset in [0, one day)), the same
    composition gives back the date written in the file. *)
Theorem csv_date_east (tzo y m d : Z) :
  0 <= tzo < msPerDay -> 1001 <= y <= 9999 -> 1 <= m <= 12 -> 1 <= d <= month_length y m ->
  option_map (format_ymd (v8_env tzo)) (parseFlexibleDate (v8_env tzo) (Some (ymd_string y m d)))
  = Some (ymd_string y m d).
Proof.
  intros Htz Hy Hm Hd.
  pose proof (month_length_range y m) as Hml.
  assert (Hloc : local_civil (v8_env tzo) (days_from_civil y m d * msPerDay) = (y, m, d)).
  { unfold local_civil. change (tz (v8_env tzo)) with tzo.
    rewrite local_day_east by exact Htz.
    apply civil_from_days_inverse; assumption. }
  rewrite parse_iso_ymd by (try lia; unfold getFullYear; rewrite Hloc; cbn; lia).
  cbn [option_map]. unfold format_ymd. rewrite Hloc.
  replace (y >? 0) with true by (symmetry; apply Z.gtb_lt; lia).
  reflexivity.
Qed.

Lemma csv_date_west_witness :
  option_map (format_ymd (v8_env (-18000000)))
    (parseFlexibleDate (v8_env (-18000000)) (Some (ymd_string 2026 3 1)))
  = Some "2026-02-28".
Proof.
  rewrite (csv_date_west (-18000000) 2026 3 1).
  - vm_compute. reflexivity.
  - unfold msPerDay. lia.
  - lia.
  - lia.
  - vm_compute. split; discriminate.
Defined.

Lemma csv_date_east_witness :
  option_map (format_ymd (v8_env 3600000))
    (parseFlexibleDate (v8_env 3600000) (Some (ymd_string 2026 3 1)))
  = Some "2026-03-01".
Proof.
  rewrite (csv_date_east 3600000 2026 3 1).
  - vm_compute. reflexivity.
  - unfold msPerDay. lia.
  - lia.
  - lia.
  - vm_compute. split; discriminate.
Defined.

(** ** Activities drawn on the canvas of a month *)

(** [setFullYear(y, mm, 0)] lands on the last day of month [mm]. *)
Lemma make_day_last (y mm : Z) : 1 <= mm <= 12 ->
  make_day y mm 0 = days_from_civil y mm (month_length y mm).
Proof.
  intros Hm. unfold make_day.
  destruct (Z.eq_dec mm 12) as [->|Hne].
  - change (12 / 12) with 1. change (12 mod 12 + 1) with 1.
    unfold days_from_civil, month_length, leap_year. cbn -[Z.div Z.modulo Z.mul Z.add Z.sub].
    replace (y + 1 - 1) with y by lia. change ((153 * (1 + 9) + 2) / 5) with 306. change ((153 * (12 - 3) + 2) / 5) with 275. lia.
  - rewrite Z.div_small by lia. rewrite Z.mod_small by lia.
    replace (y + 0) with y by lia.
    pose proof (days_from_civil_first y (mm + 1)) as H.
    replace (mm + 1 - 1) with mm in H by lia. lia.
Qed.

Lemma local_civil_day (env : Env) (z : Z) :
  local_civil env (z * msPerDay - tz env) = civil_from_days z.
Proof.
  unfold local_civil. f_equal. replace (z * msPerDay - tz env + tz env) with (z * msPerDay) by lia.
  apply Z.div_mul. unfold msPerDay. lia.
Qed.

Lemma canvas_month_bounds (env : Env) (st : CalendarState) (m : Z) :
  Z.abs (tz env) <= msPerDay -> 1000 <= cfg_year (st_config st) <= 9999 -> 0 <= m <= 11 ->
  let Y := cfg_year (st_config st) in
  Canvas.monthStart env st m = Some (days_from_civil Y (m + 1) 1 * msPerDay - tz env)
  /\ Canvas.monthEnd env st m
     = Some (days_from_civil Y (m + 1) (month_length Y (m + 1)) * msPerDay + 86399999 - tz env).
Proof.
  intros Htz HY Hm Y.
  assert (HS : Canvas.monthStart env st m = Some (days_from_civil Y (m + 1) 1 * msPerDay - tz env)).
  { unfold Canvas.monthStart. replace m with (m + 1 - 1) at 1 by lia.
    apply new_date_local_civil; lia. }
  split; [exact HS|].
  unfold Canvas.monthEnd. rewrite HS. unfold endOfMonth, getFullYear, getMonth.
  pose proof (month_length_range Y (m + 1)).
  rewrite local_civil_day, civil_from_days_inverse by lia. cbn [fst snd].
  replace (m + 1 - 1 + 1) with (m + 1) by lia.
  rewrite make_day_last by lia.
  pose proof (days_from_civil_bound Y (m + 1) (month_length Y (m + 1))) as B.
  replace ((days_from_civil Y (m + 1) 1 * msPerDay - tz env + tz env) mod msPerDay) with 0
    by (replace (days_from_civil Y (m + 1) 1 * msPerDay - tz env + tz env)
          with (days_from_civil Y (m + 1) 1 * msPerDay) by lia;
        symmetry; apply Z.mod_mul; unfold msPerDay; lia).
  unfold time_clip.
  replace (Z.abs _ <=? 8640000000000000) with true
    by (symmetry; apply Z.leb_le; unfold msPerDay in *; lia).
  replace ((days_from_civil Y (m + 1) (month_length Y (m + 1)) * msPerDay + 0 - tz env + tz env)
             / msPerDay)
    with (days_from_civil Y (m + 1) (month_length Y (m + 1)))
    by (replace (days_from_civil Y (m + 1) (month_length Y (m + 1)) * msPerDay + 0 - tz env + tz env)
          with (days_from_civil Y (m + 1) (month_length Y (m + 1)) * msPerDay) by lia;
        symmetry; apply Z.div_mul; unfold msPerDay; lia).
  replace (Z.abs _ <=? 8640000000000000) with true
    by (symmetry; apply Z.leb_le; unfold msPerDay in *; lia).
  reflexivity.
Qed.



(** ** The week grid of the canvas *)

Lemma yoe_range (doe : Z) : 0 <= doe < 146097 ->
  let yoe := (doe - doe / 1460 + doe / 36524 - doe / 146096) / 365 in
  0 <= yoe <= 399 /\ 0 <= doe - (365 * yoe + yoe / 4 - yoe / 100) <= 365.
Proof. intros H yoe. subst yoe. Z.div_mod_to_equations. lia. Qed.

(** Every day number is the day number of its civil date. *)
Lemma days_from_civil_of_days (z : Z) :
  let '(y, m, d) := civil_from_days z in days_from_civil y m d = z /\ 1 <= m <= 12.
Proof.
  unfold civil_from_days.
  set (era := (z + 719468) / 146097).
  set (doe := z + 719468 - era * 146097).
  assert (Hdoe : 0 <= doe < 146097) by (subst doe era; Z.div_mod_to_equations; lia).
  destruct (yoe_range doe Hdoe) as [Hyoe Hdoy].
  set (yoe := (doe - doe / 1460 + doe / 36524 - doe / 146096) / 365) in *.
  set (doy := doe - (365 * yoe + yoe / 4 - yoe / 100)) in *.
  set (mp := (5 * doy + 2) / 153).
  assert (Hmp : 0 <= mp <= 11) by (subst mp; Z.div_mod_to_equations; lia).
  unfold days_from_civil.
  destruct (Z.ltb_spec mp 10) as [Hlt|Hge].
  - replace (mp + 3 <=? 2) with false by (symmetry; apply Z.leb_gt; lia).
    replace (mp + 3 >? 2) with true by (symmetry; apply Z.gtb_lt; lia).
    replace (mp + 3 - 3) with mp by lia.
    replace (yoe + era * 400 + 0) with (era * 400 + yoe) by lia.
    rewrite Z.div_add_l, (Z.div_small yoe 400), Z.add_0_r by lia.
    replace (era * 400 + yoe - era * 400) with yoe by lia.
    replace ((153 * mp + 2) / 5 + (doy - (153 * mp + 2) / 5 + 1) - 1) with doy by lia.
    split; [subst doy doe; lia | lia].
  - replace (mp - 9 <=? 2) with true by (symmetry; apply Z.leb_le; lia).
    replace (mp - 9 >? 2) with false by (symmetry; rewrite Z.gtb_ltb; apply Z.ltb_ge; lia).
    replace (mp - 9 + 9) with mp by lia.
    replace (yoe + era * 400 + 1 - 1) with (era * 400 + yoe) by lia.
    rewrite Z.div_add_l, (Z.div_small yoe 400), Z.add_0_r by lia.
    replace (era * 400 + yoe - era * 400) with yoe by lia.
    replace ((153 * mp + 2) / 5 + (doy - (153 * mp + 2) / 5 + 1) - 1) with doy by lia.
    split; [subst doy doe; lia | lia].
Qed.

Lemma map_seq_succ {A : Type} (f : nat -> A) (n : nat) :
  map f (seq 0 (S n)) = f O :: map (fun i => f (S i)) (seq 0 n).
Proof. cbn [seq map]. f_equal. rewrite <- seq_shift, map_map. reflexivity. Qed.

Lemma map_seq_add {A : Type} (f : nat -> A) (a k : nat) :
  map f (seq 0 (a + k)) = (map f (seq 0 a) ++ map (fun i => f (a + i)%nat) (seq 0 k))%list.
Proof.
  revert f. induction a as [|a IH]; intros f; [reflexivity|].
  cbn [Nat.add]. rewrite !map_seq_succ, IH. reflexivity.
Qed.

Lemma concat_weeks (g : Z -> Z) (n : nat) : forall W : Z,
  concat (map (fun i => map (fun j => g (W + 7 * Z.of_nat i + Z.of_nat j)) (seq 0 7)) (seq 0 n))
  = map (fun i => g (W + Z.of_nat i)) (seq 0 (7 * n)).
Proof.
  induction n as [|n IH]; intros W; [reflexivity|].
  rewrite map_seq_succ. cbn [concat].
  replace (7 * S n)%nat with (7 + 7 * n)%nat by lia.
  rewrite map_seq_add. f_equal.
  - apply map_ext. intros j. f_equal. lia.
  - transitivity (map (fun i => g (W + 7 + Z.of_nat i)) (seq 0 (7 * n))).
    + rewrite <- (IH (W + 7)). f_equal. apply map_ext. intros i. apply map_ext. intros j.
      f_equal. lia.
    + apply map_ext. intros i. f_equal. lia.
Qed.

Lemma filter_all_false {A : Type} (f : A -> bool) (l : list A) :
  (forall x, In x l -> f x = false) -> filter f l = [].
Proof.
  induction l as [|x l IH]; intros H; [reflexivity|]. cbn [filter].
  rewrite (H x (or_introl eq_refl)). apply IH. intros y Hy. apply H. right. exact Hy.
Qed.

Lemma filter_all_true {A : Type} (f : A -> bool) (l : list A) :
  (forall x, In x l -> f x = true) -> filter f l = l.
Proof.
  induction l as [|x l IH]; intros H; [reflexivity|]. cbn [filter].
  rewrite (H x (or_introl eq_refl)). f_equal. apply IH. intros y Hy. apply H. right. exact Hy.
Qed.

Lemma month_first_last (y mm : Z) : 1 <= mm <= 12 ->
  days_from_civil y mm 1 <= days_from_civil y mm (month_length y mm).
Proof. intros Hm. pose proof (month_length_range y mm). unfold days_from_civil. lia. Qed.

Section WeekProofs.

Variable env : Env.
Hypothesis Htz : Z.abs (tz env) <= msPerDay.

Lemma div_at (D r : Z) : 0 <= r < msPerDay -> (D * msPerDay + r - tz env + tz env) / msPerDay = D.
Proof. intros Hr. unfold msPerDay in *. Z.div_mod_to_equations. nia. Qed.

Lemma mod_at (D r : Z) : 0 <= r < msPerDay -> (D * msPerDay + r - tz env + tz env) mod msPerDay = r.
Proof. intros Hr. unfold msPerDay in *. Z.div_mod_to_equations. nia. Qed.

Lemma clip_at (D r : Z) : -4000000 <= D <= 4000000 -> 0 <= r < msPerDay ->
  time_clip (D * msPerDay + r - tz env) = Some (D * msPerDay + r - tz env).
Proof.
  intros HD Hr. unfold time_clip.
  replace (Z.abs _ <=? 8640000000000000) with true
    by (symmetry; apply Z.leb_le; unfold msPerDay in *; lia).
  reflexivity.
Qed.

Lemma getDay_at (D r : Z) : 0 <= r < msPerDay ->
  getDay env (D * msPerDay + r - tz env) = (D + 4) mod 7.
Proof. intros Hr. unfold getDay. rewrite div_at by exact Hr. reflexivity. Qed.

Lemma setDate_at (D r n : Z) : 0 <= r < msPerDay -> -4000000 <= D + n <= 4000000 ->
  setDate env (D * msPerDay + r - tz env) (getDate env (D * msPerDay + r - tz env) + n)
  = Some ((D + n) * msPerDay + r - tz env).
Proof.
  intros Hr HD. unfold setDate, getDate, local_civil. rewrite div_at by exact Hr.
  pose proof (days_from_civil_of_days D) as HC.
  destruct (civil_from_days D) as [[y m] d]. destruct HC as [HC Hm]. cbn [snd].
  rewrite make_day_civil by exact Hm. rewrite mod_at by exact Hr.
  replace (days_from_civil y m (d + n)) with (D + n) by (rewrite <- HC; unfold days_from_civil; lia).
  apply clip_at; assumption.
Qed.

Lemma setHours4_at (D r h mi s ms : Z) : 0 <= r < msPerDay -> -4000000 <= D <= 4000000 ->
  0 <= h * 3600000 + mi * 60000 + s * 1000 + ms < msPerDay ->
  setHours4 env (Some (D * msPerDay + r - tz env)) h mi s ms
  = Some (D * msPerDay + (h * 3600000 + mi * 60000 + s * 1000 + ms) - tz env).
Proof.
  intros Hr HD Hx. unfold setHours4. rewrite div_at by exact Hr. apply clip_at; assumption.
Qed.

Lemma setHours_at (D a h : Z) : 0 <= a <= 23 -> 0 <= h <= 23 -> -4000000 <= D <= 4000000 ->
  setHours env (Some (D * msPerDay + a * 3600000 - tz env)) h
  = Some (D * msPerDay + h * 3600000 - tz env).
Proof.
  intros Ha Hh HD. unfold setHours.
  rewrite div_at by (unfold msPerDay in *; lia).
  replace ((D * msPerDay + a * 3600000 - tz env + tz env) mod 3600000) with 0.
  - replace (D * msPerDay + h * 3600000 + 0) with (D * msPerDay + h * 3600000) by lia.
    apply clip_at; unfold msPerDay; lia.
  - replace (D * msPerDay + a * 3600000 - tz env + tz env) with ((D * 24 + a) * 3600000)
      by (unfold msPerDay in *; lia).
    symmetry. apply Z.mod_mul. lia.
Qed.

Lemma week_diff (D : Z) :
  (if (D + 4) mod 7 <? 1 then 7 else 0) + (D + 4) mod 7 - 1 = (D + 3) mod 7.
Proof.
  destruct (Z.ltb_spec ((D + 4) mod 7) 1); Z.div_mod_to_equations; lia.
Qed.

Lemma startOfWeek_at (D r : Z) : 0 <= r < msPerDay -> -3999990 <= D <= 4000000 ->
  startOfWeek env es_weekStartsOn (Some (D * msPerDay + r - tz env))
  = Some ((D - (D + 3) mod 7) * msPerDay - tz env).
Proof.
  intros Hr HD. unfold startOfWeek, es_weekStartsOn. rewrite getDay_at by exact Hr.
  rewrite week_diff.
  assert (H7 : 0 <= (D + 3) mod 7 < 7) by (apply Z.mod_pos_bound; lia).
  replace (getDate env (D * msPerDay + r - tz env) - (D + 3) mod 7)
    with (getDate env (D * msPerDay + r - tz env) + - ((D + 3) mod 7)) by lia.
  rewrite setDate_at by (assumption || lia).
  rewrite setHours4_at by (unfold msPerDay in *; lia).
  f_equal. lia.
Qed.

Lemma monday_at (D : Z) : ((D - (D + 3) mod 7) + 4) mod 7 = 1.
Proof. Z.div_mod_to_equations. lia. Qed.

Lemma endOfWeek_at (W : Z) : (W + 4) mod 7 = 1 -> -4000000 <= W <= 3999990 ->
  endOfWeek env es_weekStartsOn (Some (W * msPerDay - tz env))
  = Some ((W + 6) * msPerDay + 86399999 - tz env).
Proof.
  intros HW HD. unfold endOfWeek, es_weekStartsOn.
  replace (W * msPerDay - tz env) with (W * msPerDay + 0 - tz env) by lia.
  rewrite getDay_at by (unfold msPerDay in *; lia). rewrite HW. cbn -[getDate setDate setHours4].
  rewrite setDate_at by (unfold msPerDay in *; lia).
  rewrite setHours4_at by (unfold msPerDay in *; lia).
  reflexivity.
Qed.


Lemma each_day_loop_at (n : nat) : forall (fuel : nat) (D E : Z),
  (n < fuel)%nat -> E = D + Z.of_nat n - 1 ->
  -4000000 <= D -> E <= 3999990 ->
  each_day_loop env fuel (Some (D * msPerDay - tz env)) (E * msPerDay + 86399999 - tz env)
  = map (fun i => (D + Z.of_nat i) * msPerDay - tz env) (seq 0 n).
Proof.
  induction n as [|n IH]; intros fuel D E Hf HE HD1 HD2;
    (destruct fuel as [|fuel]; [lia|]); cbn [each_day_loop].
  - replace (D * msPerDay - tz env <=? E * msPerDay + 86399999 - tz env) with false
      by (symmetry; apply Z.leb_gt; unfold msPerDay; lia).
    reflexivity.
  - replace (D * msPerDay - tz env <=? E * msPerDay + 86399999 - tz env) with true
      by (symmetry; apply Z.leb_le; unfold msPerDay; lia).
    rewrite map_seq_succ. f_equal; [f_equal; lia|].
    replace (D * msPerDay - tz env) with (D * msPerDay + 0 - tz env) by lia.
    rewrite setDate_at by (unfold msPerDay in *; lia).
    rewrite setHours4_at by (unfold msPerDay in *; lia).
    replace ((D + 1) * msPerDay + (0 * 3600000 + 0 * 60000 + 0 * 1000 + 0) - tz env)
      with ((D + 1) * msPerDay - tz env) by lia.
    rewrite (IH fuel (D + 1) E) by lia.
    apply map_ext. intros i. f_equal. lia.
Qed.

Lemma weekDays_at (W : Z) : (W + 4) mod 7 = 1 -> -4000000 <= W <= 3999984 ->
  Canvas.weekDays env (Some (W * msPerDay - tz env))
  = map (fun i => (W + Z.of_nat i) * msPerDay - tz env) (seq 0 7).
Proof.
  intros HW HD. unfold Canvas.weekDays. rewrite endOfWeek_at by (assumption || lia).
  unfold eachDayOfInterval.
  replace ((W + 6) * msPerDay + 86399999 - tz env <? W * msPerDay - tz env) with false
    by (symmetry; apply Z.ltb_ge; unfold msPerDay; lia).
  replace (W * msPerDay - tz env) with (W * msPerDay + 0 - tz env) by lia.
  rewrite setHours4_at by (unfold msPerDay in *; lia).
  replace (W * msPerDay + (0 * 3600000 + 0 * 60000 + 0 * 1000 + 0) - tz env)
    with (W * msPerDay - tz env) by lia.
  replace (((W + 6) * msPerDay + 86399999 - tz env - (W * msPerDay - tz env)) / msPerDay + 2)
    with 8 by (unfold msPerDay; Z.div_mod_to_equations; lia).
  apply each_day_loop_at; cbn; lia.
Qed.

Lemma each_week_loop_at (n : nat) : forall (fuel : nat) (W WL : Z),
  (n < fuel)%nat -> WL = W + 7 * (Z.of_nat n - 1) ->
  -4000000 <= W -> WL <= 3999990 ->
  each_week_loop env fuel (Some (W * msPerDay + 15 * 3600000 - tz env))
    (WL * msPerDay + 15 * 3600000 - tz env)
  = map (fun i => Some ((W + 7 * Z.of_nat i) * msPerDay - tz env)) (seq 0 n).
Proof.
  induction n as [|n IH]; intros fuel W WL Hf HE HD1 HD2;
    (destruct fuel as [|fuel]; [lia|]); cbn [each_week_loop].
  - replace (W * msPerDay + 15 * 3600000 - tz env <=? WL * msPerDay + 15 * 3600000 - tz env)
      with false by (symmetry; apply Z.leb_gt; unfold msPerDay in *; lia).
    reflexivity.
  - replace (W * msPerDay + 15 * 3600000 - tz env <=? WL * msPerDay + 15 * 3600000 - tz env)
      with true by (symmetry; apply Z.leb_le; unfold msPerDay in *; lia).
    rewrite (setHours_at W 15 0) by lia.
    rewrite map_seq_succ. f_equal; [f_equal; lia|].
    unfold addWeeks, addDays. replace (1 * 7 =? 0) with false by reflexivity. cbv iota beta.
    rewrite setDate_at by (unfold msPerDay in *; lia).
    rewrite (setHours_at (W + 1 * 7) 0 15) by lia. replace (W + 1 * 7) with (W + 7) by lia.
    rewrite (IH fuel (W + 7) WL) by lia.
    apply map_ext. intros i. f_equal. f_equal. lia.
Qed.


Lemma canvas_weeks_at (st : CalendarState) (m : Z) :
  1000 <= cfg_year (st_config st) <= 9999 -> 0 <= m <= 11 ->
  let Y := cfg_year (st_config st) in
  let F := days_from_civil Y (m + 1) 1 in
  let L := days_from_civil Y (m + 1) (month_length Y (m + 1)) in
  let W0 := F - (F + 3) mod 7 in
  let WL := L - (L + 3) mod 7 in
  Canvas.weeks env st m
  = map (fun i => Some ((W0 + 7 * Z.of_nat i) * msPerDay - tz env))
      (seq 0 (Z.to_nat ((WL - W0) / 7 + 1))).
Proof.
  intros HY Hm Y F L W0 WL.
  destruct (canvas_month_bounds env st m Htz HY Hm) as [HS HE].
  pose proof (month_length_range Y (m + 1)).
  pose proof (days_from_civil_bound Y (m + 1) 1) as BF.
  pose proof (days_from_civil_bound Y (m + 1) (month_length Y (m + 1))) as BL.
  pose proof (month_first_last Y (m + 1)) as FL.
  fold Y F L in HS, HE, BF, BL, FL.
  assert (BF' : -700000 <= F <= 3000000) by (apply BF; lia).
  assert (BL' : -700000 <= L <= 3000000) by (apply BL; lia).
  assert (FL' : F <= L) by (apply FL; lia).
  clear BF BL FL.
  assert (HW0 : F - 6 <= W0 <= F) by (subst W0; Z.div_mod_to_equations; lia).
  assert (HWL : L - 6 <= WL <= L) by (subst WL; Z.div_mod_to_equations; lia).
  assert (Hk : exists k, WL - W0 = 7 * k /\ 0 <= k).
  { exists ((WL - W0) / 7). subst WL W0. Z.div_mod_to_equations. lia. }
  destruct Hk as [k [Hk Hk0]].
  unfold Canvas.weeks, eachWeekOfInterval. rewrite HS, HE.
  replace (L * msPerDay + 86399999 - tz env <? F * msPerDay - tz env) with false
    by (symmetry; apply Z.ltb_ge; unfold msPerDay in *; lia).
  replace (F * msPerDay - tz env) with (F * msPerDay + 0 - tz env) by lia.
  rewrite !startOfWeek_at by (unfold msPerDay in *; lia).
  fold W0 WL.
  replace (W0 * msPerDay - tz env) with (W0 * msPerDay + 0 * 3600000 - tz env) by lia.
  replace (WL * msPerDay - tz env) with (WL * msPerDay + 0 * 3600000 - tz env) by lia.
  rewrite !setHours_at by lia.
  replace ((WL * msPerDay + 15 * 3600000 - tz env - (W0 * msPerDay + 15 * 3600000 - tz env))
             / (7 * msPerDay) + 2) with (k + 2)
    by (replace (WL * msPerDay + 15 * 3600000 - tz env - (W0 * msPerDay + 15 * 3600000 - tz env))
          with (k * (7 * msPerDay)) by (rewrite Z.mul_assoc, (Z.mul_comm k 7), <- Hk; ring);
        rewrite Z.div_mul by (unfold msPerDay; lia); reflexivity).
  replace ((WL - W0) / 7 + 1) with (k + 1) by (rewrite Hk; Z.div_mod_to_equations; lia).
  apply each_week_loop_at; lia.
Qed.



Lemma canvas_grid_at (st : CalendarState) (m : Z) :
  1000 <= cfg_year (st_config st) <= 9999 -> 0 <= m <= 11 ->
  let Y := cfg_year (st_config st) in
  let F := days_from_civil Y (m + 1) 1 in
  let L := days_from_civil Y (m + 1) (month_length Y (m + 1)) in
  exists (W0 : Z) (n : nat),
    map (Canvas.weekDays env) (Canvas.weeks env st m)
    = map (fun i => map (fun j => (W0 + 7 * Z.of_nat i + Z.of_nat j) * msPerDay - tz env)
                         (seq 0 7)) (seq 0 n)
    /\ (W0 + 4) mod 7 = 1 /\ F - 6 <= W0 <= F /\ L <= W0 + 7 * Z.of_nat n - 1 <= L + 6
    /\ -700006 <= W0 /\ W0 + 7 * Z.of_nat n <= 3000007.
Proof.
  intros HY Hm Y F L.
  pose proof (month_length_range Y (m + 1)).
  pose proof (days_from_civil_bound Y (m + 1) 1) as BF.
  pose proof (days_from_civil_bound Y (m + 1) (month_length Y (m + 1))) as BL.
  pose proof (month_first_last Y (m + 1)) as FL.
  fold Y F L in BF, BL, FL.
  assert (BF' : -700000 <= F <= 3000000) by (apply BF; lia).
  assert (BL' : -700000 <= L <= 3000000) by (apply BL; lia).
  assert (FL' : F <= L) by (apply FL; lia).
  clear BF BL FL.
  rewrite (canvas_weeks_at st m HY Hm). fold Y F L.
  set (W0 := F - (F + 3) mod 7). set (WL := L - (L + 3) mod 7).
  assert (HW0 : F - 6 <= W0 <= F) by (subst W0; Z.div_mod_to_equations; lia).
  assert (HWL : L - 6 <= WL <= L) by (subst WL; Z.div_mod_to_equations; lia).
  assert (Hk : exists k, WL - W0 = 7 * k /\ 0 <= k).
  { exists ((WL - W0) / 7). subst WL W0. Z.div_mod_to_equations. lia. }
  destruct Hk as [k [Hk Hk0]].
  replace ((WL - W0) / 7 + 1) with (k + 1) by (rewrite Hk; Z.div_mod_to_equations; lia).
  exists W0, (Z.to_nat (k + 1)).
  rewrite Z2Nat.id by lia.
  split; [|split; [apply monday_at|]]; [|lia].
  rewrite map_map. apply map_ext_in. intros i Hi. apply in_seq in Hi.
  rewrite weekDays_at.
  - reflexivity.
  - replace (W0 + 7 * Z.of_nat i + 4) with ((W0 + 4) + Z.of_nat i * 7) by lia.
    rewrite Z.mod_add by lia. apply monday_at.
  - lia.
Qed.

End WeekProofs.

(** X16: for a year between 1000 and 9999 and a month index 0..11, every
    row of the canvas grid has seven days, and the day in column [k] has
    [getDay] equal to [(k + 1) mod 7]: the rows run Monday to Sunday, as
    the [es] locale gives [eachWeekOfInterval] and [endOfWeek], while the
    header above them (line 302) starts with DOM, Sunday. *)
Theorem canvas_grid_monday_first (env : Env) (st : CalendarState) (m : Z) :
  Z.abs (tz env) <= msPerDay -> 1000 <= cfg_year (st_config st) <= 9999 -> 0 <= m <= 11 ->
  forall w, In w (Canvas.weeks env st m) ->
  length (Canvas.weekDays env w) = 7%nat
  /\ forall (k : nat) (day : Z), nth_error (Canvas.weekDays env w) k = Some day ->
     getDay env day = (Z.of_nat k + 1) mod 7.
Proof.
  intros Htz HY Hm w Hw.
  destruct (canvas_grid_at env Htz st m HY Hm) as (W0 & n & Hg & HW0 & _).
  assert (Hin : In (Canvas.weekDays env w) (map (Canvas.weekDays env) (Canvas.weeks env st m)))
    by (apply in_map; exact Hw).
  rewrite Hg in Hin. apply in_map_iff in Hin. destruct Hin as (i & <- & _).
  split; [rewrite length_map, length_seq; reflexivity|].
  intros k day Hk.
  rewrite nth_error_map in Hk.
  destruct (nth_error (seq 0 7) k) as [j|] eqn:Ej; [|discriminate].
  cbn [option_map] in Hk.
  apply (f_equal (fun o => match o with Some x => x | None => day end)) in Hk.
  cbv beta iota in Hk. rewrite <- Hk. clear Hk.
  rewrite <- (Z.add_0_r ((W0 + 7 * Z.of_nat i + Z.of_nat j) * msPerDay)).
  assert (Hk7 : (k < 7)%nat)
    by (rewrite <- (length_seq 7 0); apply nth_error_Some; rewrite Ej; discriminate).
  pose proof (nth_error_nth _ _ 0%nat Ej) as Hn. rewrite seq_nth in Hn by exact Hk7.
  cbn [Nat.add] in Hn.
  subst j.
  rewrite getDay_at by (unfold msPerDay; lia).
  replace (W0 + 7 * Z.of_nat i + Z.of_nat k + 4) with ((W0 + 4) + Z.of_nat k + Z.of_nat i * 7) by lia.
  rewrite Z.mod_add by lia. rewrite Z.add_mod, HW0 by lia.
  rewrite <- Z.add_mod_idemp_r by lia. rewrite Z.mod_mod by lia.
  rewrite Z.add_mod_idemp_r by lia. f_equal. lia.
Qed.



(** X17: under the same conditions, the rows of the grid read in order are
    the local midnights of consecutive days, from a Monday at most six days
    before the first day of the month to a day at most six days after its
    last day; every row holds seven days. *)
Theorem canvas_grid_consecutive_days (env : Env) (st : CalendarState) (m : Z) :
  Z.abs (tz env) <= msPerDay -> 1000 <= cfg_year (st_config st) <= 9999 -> 0 <= m <= 11 ->
  let Y := cfg_year (st_config st) in
  let F := days_from_civil Y (m + 1) 1 in
  let L := days_from_civil Y (m + 1) (month_length Y (m + 1)) in
  exists (W0 : Z) (n : nat),
    concat (map (Canvas.weekDays env) (Canvas.weeks env st m))
    = map (fun i => (W0 + Z.of_nat i) * msPerDay - tz env) (seq 0 (7 * n))
    /\ (W0 + 4) mod 7 = 1 /\ F - 6 <= W0 <= F /\ L <= W0 + 7 * Z.of_nat n - 1 <= L + 6.
Proof.
  intros Htz HY Hm Y F L.
  destruct (canvas_grid_at env Htz st m HY Hm) as (W0 & n & Hg & HW0 & HF & HL & _).
  exists W0, n. split; [|tauto].
  rewrite Hg. apply (concat_weeks (fun D => D * msPerDay - tz env) n W0).
Qed.

(** X18: under the same conditions, the days of the grid that
    [isCurrentMonth] keeps (the grid draws the others transparent) are the
    local midnights of the days of the month, each once and in order. *)
Theorem canvas_grid_current_month (env : Env) (st : CalendarState) (m : Z) :
  Z.abs (tz env) <= msPerDay -> 1000 <= cfg_year (st_config st) <= 9999 -> 0 <= m <= 11 ->
  let Y := cfg_year (st_config st) in
  let F := days_from_civil Y (m + 1) 1 in
  let L := days_from_civil Y (m + 1) (month_length Y (m + 1)) in
  filter (Canvas.isCurrentMonth env st m)
    (concat (map (Canvas.weekDays env) (Canvas.weeks env st m)))
  = map (fun i => (F + Z.of_nat i) * msPerDay - tz env) (seq 0 (Z.to_nat (L - F + 1))).
Proof.
  intros Htz HY Hm Y F L.
  destruct (canvas_grid_at env Htz st m HY Hm) as (W0 & n & Hg & HW0 & HF & HL & _).
  fold Y F L in HF, HL.
  destruct (canvas_month_bounds env st m Htz HY Hm) as [HS HE]. fold Y F L in HS, HE.
  assert (FL : F <= L).
  { pose proof (month_first_last Y (m + 1)). fold F L in H. apply H. lia. }
  rewrite Hg, (concat_weeks (fun D => D * msPerDay - tz env) n W0).
  set (a := Z.to_nat (F - W0)). set (b := Z.to_nat (L - F + 1)).
  set (c := (7 * n - a - b)%nat).
  replace (7 * n)%nat with (a + (b + c))%nat by (subst a b c; lia).
  rewrite map_seq_add, map_seq_add, !filter_app.
  unfold Canvas.isCurrentMonth. rewrite HS, HE.
  rewrite filter_all_false, (filter_all_false _ (map _ (seq 0 c))), filter_all_true.
  - rewrite app_nil_l, app_nil_r. apply map_ext. intros i. f_equal. f_equal. subst a. lia.
  - intros x Hx. apply in_map_iff in Hx. destruct Hx as (i & <- & Hi). apply in_seq in Hi.
    apply andb_true_iff. rewrite Z.geb_le, Z.leb_le. unfold msPerDay in *. subst a b. nia.
  - intros x Hx. apply in_map_iff in Hx. destruct Hx as (i & <- & Hi). apply in_seq in Hi.
    apply andb_false_iff. right. apply Z.leb_gt. unfold msPerDay in *. subst a b. nia.
  - intros x Hx. apply in_map_iff in Hx. destruct Hx as (i & <- & Hi). apply in_seq in Hi.
    apply andb_false_iff. left. rewrite Z.geb_leb. apply Z.leb_gt. unfold msPerDay in *.
    subst a. nia.
Qed.

Lemma canvas_grid_monday_first_witness :
  Z.abs (tz (v8_env (-18000000))) <= msPerDay /\
  (forall w, In w (Canvas.weeks (v8_env (-18000000)) (sample_state 2026 []) 2) ->
   length (Canvas.weekDays (v8_env (-18000000)) w) = 7%nat
   /\ forall (k : nat) (day : Z), nth_error (Canvas.weekDays (v8_env (-18000000)) w) k = Some day ->
      getDay (v8_env (-18000000)) day = (Z.of_nat k + 1) mod 7).
Proof.
  split; [vm_compute; discriminate|].
  exact (canvas_grid_monday_first (v8_env (-18000000)) (sample_state 2026 []) 2
           ltac:(vm_compute; discriminate) ltac:(cbn; lia) ltac:(lia)).
Defined.

Lemma canvas_grid_consecutive_days_witness :
  1000 <= cfg_year (st_config (sample_state 2026 [])) <= 9999 /\
  (let Y := cfg_year (st_config (sample_state 2026 [])) in
   let F := days_from_civil Y (2 + 1) 1 in
   let L := days_from_civil Y (2 + 1) (month_length Y (2 + 1)) in
   exists (W0 : Z) (n : nat),
     concat (map (Canvas.weekDays (v8_env (-18000000)))
                 (Canvas.weeks (v8_env (-18000000)) (sample_state 2026 []) 2))
     = map (fun i => (W0 + Z.of_nat i) * msPerDay - tz (v8_env (-18000000))) (seq 0 (7 * n))
     /\ (W0 + 4) mod 7 = 1 /\ F - 6 <= W0 <= F /\ L <= W0 + 7 * Z.of_nat n - 1 <= L + 6).
Proof.
  split; [cbn; lia|].
  exact (canvas_grid_consecutive_days (v8_env (-18000000)) (sample_state 2026 []) 2
           ltac:(vm_compute; discriminate) ltac:(cbn; lia) ltac:(lia)).
Defined.

Lemma canvas_grid_current_month_witness :
  1000 <= cfg_year (st_config (sample_state 2026 [])) <= 9999 /\
  (let Y := cfg_year (st_config (sample_state 2026 [])) in
   let F := days_from_civil Y (2 + 1) 1 in
   let L := days_from_civil Y (2 + 1) (month_length Y (2 + 1)) in
   filter (Canvas.isCurrentMonth (v8_env (-18000000)) (sample_state 2026 []) 2)
     (concat (map (Canvas.weekDays (v8_env (-18000000)))
                  (Canvas.weeks (v8_env (-18000000)) (sample_state 2026 []) 2)))
   = map (fun i => (F + Z.of_nat i) * msPerDay - tz (v8_env (-18000000)))
       (seq 0 (Z.to_nat (L - F + 1)))).
Proof.
  split; [cbn; lia|].
  exact (canvas_grid_current_month (v8_env (-18000000)) (sample_state 2026 []) 2
           ltac:(vm_compute; discriminate) ltac:(cbn; lia) ltac:(lia)).
Defined.
